(** * Chunking and answer decoding of [data_helper/chunk_helper_coqa.py]

    A shallow embedding of [convert_examples_to_features] (the chunker) and
    [make_predictions] (the decoder), with the properties the specification
    states about them.

    Python integers are [Z]; lists are [list]; the dictionaries
    [token_to_orig_map], [token_is_max_context], [unique_id_to_result] and
    [validate_predictions] are [gmap]s; exceptions are an error monad; the
    sliding-window [while] loop, which need not terminate, takes fuel. *)

From Stdlib Require Import ZArith QArith Lia List Bool Ascii String PrimFloat.
From stdpp Require Import base option list gmap strings fin_maps.

Local Open Scope Z_scope.
#[local] Set Warnings "-inexact-float".

(** ** Python primitives *)

Inductive exn : Type :=
  | IndexError
  | KeyError
  | AssertionError.

Inductive outcome (A : Type) : Type :=
  | Ok (a : A)
  | Raise (e : exn).
Arguments Ok {A} a.
Arguments Raise {A} e.

#[global] Instance outcome_ret : MRet outcome := fun A a => Ok a.
#[global] Instance outcome_bind : MBind outcome := fun A B f m =>
  match m with
  | Ok a => f a
  | Raise e => Raise e
  end.

(** [len(l)] *)
Definition len {A : Type} (l : list A) : Z := Z.of_nat (length l).

(** [l[i]]: a negative index counts from the end, anything out of range
    raises [IndexError]. *)
Definition py_index {A : Type} (l : list A) (i : Z) : outcome A :=
  let j := if i <? 0 then i + len l else i in
  if (0 <=? j) && (j <? len l)
  then match l !! Z.to_nat j with
       | Some x => Ok x
       | None => Raise IndexError
       end
  else Raise IndexError.

(** The position a slice bound denotes: negative bounds count from the end,
    and every bound is clamped to [0 .. len(l)]. *)
Definition slice_bound {A : Type} (l : list A) (i : Z) : nat :=
  Z.to_nat (Z.min (len l) (if i <? 0 then i + len l else i)).

(** [l[:stop]] *)
Definition slice_to {A : Type} (l : list A) (stop : Z) : list A :=
  take (slice_bound l stop) l.

(** [l[start:]] *)
Definition slice_from {A : Type} (l : list A) (start : Z) : list A :=
  drop (slice_bound l start) l.

(** [l[start:stop]] *)
Definition slice {A : Type} (l : list A) (start stop : Z) : list A :=
  drop (slice_bound l start) (take (slice_bound l stop) l).

(** [range(n)] *)
Definition range (n : Z) : list Z := map Z.of_nat (seq 0 (Z.to_nat n)).

(** [enumerate(l)] *)
Definition enumerate {A : Type} (l : list A) : list (Z * A) :=
  imap (fun i x => (Z.of_nat i, x)) l.

(** ** Document spans and the sliding window *)

Module DocSpan.
Record t : Type := mk { start : Z; length : Z }.
End DocSpan.

(** The [while start_offset < len(all_doc_tokens)] loop of
    [convert_examples_to_features].  [n_doc] is [len(all_doc_tokens)].  One
    unit of fuel pays for one evaluation of the loop guard; [None] means the
    loop is still running when the fuel is used up. *)
Fixpoint doc_spans_loop (fuel : nat) (n_doc max_tokens_for_doc doc_stride : Z)
    (start_offset : Z) (doc_spans : list DocSpan.t) : option (list DocSpan.t) :=
  match fuel with
  | O => None
  | S fuel' =>
      if start_offset <? n_doc then
        let length := n_doc - start_offset in
        let length :=
          if length >? max_tokens_for_doc then max_tokens_for_doc else length in
        let doc_spans := doc_spans ++ [DocSpan.mk start_offset length] in
        if start_offset + length =? n_doc then Some doc_spans
        else doc_spans_loop fuel' n_doc max_tokens_for_doc doc_stride
               (start_offset + Z.min length doc_stride) doc_spans
      else Some doc_spans
  end.

(** The loop as the source enters it: [doc_spans = []], [start_offset = 0]. *)
Definition sliding_windows (fuel : nat) (n_doc max_tokens_for_doc doc_stride : Z)
    : option (list DocSpan.t) :=
  doc_spans_loop fuel n_doc max_tokens_for_doc doc_stride 0 [].

(** ** Strings *)

(** [sep.join(l)] *)
Definition join (sep : string) (l : list string) : string := String.concat sep l.

(** [s.replace(old, new)] for a non-empty [old] (the source replaces [" ##"]
    and ["##"]): leftmost occurrences first, not overlapping.  [skip] counts
    the characters of an occurrence that are still to be dropped. *)
Fixpoint replace_go (old new : string) (skip : nat) (s : string) : string :=
  match s with
  | EmptyString => EmptyString
  | String c s' =>
      match skip with
      | S k => replace_go old new k s'
      | O =>
          if String.prefix old s
          then String.append new (replace_go old new (String.length old - 1) s')
          else String c (replace_go old new 0 s')
      end
  end.
Definition replace (old new s : string) : string := replace_go old new 0 s.

(** [s.strip()] *)
Fixpoint lstrip (s : string) : string :=
  match s with
  | String c s' => if Ascii.is_space c then lstrip s' else s
  | EmptyString => EmptyString
  end.
Definition strip (s : string) : string :=
  String.rev (lstrip (String.rev (lstrip s))).

(** [s.split()] *)
Definition split (s : string) : list string := String.words s.

(** ** The collaborators *)

(** The tokenizer of [transformers]. *)
Class Tokenizer : Type := {
  tokenize : string -> list string;
  convert_tokens_to_ids : list string -> list Z
}.

(** The helpers imported from [data_helper.qa_util], whose code is not part of
    the file under study; the chunker and the decoder are parametric in them.
    [_improve_answer_span] receives the tokenizer as the source passes it. *)
Class QaUtil : Type := {
  _improve_answer_span : list string -> Z -> Z -> Tokenizer -> string -> Z * Z;
  _check_is_max_context : list DocSpan.t -> Z -> Z -> bool;
  get_final_text : string -> string -> bool -> bool -> string
}.

Class Softmax (F : Type) : Type := {
  _compute_softmax : list F -> list F
}.

(** Scores (logits): the source adds them, compares them, and writes the
    constant [0.0]. *)
Class Score (F : Type) : Type := {
  score_add : F -> F -> F;
  score_ltb : F -> F -> bool;
  score_zero : F
}.

(** ** Examples and chunk features *)

(** [CoQAExample] of [data_helper.data_helper_coqa], with the attributes the
    two functions read.  The gold span and the yes/no labels are read in
    training mode only. *)
Module CoQAExample.
Record t : Type := mk {
  question_texts : list string;
  doc_tokens : list string;
  orig_answer_text : string;
  start_position : Z;
  end_position : Z;
  yes_no_flag : Z;
  yes_no_ans : Z;
  paragraph_id : string;
  turn_id : Z
}.
End CoQAExample.

Module ChunkFeature.
Record t : Type := mk {
  unique_id : Z;
  example_index : Z;
  doc_span_index : Z;
  tokens : list string;
  token_to_orig_map : gmap Z Z;
  token_is_max_context : gmap Z bool;
  input_ids : list Z;
  input_mask : list Z;
  segment_ids : list Z;
  start_position : option Z;
  end_position : option Z;
  yes_no_flag : option Z;
  yes_no_ans : option Z
}.
End ChunkFeature.

(** [for x in l: body], where the body may raise. *)
Fixpoint for_each {A St : Type} (l : list A) (body : St -> A -> outcome St)
    (st : St) : outcome St :=
  match l with
  | [] => Ok st
  | x :: l' => st' ← body st x; for_each l' body st'
  end.

(** The [while len(input_ids) < max_seq_length] loop.  Every pass lengthens
    [input_ids] by one, so [max_seq_length - len(input_ids)] passes are the
    most it can make; [pad_loop_exit] below shows that the guard is false
    when the passes are used up. *)
Fixpoint pad_loop (passes : nat) (max_seq_length : Z)
    (input_ids input_mask segment_ids : list Z) : list Z * list Z * list Z :=
  match passes with
  | O => (input_ids, input_mask, segment_ids)
  | S passes' =>
      if len input_ids <? max_seq_length
      then pad_loop passes' max_seq_length
             (input_ids ++ [0]) (input_mask ++ [0]) (segment_ids ++ [0])
      else (input_ids, input_mask, segment_ids)
  end.

Definition zero_pad (max_seq_length : Z) (input_ids input_mask segment_ids : list Z)
    : list Z * list Z * list Z :=
  pad_loop (Z.to_nat (max_seq_length - len input_ids)) max_seq_length
    input_ids input_mask segment_ids.

(** [assert c] *)
Definition assert (c : bool) : outcome unit :=
  if c then Ok tt else Raise AssertionError.

(** ** The chunker: [convert_examples_to_features] *)

Section Chunker.
Context `{tokenizer : Tokenizer} `{qa_util : QaUtil}.

Variables (max_seq_length doc_stride max_query_length : Z).
Variables (is_training append_history : bool).

(** Lines 77-86: the query tokens of an example. *)
Definition query_tokens_of (example : CoQAExample.t) : list string :=
  let all_query_tokens := map tokenize (CoQAExample.question_texts example) in
  let all_query_tokens :=
    if append_history then rev all_query_tokens else all_query_tokens in
  let flat_all_query_tokens :=
    fold_left (fun flat query_tokens => flat ++ query_tokens) all_query_tokens [] in
  if append_history
  then slice_to flat_all_query_tokens max_query_length
  else slice_from flat_all_query_tokens (-1 * max_query_length).

(** Lines 88-96: the state is
    [(tok_to_orig_index, orig_to_tok_index, all_doc_tokens)]. *)
Definition tokenize_doc (doc_tokens : list string)
    : list Z * list Z * list string :=
  fold_left
    (fun '(tok_to_orig_index, orig_to_tok_index, all_doc_tokens) '(i, token) =>
       let orig_to_tok_index := orig_to_tok_index ++ [len all_doc_tokens] in
       let sub_tokens := tokenize token in
       fold_left
         (fun '(tok_to_orig_index, orig_to_tok_index, all_doc_tokens) sub_token =>
            (tok_to_orig_index ++ [i], orig_to_tok_index,
             all_doc_tokens ++ [sub_token]))
         sub_tokens (tok_to_orig_index, orig_to_tok_index, all_doc_tokens))
    (enumerate doc_tokens) ([], [], []).

(** Lines 98-108: the gold span in subword coordinates, [None] outside
    training. *)
Definition tok_positions (example : CoQAExample.t)
    (orig_to_tok_index : list Z) (all_doc_tokens : list string)
    : outcome (option (Z * Z)) :=
  if is_training then
    tok_start_position ←
      py_index orig_to_tok_index (CoQAExample.start_position example);
    tok_end_position ←
      (if CoQAExample.end_position example
          <? len (CoQAExample.doc_tokens example) - 1
       then
         t ← py_index orig_to_tok_index (CoQAExample.end_position example + 1);
         Ok (t - 1)
       else Ok (len all_doc_tokens - 1));
    Ok (Some (_improve_answer_span all_doc_tokens tok_start_position
                tok_end_position tokenizer
                (CoQAExample.orig_answer_text example)))
  else Ok None.

(** Lines 138-146, one pass of [for i in range(doc_span.length)]; the state
    is [(tokens, token_to_orig_map, token_is_max_context, segment_ids)]. *)
Definition doc_token_body (doc_spans : list DocSpan.t) (doc_span_index : Z)
    (doc_span : DocSpan.t) (tok_to_orig_index : list Z)
    (all_doc_tokens : list string)
    (st : list string * gmap Z Z * gmap Z bool * list Z) (i : Z)
    : outcome (list string * gmap Z Z * gmap Z bool * list Z) :=
  let '(tokens, token_to_orig_map, token_is_max_context, segment_ids) := st in
  let split_token_index := DocSpan.start doc_span + i in
  orig ← py_index tok_to_orig_index split_token_index;
  let token_to_orig_map := <[len tokens := orig]> token_to_orig_map in
  let is_max_context :=
    _check_is_max_context doc_spans doc_span_index split_token_index in
  let token_is_max_context :=
    <[len tokens := is_max_context]> token_is_max_context in
  token ← py_index all_doc_tokens split_token_index;
  Ok (tokens ++ [token], token_to_orig_map, token_is_max_context,
      segment_ids ++ [1]).

(** Lines 126-204, the body of [for (doc_span_index, doc_span) in
    enumerate(doc_spans)]: [Ok None] is the [continue] of line 173,
    [Ok (Some feature)] the feature that is appended.  The logging of lines
    179-189 has no effect on the result and is left out. *)
Definition doc_span_feature (example_index : Z) (example : CoQAExample.t)
    (query_tokens : list string) (tok_to_orig_index : list Z)
    (all_doc_tokens : list string) (tok_position : option (Z * Z))
    (doc_spans : list DocSpan.t) (unique_id : Z)
    (doc_span_index : Z) (doc_span : DocSpan.t)
    : outcome (option ChunkFeature.t) :=
  let tokens := [] ++ ["[CLS]"%string] in
  let segment_ids := [] ++ [0] in
  let '(tokens, segment_ids) :=
    fold_left (fun '(tokens, segment_ids) token =>
                 (tokens ++ [token], segment_ids ++ [0]))
      query_tokens (tokens, segment_ids) in
  let tokens := tokens ++ ["[SEP]"%string] in
  let segment_ids := segment_ids ++ [0] in
  '(tokens, token_to_orig_map, token_is_max_context, segment_ids) ←
    for_each (range (DocSpan.length doc_span))
      (doc_token_body doc_spans doc_span_index doc_span tok_to_orig_index
         all_doc_tokens)
      (tokens, ∅, ∅, segment_ids);
  let tokens := tokens ++ ["[SEP]"%string] in
  let segment_ids := segment_ids ++ [1] in
  let input_ids := convert_tokens_to_ids tokens in
  let input_mask := repeat 1 (length input_ids) in
  let '(input_ids, input_mask, segment_ids) :=
    zero_pad max_seq_length input_ids input_mask segment_ids in
  _ ← assert (len input_ids =? max_seq_length);
  _ ← assert (len input_mask =? max_seq_length);
  _ ← assert (len segment_ids =? max_seq_length);
  match tok_position with
  | Some (tok_start_position, tok_end_position) =>
      let doc_start := DocSpan.start doc_span in
      let doc_end := DocSpan.start doc_span + DocSpan.length doc_span - 1 in
      if (CoQAExample.start_position example <? doc_start)
         || (CoQAExample.end_position example <? doc_start)
         || (CoQAExample.start_position example >? doc_end)
         || (CoQAExample.end_position example >? doc_end)
      then Ok None
      else
        let doc_offset := len query_tokens + 2 in
        let start_position := tok_start_position - doc_start + doc_offset in
        let end_position := tok_end_position - doc_start + doc_offset in
        Ok (Some (ChunkFeature.mk unique_id example_index doc_span_index
                    tokens token_to_orig_map token_is_max_context
                    input_ids input_mask segment_ids
                    (Some start_position) (Some end_position)
                    (Some (CoQAExample.yes_no_flag example))
                    (Some (CoQAExample.yes_no_ans example))))
  | None =>
      Ok (Some (ChunkFeature.mk unique_id example_index doc_span_index
                  tokens token_to_orig_map token_is_max_context
                  input_ids input_mask segment_ids None None None None))
  end.

(** The [for ... in enumerate(doc_spans)] loop of one example; the state is
    [(features, unique_id)]. *)
Definition doc_spans_features (example_index : Z) (example : CoQAExample.t)
    (query_tokens : list string) (tok_to_orig_index : list Z)
    (all_doc_tokens : list string) (tok_position : option (Z * Z))
    (doc_spans : list DocSpan.t) (st : list ChunkFeature.t * Z)
    : outcome (list ChunkFeature.t * Z) :=
  for_each (enumerate doc_spans)
    (fun '(features, unique_id) '(doc_span_index, doc_span) =>
       feature ← doc_span_feature example_index example query_tokens
                   tok_to_orig_index all_doc_tokens tok_position doc_spans
                   unique_id doc_span_index doc_span;
       match feature with
       | None => Ok (features, unique_id)
       | Some feature => Ok (features ++ [feature], unique_id + 1)
       end)
    st.

(** Lines 76-205, the body of [for (example_index, example) in
    enumerate(examples)].  [None]: the sliding-window loop has not finished
    within [fuel] evaluations of its guard. *)
Definition example_body (fuel : nat) (example_index : Z)
    (example : CoQAExample.t) (st : list ChunkFeature.t * Z)
    : option (outcome (list ChunkFeature.t * Z)) :=
  let query_tokens := query_tokens_of example in
  let '(tok_to_orig_index, orig_to_tok_index, all_doc_tokens) :=
    tokenize_doc (CoQAExample.doc_tokens example) in
  match tok_positions example orig_to_tok_index all_doc_tokens with
  | Raise e => Some (Raise e)
  | Ok tok_position =>
      let max_tokens_for_doc := max_seq_length - len query_tokens - 3 in
      match sliding_windows fuel (len all_doc_tokens) max_tokens_for_doc
              doc_stride with
      | None => None
      | Some doc_spans =>
          Some (doc_spans_features example_index example query_tokens
                  tok_to_orig_index all_doc_tokens tok_position doc_spans st)
      end
  end.

(** The loop over the examples. *)
Fixpoint examples_loop (fuel : nat) (examples : list (Z * CoQAExample.t))
    (st : list ChunkFeature.t * Z)
    : option (outcome (list ChunkFeature.t * Z)) :=
  match examples with
  | [] => Some (Ok st)
  | (example_index, example) :: examples' =>
      match example_body fuel example_index example st with
      | None => None
      | Some (Raise e) => Some (Raise e)
      | Some (Ok st') => examples_loop fuel examples' st'
      end
  end.

Definition convert_examples_to_features (fuel : nat)
    (examples : list CoQAExample.t) : option (outcome (list ChunkFeature.t)) :=
  let unique_id := 1000000000 in
  let features := [] in
  match examples_loop fuel (enumerate examples) (features, unique_id) with
  | None => None
  | Some (Raise e) => Some (Raise e)
  | Some (Ok (features, _)) => Some (Ok features)
  end.

End Chunker.

(** ** The decoder: [make_predictions] *)

(** The two score arrays of shape [(2,)], as the source annotates them, are
    pairs; [p[0]] and [p[1]] are the components. *)
Module RawResult.
Record t (F : Type) : Type := mk {
  unique_id : Z;
  start_logits : list F;
  end_logits : list F;
  yes_no_flag_logits : F * F;
  yes_no_ans_logits : F * F
}.
Arguments mk {F}.
Arguments unique_id {F}.
Arguments start_logits {F}.
Arguments end_logits {F}.
Arguments yes_no_flag_logits {F}.
Arguments yes_no_ans_logits {F}.
End RawResult.

(** [text] is [None] for a span candidate, as in the source. *)
Module PrelimPrediction.
Record t (F : Type) : Type := mk {
  feature_index : Z;
  start_index : Z;
  end_index : Z;
  text : option string;
  logit : F
}.
Arguments mk {F}.
Arguments feature_index {F}.
Arguments start_index {F}.
Arguments end_index {F}.
Arguments text {F}.
Arguments logit {F}.
End PrelimPrediction.

(** The text of a kept entry is the [final_text] of the loop, which for a
    yes/no candidate is the candidate's [text] attribute. *)
Module NbestPrediction.
Record t (F : Type) : Type := mk { text : option string; logit : F }.
Arguments mk {F}.
Arguments text {F}.
Arguments logit {F}.
End NbestPrediction.

(** One [output] dictionary of [nbest_json], with its three keys. *)
Module NbestOutput.
Record t (F : Type) : Type :=
  mk { text : option string; probability : F; logit : F }.
Arguments mk {F}.
Arguments text {F}.
Arguments probability {F}.
Arguments logit {F}.
End NbestOutput.

(** [cur_prediction]: keys [id], [turn_id], [answer]. *)
Module Prediction.
Record t : Type := mk { id : string; turn_id : Z; answer : option string }.
End Prediction.

(** [cur_nbest_json]: keys [id], [turn_id], [answers]. *)
Module NbestJson.
Record t (F : Type) : Type :=
  mk { id : string; turn_id : Z; answers : list (NbestOutput.t F) }.
Arguments mk {F}.
Arguments id {F}.
Arguments turn_id {F}.
Arguments answers {F}.
End NbestJson.

(** What [make_predictions] returns: the dictionary [validate_predictions]
    when [validate_flag] is set, the pair of lists otherwise. *)
Inductive predictions (F : Type) : Type :=
  | ValidatePredictions (validate_predictions : gmap (string * Z) (option string))
  | AllPredictions (all_predictions : list Prediction.t)
      (all_nbest_json : list (NbestJson.t F)).
Arguments ValidatePredictions {F}.
Arguments AllPredictions {F}.

Section Decoder.
Context {F : Type} `{score : Score F} `{qa_util : QaUtil} `{softmax : Softmax F}.

(** [np.argmax] of a pair: the first index that holds the maximum. *)
Definition argmax (p : F * F) : Z := if score_ltb (fst p) (snd p) then 1 else 0.

(** [sorted(l, key=key, reverse=True)]: descending and stable. *)
Definition sorted_insert {A : Type} (key : A -> F) (x : A) : list A -> list A :=
  fix go (l : list A) : list A :=
    match l with
    | [] => [x]
    | y :: l' => if score_ltb (key x) (key y) then y :: go l' else x :: l
    end.
Definition sorted_reverse {A : Type} (key : A -> F) (l : list A) : list A :=
  foldr (sorted_insert key) [] l.

(** Modelled from the spec: [_get_best_indexes] of [data_helper.qa_util],
    which is not part of the file under study: the top [n_best_size]
    positions by raw score, highest score first, ties in position order. *)
Definition _get_best_indexes (logits : list F) (n_best_size : Z) : list Z :=
  take (Z.to_nat n_best_size) (map fst (sorted_reverse snd (enumerate logits))).

Variables (n_best_size max_answer_length : Z).
Variables (do_lower_case verbose_logging validate_flag : bool).

(** Lines 265-287, the body of [for end_index in end_indexes]. *)
Definition end_index_body (feature_index : Z) (feature : ChunkFeature.t)
    (result : RawResult.t F) (start_index : Z)
    (prelim_predictions : list (PrelimPrediction.t F)) (end_index : Z)
    : outcome (list (PrelimPrediction.t F)) :=
  if start_index >=? len (ChunkFeature.tokens feature) then Ok prelim_predictions
  else if end_index >=? len (ChunkFeature.tokens feature) then Ok prelim_predictions
  else if negb (bool_decide
                  (is_Some (ChunkFeature.token_to_orig_map feature !! start_index)))
  then Ok prelim_predictions
  else if negb (bool_decide
                  (is_Some (ChunkFeature.token_to_orig_map feature !! end_index)))
  then Ok prelim_predictions
  else if negb (default false
                  (ChunkFeature.token_is_max_context feature !! start_index))
  then Ok prelim_predictions
  else if end_index <? start_index then Ok prelim_predictions
  else
    let length := end_index - start_index + 1 in
    if length >? max_answer_length then Ok prelim_predictions
    else
      start_logit ← py_index (RawResult.start_logits result) start_index;
      end_logit ← py_index (RawResult.end_logits result) end_index;
      Ok (prelim_predictions ++
          [PrelimPrediction.mk feature_index start_index end_index None
             (score_add
                (score_add (fst (RawResult.yes_no_flag_logits result)) start_logit)
                end_logit)]).

(** Lines 236-287, the body of [for (feature_index, feature) in
    enumerate(features)], after the lookup of [result]. *)
Definition feature_body (feature_index : Z) (feature : ChunkFeature.t)
    (result : RawResult.t F) (prelim_predictions : list (PrelimPrediction.t F))
    : outcome (list (PrelimPrediction.t F)) :=
  let yes_no_flag_logits := RawResult.yes_no_flag_logits result in
  let yes_no_ans_logits := RawResult.yes_no_ans_logits result in
  if argmax yes_no_flag_logits =? 1 then
    let '(text, logit) :=
      if argmax yes_no_ans_logits =? 1
      then ("yes"%string,
            score_add (snd yes_no_flag_logits) (snd yes_no_ans_logits))
      else ("no"%string,
            score_add (snd yes_no_flag_logits) (fst yes_no_ans_logits)) in
    Ok (prelim_predictions ++
        [PrelimPrediction.mk feature_index (-1) (-1) (Some text) logit])
  else
    let start_indexes := _get_best_indexes (RawResult.start_logits result) n_best_size in
    let end_indexes := _get_best_indexes (RawResult.end_logits result) n_best_size in
    for_each start_indexes
      (fun prelim_predictions start_index =>
         for_each end_indexes
           (end_index_body feature_index feature result start_index)
           prelim_predictions)
      prelim_predictions.

(** [d[k]] on a dictionary. *)
Definition dict_get {K : Type} `{Countable K} {V : Type} (d : gmap K V) (k : K)
    : outcome V :=
  match d !! k with
  | Some v => Ok v
  | None => Raise KeyError
  end.

(** Lines 234-287: the candidates of one example, before sorting. *)
Definition collect_prelim_predictions (unique_id_to_result : gmap Z (RawResult.t F))
    (features : list ChunkFeature.t) : outcome (list (PrelimPrediction.t F)) :=
  for_each (enumerate features)
    (fun prelim_predictions '(feature_index, feature) =>
       result ← dict_get unique_id_to_result (ChunkFeature.unique_id feature);
       feature_body feature_index feature result prelim_predictions)
    [].

(** Lines 305-325: the text a candidate stands for. *)
Definition final_text_of (example : CoQAExample.t) (features : list ChunkFeature.t)
    (pred : PrelimPrediction.t F) : outcome (option string) :=
  feature ← py_index features (PrelimPrediction.feature_index pred);
  if (PrelimPrediction.start_index pred =? -1)
     || (PrelimPrediction.end_index pred =? -1)
  then Ok (PrelimPrediction.text pred)
  else
    let tok_tokens :=
      slice (ChunkFeature.tokens feature) (PrelimPrediction.start_index pred)
        (PrelimPrediction.end_index pred + 1) in
    orig_doc_start ← dict_get (ChunkFeature.token_to_orig_map feature)
                       (PrelimPrediction.start_index pred);
    orig_doc_end ← dict_get (ChunkFeature.token_to_orig_map feature)
                     (PrelimPrediction.end_index pred);
    let orig_tokens :=
      slice (CoQAExample.doc_tokens example) orig_doc_start (orig_doc_end + 1) in
    let tok_text := join " " tok_tokens in
    let tok_text := replace " ##" "" tok_text in
    let tok_text := replace "##" "" tok_text in
    let tok_text := strip tok_text in
    let tok_text := join " " (split tok_text) in
    let orig_text := join " " orig_tokens in
    Ok (Some (get_final_text tok_text orig_text do_lower_case verbose_logging)).

(** Lines 300-338, the loop [for pred in prelim_predictions] with its two
    [break]s and its [continue]. *)
Fixpoint nbest_loop (example : CoQAExample.t) (features : list ChunkFeature.t)
    (prelim_predictions : list (PrelimPrediction.t F))
    (seen_predictions : gmap (option string) bool)
    (nbest : list (NbestPrediction.t F)) : outcome (list (NbestPrediction.t F)) :=
  match prelim_predictions with
  | [] => Ok nbest
  | pred :: prelim_predictions' =>
      if len nbest >=? n_best_size then Ok nbest
      else
        final_text ← final_text_of example features pred;
        if bool_decide (is_Some (seen_predictions !! final_text))
        then nbest_loop example features prelim_predictions' seen_predictions nbest
        else
          let seen_predictions := <[final_text := true]> seen_predictions in
          let nbest :=
            nbest ++ [NbestPrediction.mk final_text (PrelimPrediction.logit pred)] in
          if validate_flag then Ok nbest
          else nbest_loop example features prelim_predictions' seen_predictions nbest
  end.

(** Lines 232-346: the ranked entries of one example. *)
Definition example_nbest (unique_id_to_result : gmap Z (RawResult.t F))
    (example : CoQAExample.t) (features : list ChunkFeature.t)
    : outcome (list (NbestPrediction.t F)) :=
  prelim_predictions ← collect_prelim_predictions unique_id_to_result features;
  let prelim_predictions :=
    sorted_reverse PrelimPrediction.logit prelim_predictions in
  nbest ← nbest_loop example features prelim_predictions ∅ [];
  let nbest :=
    match nbest with
    | [] => nbest ++ [NbestPrediction.mk (Some "empty"%string) score_zero]
    | _ :: _ => nbest
    end in
  _ ← assert (len nbest >=? 1);
  Ok nbest.

(** Lines 351-366. *)
Definition nbest_json_of (nbest : list (NbestPrediction.t F))
    : outcome (list (NbestOutput.t F)) :=
  let total_scores :=
    fold_left (fun total_scores entry => total_scores ++ [NbestPrediction.logit entry])
      nbest [] in
  let probs := _compute_softmax total_scores in
  for_each (enumerate nbest)
    (fun nbest_json '(i, entry) =>
       prob ← py_index probs i;
       Ok (nbest_json ++
           [NbestOutput.mk (NbestPrediction.text entry) prob
              (NbestPrediction.logit entry)]))
    [].

(** Lines 216-218: [example_index_to_features], a [defaultdict(list)]. *)
Definition group_features (all_features : list ChunkFeature.t)
    : gmap Z (list ChunkFeature.t) :=
  fold_left
    (fun example_index_to_features feature =>
       let k := ChunkFeature.example_index feature in
       <[k := default [] (example_index_to_features !! k) ++ [feature]]>
         example_index_to_features)
    all_features ∅.

(** Lines 220-222. *)
Definition index_results (all_results : list (RawResult.t F))
    : gmap Z (RawResult.t F) :=
  fold_left
    (fun unique_id_to_result result =>
       <[RawResult.unique_id result := result]> unique_id_to_result)
    all_results ∅.

(** Lines 231-382, the body of the loop over the examples; the state is
    [(validate_predictions, all_predictions, all_nbest_json)]. *)
Definition prediction_body
    (example_index_to_features : gmap Z (list ChunkFeature.t))
    (unique_id_to_result : gmap Z (RawResult.t F))
    (st : gmap (string * Z) (option string) * list Prediction.t
          * list (NbestJson.t F))
    (it : Z * CoQAExample.t)
    : outcome (gmap (string * Z) (option string) * list Prediction.t
              * list (NbestJson.t F)) :=
  let '(validate_predictions, all_predictions, all_nbest_json) := st in
  let '(example_index, example) := it in
  let features := default [] (example_index_to_features !! example_index) in
  nbest ← example_nbest unique_id_to_result example features;
  if validate_flag then
    first ← py_index nbest 0;
    Ok (<[(CoQAExample.paragraph_id example, CoQAExample.turn_id example)
          := NbestPrediction.text first]> validate_predictions,
        all_predictions, all_nbest_json)
  else
    nbest_json ← nbest_json_of nbest;
    _ ← assert (len nbest_json >=? 1);
    best ← py_index nbest_json 0;
    let cur_prediction :=
      Prediction.mk (CoQAExample.paragraph_id example)
        (CoQAExample.turn_id example) (NbestOutput.text best) in
    let cur_nbest_json :=
      NbestJson.mk (CoQAExample.paragraph_id example)
        (CoQAExample.turn_id example) nbest_json in
    Ok (validate_predictions, all_predictions ++ [cur_prediction],
        all_nbest_json ++ [cur_nbest_json]).

Definition make_predictions (all_examples : list CoQAExample.t)
    (all_features : list ChunkFeature.t) (all_results : list (RawResult.t F))
    : outcome (predictions F) :=
  let example_index_to_features := group_features all_features in
  let unique_id_to_result := index_results all_results in
  '(validate_predictions, all_predictions, all_nbest_json) ←
    for_each (enumerate all_examples)
      (prediction_body example_index_to_features unique_id_to_result)
      (∅, [], []);
  if validate_flag then Ok (ValidatePredictions validate_predictions)
  else Ok (AllPredictions all_predictions all_nbest_json).

End Decoder.

(** ** What the specification says, for comparison *)

(** The ceiling of [a / b], for a positive [b]. *)
Definition ceil_div (a b : Z) : Z := (a + b - 1) / b.

(** The number of windows the specification announces for a document of [L]
    subword tokens, a budget [B] and a stride [D]. *)
Definition spec_window_count (L B D : Z) : Z :=
  if L >? B then ceil_div (L - B) D + 1 else 1.

(** The number of windows the loop makes when [B] and [D] are positive. *)
Definition window_count (L B D : Z) : Z :=
  if L <=? 0 then 0
  else if L >? B then ceil_div (L - B) (Z.min B D) + 1
  else 1.

(** ** Sample collaborators, to run the functions on concrete inputs *)

Module Sample.

(** A tokenizer that splits a word into its characters and numbers a token
    by the code of its first character. *)
Definition chars (s : string) : list string :=
  map (fun c => String c EmptyString) (list_ascii_of_string s).
Definition token_id (t : string) : Z :=
  match t with
  | String c _ => Z.of_N (Ascii.N_of_ascii c)
  | EmptyString => 0
  end.
Definition char_tokenizer : Tokenizer :=
  {| tokenize := chars; convert_tokens_to_ids := map token_id |}.

(** Modelled from the spec: the MaxContextChecker contract.  Among the
    windows that contain [position], the owner maximizes the smaller of the
    two distances to the window's edges, then the window length; the first
    such window wins. *)
Definition max_context_owner (doc_spans : list DocSpan.t) (position : Z)
    : option (Z * (Z * Z)) :=
  fold_left
    (fun best '(span_index, doc_span) =>
       let last := DocSpan.start doc_span + DocSpan.length doc_span - 1 in
       if (position <? DocSpan.start doc_span) || (position >? last) then best
       else
         let score :=
           (Z.min (position - DocSpan.start doc_span) (last - position),
            DocSpan.length doc_span) in
         match best with
         | None => Some (span_index, score)
         | Some (_, (m, l)) =>
             if (m <? fst score) || ((m =? fst score) && (l <? snd score))
             then Some (span_index, score) else best
         end)
    (enumerate doc_spans) None.

Definition qa_util : QaUtil :=
  {| _improve_answer_span := fun _ input_start input_end _ _ =>
       (input_start, input_end);
     _check_is_max_context := fun doc_spans cur_span_index position =>
       match max_context_owner doc_spans position with
       | Some (best_span_index, _) => cur_span_index =? best_span_index
       | None => false
       end;
     get_final_text := fun tok_text orig_text _ _ => orig_text |}.

(** Scores as exact rationals in lowest terms. *)
Definition q_score : Score Q :=
  {| score_add := fun a b => Qred (Qplus a b);
     score_ltb := fun a b => negb (Qle_bool b a);
     score_zero := 0%Q |}.


(** A stand-in for the softmax: one probability per score. *)
Definition q_softmax : Softmax Q :=
  {| _compute_softmax := fun scores =>
       map (fun _ => Qred (1 / inject_Z (len scores))%Q) scores |}.

End Sample.

(** ** The shape of a run of the sliding window *)

(** [window_chain L B D s ws]: [ws] are the windows a run makes from the
    start offset [s] on: each of length [min B (L - s)], the run ending with
    the window that reaches [L], and otherwise moving on by the smaller of
    the window length and [D]. *)
Inductive window_chain (L B D : Z) : Z -> list DocSpan.t -> Prop :=
  | chain_exit s :
      ~ s < L ->
      window_chain L B D s []
  | chain_break s :
      s < L ->
      s + Z.min B (L - s) = L ->
      window_chain L B D s [DocSpan.mk s (Z.min B (L - s))]
  | chain_next s ws :
      s < L ->
      s + Z.min B (L - s) <> L ->
      window_chain L B D (s + Z.min (Z.min B (L - s)) D) ws ->
      window_chain L B D s (DocSpan.mk s (Z.min B (L - s)) :: ws).

(** ** Sample inputs *)

Module SampleInput.

(** One question, and a document of two words that the sample tokenizer
    splits into four subword tokens.  The gold answer is the second word. *)
Definition example : CoQAExample.t :=
  CoQAExample.mk ["q"%string] ["ab"%string; "cd"%string] "cd"%string
    1 1 0 0 "p1"%string 1.

(** A conversation of two turns. *)
Definition two_turns : CoQAExample.t :=
  CoQAExample.mk ["ab"%string; "cde"%string] ["ab"%string; "cd"%string]
    "cd"%string 1 1 0 0 "p1"%string 2.

(** A document of one word of five characters. *)
Definition long_word : CoQAExample.t :=
  CoQAExample.mk ["q"%string] ["abcde"%string] "abcde"%string
    0 0 0 0 "p2"%string 1.

(** The chunk of [example] over the subword tokens a, b. *)
Definition chunk : ChunkFeature.t :=
  ChunkFeature.mk 1000000000 0 0
    ["[CLS]"; "q"; "[SEP]"; "a"; "b"; "[SEP]"]%string
    (<[3 := 0]> (<[4 := 0]> ∅)) (<[3 := true]> (<[4 := true]> ∅))
    [91; 113; 91; 97; 98; 91] [1; 1; 1; 1; 1; 1] [0; 0; 0; 1; 1; 1]
    None None None None.

(** Scores that make [chunk] a span chunk: the best start is position 3, the
    best end position 4. *)
Definition span_result : RawResult.t Q :=
  RawResult.mk 1000000000
    [0; 0; 0; 2; 1; 0]%Q [0; 0; 0; 1; 3; 0]%Q (0.9, 0.1)%Q (0.2, 0.8)%Q.

(** The scores of the yes/no scenario of the specification. *)
Definition yes_no_result : RawResult.t Q :=
  RawResult.mk 1000000000
    [0; 0; 0; 2; 1; 0]%Q [0; 0; 0; 1; 3; 0]%Q (0.1, 0.9)%Q (0.2, 0.8)%Q.


(** A second example, with another key and no chunk. *)
Definition other_example : CoQAExample.t :=
  CoQAExample.mk ["r"%string] ["ef"%string] "ef"%string 0 0 0 0 "p1"%string 2.

End SampleInput.

(** ** Names for two quantities of an example *)

(** [all_doc_tokens]: the document of an example in subword tokens. *)
Definition all_doc_tokens_of `{tokenizer : Tokenizer} (example : CoQAExample.t)
    : list string :=
  snd (tokenize_doc (CoQAExample.doc_tokens example)).

(** [max_tokens_for_doc]: the document budget of an example. *)
Definition max_tokens_for_doc_of `{tokenizer : Tokenizer}
    (max_seq_length max_query_length : Z) (append_history : bool)
    (example : CoQAExample.t) : Z :=
  max_seq_length - len (query_tokens_of max_query_length append_history example) - 3.

(** The lengths the three assertions of the chunker check. *)
Definition padded (max_seq_length : Z) (feature : ChunkFeature.t) : Prop :=
  len (ChunkFeature.input_ids feature) = max_seq_length /\
  len (ChunkFeature.input_mask feature) = max_seq_length /\
  len (ChunkFeature.segment_ids feature) = max_seq_length.

(** ** The conditions of a span candidate, in the words of the specification *)

(** A pair of a start and an end index is kept when both lie within the
    chunk's tokens, both map to a document token, the chunk is the
    maximum-context owner of the start, the end is not before the start, and
    the span is at most [max_answer_length] long. *)
Definition valid_span (feature : ChunkFeature.t) (max_answer_length : Z)
    (start_index end_index : Z) : Prop :=
  start_index < len (ChunkFeature.tokens feature) /\
  end_index < len (ChunkFeature.tokens feature) /\
  is_Some (ChunkFeature.token_to_orig_map feature !! start_index) /\
  is_Some (ChunkFeature.token_to_orig_map feature !! end_index) /\
  ChunkFeature.token_is_max_context feature !! start_index = Some true /\
  end_index >= start_index /\
  end_index - start_index + 1 <= max_answer_length.

(** A candidate that [nbest_loop] can turn into text: it names a feature of
    the example, and unless it carries a sentinel index its two indexes are
    keys of that feature's [token_to_orig_map]. *)
Definition well_formed_pred {F : Type} (features : list ChunkFeature.t)
    (pred : PrelimPrediction.t F) : Prop :=
  0 <= PrelimPrediction.feature_index pred /\
  exists feature,
    features !! Z.to_nat (PrelimPrediction.feature_index pred) = Some feature /\
    (PrelimPrediction.start_index pred = -1 \/
     PrelimPrediction.end_index pred = -1 \/
     (is_Some (ChunkFeature.token_to_orig_map feature
               !! PrelimPrediction.start_index pred) /\
      is_Some (ChunkFeature.token_to_orig_map feature
               !! PrelimPrediction.end_index pred))).

(** The texts of a list of kept entries. *)
Definition texts {F : Type} (nbest : list (NbestPrediction.t F))
    : list (option string) :=
  map NbestPrediction.text nbest.

(** The key of an example in [validate_predictions]. *)
Definition example_key (example : CoQAExample.t) : string * Z :=
  (CoQAExample.paragraph_id example, CoQAExample.turn_id example).

(** ** Where a feature comes from *)

(** [built_from ... fuel example_index example feature]: the feature is what
    the body of the loop over the windows makes of one window of the
    example. *)
Definition built_from `{tokenizer : Tokenizer} `{qa_util : QaUtil}
    (max_seq_length doc_stride max_query_length : Z)
    (is_training append_history : bool) (fuel : nat) (example_index : Z)
    (example : CoQAExample.t) (feature : ChunkFeature.t) : Prop :=
  let query_tokens := query_tokens_of max_query_length append_history example in
  let '(tok_to_orig_index, orig_to_tok_index, all_doc_tokens) :=
    tokenize_doc (CoQAExample.doc_tokens example) in
  exists tok_position doc_spans unique_id doc_span_index doc_span,
    tok_positions is_training example orig_to_tok_index all_doc_tokens
    = Ok tok_position /\
    sliding_windows fuel (len all_doc_tokens)
      (max_seq_length - len query_tokens - 3) doc_stride = Some doc_spans /\
    0 <= doc_span_index /\
    doc_spans !! Z.to_nat doc_span_index = Some doc_span /\
    doc_span_feature max_seq_length example_index example query_tokens
      tok_to_orig_index all_doc_tokens tok_position doc_spans unique_id
      doc_span_index doc_span = Ok (Some feature).

(** The number of windows of all the examples of a run, for a positive
    budget and a positive stride. *)
Definition total_window_count `{tokenizer : Tokenizer}
    (max_seq_length doc_stride max_query_length : Z) (append_history : bool)
    (examples : list CoQAExample.t) : Z :=
  foldr Z.add 0
    (map (fun example =>
            window_count (len (all_doc_tokens_of example))
              (max_tokens_for_doc_of max_seq_length max_query_length
                 append_history example)
              doc_stride)
       examples).

(** * Properties *)

(** ** Python primitives *)

(** Goals about lengths: unfold [len] and leave the rest to [lia]. *)
Ltac len_lia :=
  unfold len in *;
  repeat match goal with
         | H : context [length (_ ++ _)] |- _ => rewrite length_app in H
         | H : context [length (repeat _ _)] |- _ => rewrite repeat_length in H
         | |- context [length (_ ++ _)] => rewrite length_app
         | |- context [length (repeat _ _)] => rewrite repeat_length
         end;
  simpl length in *; lia.

Lemma len_nonneg {A : Type} (l : list A) : 0 <= len l.
Proof. unfold len. lia. Qed.

Lemma len_app {A : Type} (l k : list A) : len (l ++ k) = len l + len k.
Proof. unfold len. rewrite length_app. lia. Qed.

Lemma len_nil {A : Type} : len (@nil A) = 0.
Proof. reflexivity. Qed.

Lemma len_cons {A : Type} (x : A) (l : list A) : len (x :: l) = len l + 1.
Proof. unfold len. simpl length. lia. Qed.

Lemma len_repeat {A : Type} (x : A) (k : nat) : len (repeat x k) = Z.of_nat k.
Proof. unfold len. by rewrite repeat_length. Qed.

Lemma py_index_Ok {A : Type} (l : list A) (i : Z) (x : A) :
  py_index l i = Ok x ->
  -len l <= i < len l /\
  l !! Z.to_nat (if i <? 0 then i + len l else i) = Some x.
Proof.
  unfold py_index. intros Hi.
  destruct (0 <=? (if i <? 0 then i + len l else i)) eqn:H0; simpl in Hi;
    [|discriminate].
  destruct ((if i <? 0 then i + len l else i) <? len l) eqn:H1; simpl in Hi;
    [|discriminate].
  destruct (l !! Z.to_nat (if i <? 0 then i + len l else i)) eqn:Hl;
    [|discriminate].
  inversion Hi; subst. split; [|reflexivity].
  destruct (i <? 0) eqn:Hneg; lia.
Qed.

Lemma py_index_in_range {A : Type} (l : list A) (i : Z) :
  0 <= i < len l -> exists x, py_index l i = Ok x /\ l !! Z.to_nat i = Some x.
Proof.
  intros Hi. unfold py_index.
  replace (i <? 0) with false by lia.
  replace (0 <=? i) with true by lia.
  replace (i <? len l) with true by lia. simpl.
  destruct (lookup_lt_is_Some_2 l (Z.to_nat i)) as [x Hx].
  { unfold len in Hi. lia. }
  rewrite Hx. eauto.
Qed.

(** ** The sliding window *)

Lemma ceil_div_spec (a b : Z) :
  0 < b -> b * (ceil_div a b - 1) < a <= b * ceil_div a b.
Proof.
  intros Hb. unfold ceil_div.
  pose proof (Z.div_mod (a + b - 1) b ltac:(lia)) as Hdm.
  pose proof (Z.mod_pos_bound (a + b - 1) b Hb) as Hm.
  nia.
Qed.

Lemma ceil_div_small (a b : Z) : 0 < a <= b -> ceil_div a b = 1.
Proof.
  intros H. unfold ceil_div.
  symmetry. apply (Z.div_unique_pos _ _ 1 (a - 1)); lia.
Qed.

Lemma ceil_div_step (a b : Z) : 0 < b -> ceil_div a b = ceil_div (a - b) b + 1.
Proof.
  intros Hb. unfold ceil_div.
  replace (a + b - 1) with (a - b + b - 1 + 1 * b) by lia.
  rewrite Z.div_add by lia. reflexivity.
Qed.

(** The list accumulated so far only ever grows at its end. *)
Lemma doc_spans_loop_acc (fuel : nat) (L B D s : Z) (acc : list DocSpan.t) :
  doc_spans_loop fuel L B D s acc
  = (fun ws => acc ++ ws) <$> doc_spans_loop fuel L B D s [].
Proof.
  revert s acc. induction fuel as [|fuel IH]; intros s acc; [reflexivity|].
  simpl. destruct (s <? L); [|simpl; by rewrite app_nil_r].
  set (w := DocSpan.mk s _).
  destruct (s + _ =? L); [reflexivity|].
  rewrite (IH _ (acc ++ [w])), (IH _ [w]).
  destruct (doc_spans_loop fuel L B D _ []) as [ws|]; simpl; [|reflexivity].
  by rewrite <- app_assoc.
Qed.

Lemma window_length_min (L B s : Z) :
  (if L - s >? B then B else L - s) = Z.min B (L - s).
Proof. destruct (L - s >? B) eqn:H; lia. Qed.

(** Every finished run has the shape [window_chain] describes. *)
Lemma doc_spans_loop_chain (fuel : nat) (L B D s : Z) (ws : list DocSpan.t) :
  doc_spans_loop fuel L B D s [] = Some ws -> window_chain L B D s ws.
Proof.
  revert s ws. induction fuel as [|fuel IH]; intros s ws; [discriminate|].
  simpl. rewrite window_length_min.
  destruct (s <? L) eqn:Hs.
  - destruct (s + Z.min B (L - s) =? L) eqn:Hend.
    + intros [= <-]. apply chain_break; lia.
    + rewrite doc_spans_loop_acc.
      destruct (doc_spans_loop fuel L B D _ []) as [ws'|] eqn:Hrec; [|discriminate].
      intros [= <-]. apply chain_next; [lia..|]. by apply IH.
  - intros [= <-]. apply chain_exit. lia.
Qed.

Lemma window_chain_head (L B D s : Z) (ws : list DocSpan.t) (w : DocSpan.t) :
  window_chain L B D s ws -> ws !! 0%nat = Some w -> DocSpan.start w = s.
Proof. intros Hc. destruct Hc; simpl; intros [= <-]; reflexivity. Qed.

Lemma window_chain_lookup (L B D s : Z) (ws : list DocSpan.t) (i : nat)
    (w : DocSpan.t) :
  window_chain L B D s ws -> ws !! i = Some w ->
  DocSpan.start w < L /\ DocSpan.length w = Z.min B (L - DocSpan.start w).
Proof.
  intros Hc. revert i. induction Hc as [s Hs|s Hs He|s ws Hs He Hc IH]; intros i.
  - intros [=].
  - destruct i; [|intros [=]]. intros [= <-]. simpl. lia.
  - destruct i as [|i]; [intros [= <-]; simpl; lia|]. simpl. apply IH.
Qed.

Lemma window_chain_adjacent (L B D s : Z) (ws : list DocSpan.t) (i : nat)
    (w w' : DocSpan.t) :
  window_chain L B D s ws -> ws !! i = Some w -> ws !! S i = Some w' ->
  DocSpan.start w + DocSpan.length w <> L /\
  DocSpan.start w' = DocSpan.start w + Z.min (DocSpan.length w) D.
Proof.
  intros Hc. revert i. induction Hc as [s Hs|s Hs He|s ws Hs He Hc IH]; intros i.
  - intros [=].
  - destruct i; intros _ [=].
  - destruct i as [|i].
    + intros [= <-] Hw'. simpl. split; [lia|].
      apply (window_chain_head _ _ _ _ _ _ Hc Hw').
    + simpl. apply IH.
Qed.

Lemma window_chain_last (L B D s : Z) (ws : list DocSpan.t) (w : DocSpan.t) :
  window_chain L B D s ws -> last ws = Some w ->
  DocSpan.start w + DocSpan.length w = L.
Proof.
  intros Hc. induction Hc as [s Hs|s Hs He|s ws Hs He Hc IH].
  - intros [=].
  - intros [= <-]. simpl. lia.
  - destruct ws as [|w' ws].
    + inversion Hc; subst. lia.
    + rewrite last_cons_cons. apply IH.
Qed.

(** The number of windows a run makes from the start offset [s] on, when it
    has the fuel for them. *)
Lemma doc_spans_loop_count (fuel : nat) (L B D s : Z) :
  0 < B -> 0 < D -> s < L ->
  (if L - s >? B then ceil_div (L - s - B) (Z.min B D) + 1 else 1)
    <= Z.of_nat fuel ->
  exists ws,
    doc_spans_loop fuel L B D s [] = Some ws /\
    len ws = if L - s >? B then ceil_div (L - s - B) (Z.min B D) + 1 else 1.
Proof.
  intros HB HD. revert s.
  induction fuel as [|fuel IH]; intros s Hs Hfuel.
  { destruct (L - s >? B) eqn:Hgt; [|lia].
    pose proof (ceil_div_spec (L - s - B) (Z.min B D) ltac:(lia)). nia. }
  simpl. rewrite window_length_min.
  replace (s <? L) with true by lia.
  destruct (L - s >? B) eqn:Hgt.
  - replace (Z.min B (L - s)) with B by lia.
    replace (s + B =? L) with false by lia.
    rewrite doc_spans_loop_acc.
    assert (Hstep : ceil_div (L - s - B) (Z.min B D)
                    = (if L - (s + Z.min B D) >? B
                       then ceil_div (L - (s + Z.min B D) - B) (Z.min B D) + 1
                       else 1)).
    { destruct (L - (s + Z.min B D) >? B) eqn:Hgt'.
      - rewrite (ceil_div_step (L - s - B)) by lia. do 2 f_equal. lia.
      - apply ceil_div_small. lia. }
    destruct (IH (s + Z.min B D)) as (ws & Hws & Hlen); [lia|lia|].
    rewrite Hws. simpl. eexists; split; [reflexivity|].
    rewrite len_cons, Hlen, Hstep. reflexivity.
  - replace (Z.min B (L - s)) with (L - s) by lia.
    replace (s + (L - s) =? L) with true by lia.
    eexists; split; reflexivity.
Qed.

(** A run that starts at or before offset 0 with fewer budget than document
    and a step that is not positive never leaves the loop. *)
Lemma doc_spans_loop_diverges (fuel : nat) (L B D s : Z) (acc : list DocSpan.t) :
  1 <= L -> B < L -> Z.min B D <= 0 -> s <= 0 ->
  doc_spans_loop fuel L B D s acc = None.
Proof.
  intros HL HB Hstep. revert s acc.
  induction fuel as [|fuel IH]; intros s acc Hs; [reflexivity|].
  simpl. rewrite window_length_min.
  replace (s <? L) with true by lia.
  replace (Z.min B (L - s)) with B by lia.
  replace (s + B =? L) with false by lia.
  apply IH. lia.
Qed.

Lemma sliding_windows_empty (fuel : nat) (L B D : Z) :
  L <= 0 -> sliding_windows (S fuel) L B D = Some [].
Proof.
  intros HL. unfold sliding_windows. simpl.
  replace (0 <? L) with false by lia. reflexivity.
Qed.

Lemma sliding_windows_single (fuel : nat) (L B D : Z) :
  0 < L <= B -> sliding_windows (S fuel) L B D = Some [DocSpan.mk 0 L].
Proof.
  intros HL. unfold sliding_windows. simpl. rewrite window_length_min.
  replace (0 <? L) with true by lia.
  replace (Z.min B (L - 0)) with L by lia.
  replace (0 + L =? L) with true by lia. reflexivity.
Qed.

(** More fuel does not change the outcome of a finished run. *)
Lemma doc_spans_loop_mono (fuel fuel' : nat) (L B D s : Z)
    (acc ws : list DocSpan.t) :
  (fuel <= fuel')%nat ->
  doc_spans_loop fuel L B D s acc = Some ws ->
  doc_spans_loop fuel' L B D s acc = Some ws.
Proof.
  revert fuel' s acc. induction fuel as [|fuel IH]; intros fuel' s acc Hle;
    [discriminate|].
  destruct fuel' as [|fuel']; [lia|]. simpl.
  destruct (s <? L); [|done].
  destruct (s + _ =? L); [done|].
  apply IH. lia.
Qed.

(** With enough fuel the loop ends when the document is empty, fits the
    budget, or both the budget and the stride are positive. *)
Lemma sliding_windows_terminates (L B D : Z) :
  L <= 0 \/ L <= B \/ (1 <= B /\ 1 <= D) ->
  exists (n : nat) (ws : list DocSpan.t),
    forall fuel, (n <= fuel)%nat -> sliding_windows fuel L B D = Some ws.
Proof.
  intros H.
  destruct (Z_le_gt_dec L 0) as [HL|HL].
  { exists 1%nat, []. intros [|fuel] Hf; [lia|]. by apply sliding_windows_empty. }
  destruct (Z_le_gt_dec L B) as [HLB|HLB].
  { exists 1%nat, [DocSpan.mk 0 L]. intros [|fuel] Hf; [lia|].
    apply sliding_windows_single. lia. }
  destruct H as [?|[?|[HB HD]]]; [lia..|].
  set (c := ceil_div (L - 0 - B) (Z.min B D) + 1).
  assert (Hc : 0 <= c).
  { pose proof (ceil_div_spec (L - 0 - B) (Z.min B D) ltac:(lia)). nia. }
  destruct (doc_spans_loop_count (Z.to_nat c) L B D 0) as (ws & Hws & _);
    [lia..| |].
  { replace (L - 0 >? B) with true by lia. fold c. lia. }
  exists (Z.to_nat c), ws. intros fuel Hf.
  by apply (doc_spans_loop_mono (Z.to_nat c)).
Qed.

(** ** The claims about the sliding window *)

(** C3: window generation starts at offset 0; every window has length
    [min(B, L - start)]; a window that is followed by another one does not
    reach the end of the document, and the next one starts [min(length,
    stride)] further; the last window reaches the end.  For 8 subword tokens,
    budget 4 and stride 2 the windows are (0,4), (2,4), (4,4). *)
Theorem sliding_window_generation :
  (forall (fuel : nat) (L B D : Z) (ws : list DocSpan.t),
      sliding_windows fuel L B D = Some ws ->
      (forall w, ws !! 0%nat = Some w -> DocSpan.start w = 0) /\
      (forall i w, ws !! i = Some w ->
         DocSpan.length w = Z.min B (L - DocSpan.start w)) /\
      (forall i w w', ws !! i = Some w -> ws !! S i = Some w' ->
         DocSpan.start w + DocSpan.length w <> L /\
         DocSpan.start w' = DocSpan.start w + Z.min (DocSpan.length w) D) /\
      (forall w, last ws = Some w -> DocSpan.start w + DocSpan.length w = L)) /\
  (forall fuel : nat, (3 <= fuel)%nat ->
      sliding_windows fuel 8 4 2
      = Some [DocSpan.mk 0 4; DocSpan.mk 2 4; DocSpan.mk 4 4]).
Proof.
  split.
  - intros fuel L B D ws Hrun.
    apply doc_spans_loop_chain in Hrun.
    split; [|split; [|split]].
    + intros w. apply (window_chain_head _ _ _ _ _ _ Hrun).
    + intros i w Hw. apply (window_chain_lookup _ _ _ _ _ _ _ Hrun Hw).
    + intros i w w' Hw Hw'.
      apply (window_chain_adjacent _ _ _ _ _ _ _ _ Hrun Hw Hw').
    + intros w. apply (window_chain_last _ _ _ _ _ _ Hrun).
  - intros fuel Hf. apply (doc_spans_loop_mono 3); [done|reflexivity].
Qed.

Lemma sliding_window_generation_witness :
  sliding_windows 3 8 4 2 = Some [DocSpan.mk 0 4; DocSpan.mk 2 4; DocSpan.mk 4 4] /\
  DocSpan.start (DocSpan.mk 4 4) + DocSpan.length (DocSpan.mk 4 4) = 8.
Proof.
  split; [reflexivity|].
  apply (proj1 sliding_window_generation 3%nat 8 4 2
           [DocSpan.mk 0 4; DocSpan.mk 2 4; DocSpan.mk 4 4]); reflexivity.
Defined.

(** C2, as the code has it: for a positive budget [B] and a positive stride
    [D] the loop makes no window for an empty document, one window for a
    document of at most [B] subword tokens, and [ceil((L-B)/min(B,D)) + 1]
    windows for a longer one, which is the [ceil((L-B)/D) + 1] of the
    specification whenever [D <= B]; the last window of a document that is
    not empty ends at [L]. *)
Theorem sliding_window_count (L B D : Z) :
  0 < B -> 0 < D ->
  exists ws : list DocSpan.t,
    (forall fuel : nat, window_count L B D < Z.of_nat fuel ->
       sliding_windows fuel L B D = Some ws) /\
    len ws = window_count L B D /\
    (0 < L -> exists w, last ws = Some w /\
                        DocSpan.start w + DocSpan.length w = L) /\
    (0 < L -> D <= B -> window_count L B D = spec_window_count L B D).
Proof.
  intros HB HD. unfold window_count, spec_window_count.
  destruct (L <=? 0) eqn:HL.
  { exists []. repeat split; try lia.
    intros [|fuel] Hf; [lia|]. apply sliding_windows_empty. lia. }
  set (c := if L >? B then ceil_div (L - B) (Z.min B D) + 1 else 1).
  assert (Hc : 1 <= c).
  { subst c. destruct (L >? B) eqn:Hgt; [|lia].
    pose proof (ceil_div_spec (L - B) (Z.min B D) ltac:(lia)). nia. }
  destruct (doc_spans_loop_count (Z.to_nat c) L B D 0) as (ws & Hws & Hlen);
    [lia..| |].
  { replace (L - 0 - B) with (L - B) by lia.
    replace (L - 0) with L by lia. fold c. lia. }
  replace (L - 0 - B) with (L - B) in Hlen by lia.
  replace (L - 0) with L in Hlen by lia. fold c in Hlen.
  exists ws. split; [|split; [exact Hlen|split]].
  - intros fuel Hf. apply (doc_spans_loop_mono (Z.to_nat c)); [lia|exact Hws].
  - intros _. destruct (last ws) as [w|] eqn:Hlast.
    + exists w. split; [reflexivity|].
      apply doc_spans_loop_chain in Hws.
      apply (window_chain_last _ _ _ _ _ _ Hws Hlast).
    + apply last_None in Hlast. subst ws. rewrite len_nil in Hlen. lia.
  - intros _ HDB. subst c. replace (Z.min B D) with D by lia. reflexivity.
Qed.

Lemma sliding_window_count_witness :
  exists ws : list DocSpan.t,
    sliding_windows 4 8 4 2 = Some ws /\ len ws = 3.
Proof.
  destruct (sliding_window_count 8 4 2 ltac:(lia) ltac:(lia))
    as (ws & Hrun & Hlen & _).
  exists ws. split; [apply Hrun; vm_compute; reflexivity|exact Hlen].
Defined.

(** C2 as the specification words it fails twice: an empty document gets no
    window, not one; and with a stride above the budget the loop moves on by
    the budget, so it makes more windows than [ceil((L-B)/D) + 1]. *)
Lemma sliding_window_count_spec_fails :
  (sliding_windows 1 0 4 2 = Some [] /\
   len (@nil DocSpan.t) <> spec_window_count 0 4 2) /\
  (sliding_windows 5 10 2 5
   = Some [DocSpan.mk 0 2; DocSpan.mk 2 2; DocSpan.mk 4 2; DocSpan.mk 6 2;
           DocSpan.mk 8 2] /\
   5 <> spec_window_count 10 2 5).
Proof. repeat split; try reflexivity; vm_compute; discriminate. Qed.

(** ** The query tokens *)

Lemma fold_left_app_concat {A : Type} (ls : list (list A)) (acc : list A) :
  fold_left (fun flat l => flat ++ l) ls acc = acc ++ concat ls.
Proof.
  revert acc. induction ls as [|l ls IH]; intros acc; simpl.
  - by rewrite app_nil_r.
  - by rewrite IH, app_assoc.
Qed.

Section QueryTokens.
Context `{tokenizer : Tokenizer}.

(** With [append_history] the query is the first [max_query_length] tokens
    of the concatenation taken newest question first. *)
Lemma query_tokens_newest_first (max_query_length : Z) (example : CoQAExample.t) :
  0 <= max_query_length ->
  query_tokens_of max_query_length true example
  = take (Z.to_nat max_query_length)
      (concat (rev (map tokenize (CoQAExample.question_texts example)))).
Proof.
  intros Hq. unfold query_tokens_of, slice_to, slice_bound.
  rewrite fold_left_app_concat. simpl.
  set (flat := concat _).
  replace (max_query_length <? 0) with false by lia.
  destruct (Z_le_gt_dec (len flat) max_query_length) as [Hle|Hgt].
  - rewrite Z.min_l by lia. unfold len in *.
    rewrite !take_ge; [done|lia..].
  - rewrite Z.min_r by lia. done.
Qed.

(** Without it, and for a limit of at least one token, the query is the last
    [max_query_length] tokens of the concatenation taken oldest question
    first. *)
Lemma query_tokens_oldest_first (max_query_length : Z) (example : CoQAExample.t) :
  1 <= max_query_length ->
  let flat := concat (map tokenize (CoQAExample.question_texts example)) in
  query_tokens_of max_query_length false example
  = drop (length flat - Z.to_nat max_query_length) flat.
Proof.
  intros Hq flat. unfold query_tokens_of, slice_from, slice_bound.
  rewrite fold_left_app_concat. simpl. fold flat.
  replace (-1 * max_query_length <? 0) with true by lia.
  f_equal. unfold len. lia.
Qed.

(** In both modes the tokens of the current turn are kept when they are at
    most [max_query_length]: they are the head of the query with
    [append_history], its tail without. *)
Lemma query_tokens_keep_current (max_query_length : Z) (append_history : bool)
    (example : CoQAExample.t) (history : list string) (current : string) :
  CoQAExample.question_texts example = history ++ [current] ->
  len (tokenize current) <= max_query_length ->
  exists rest,
    query_tokens_of max_query_length append_history example
    = if append_history then tokenize current ++ rest
      else rest ++ tokenize current.
Proof.
  intros Hq Hlen. pose proof (len_nonneg (tokenize current)) as H0.
  destruct append_history.
  - rewrite query_tokens_newest_first by lia.
    rewrite Hq, map_app, rev_app_distr. simpl.
    rewrite take_app. 
    rewrite take_ge by (unfold len in *; lia). eauto.
  - destruct (Z.eq_dec max_query_length 0) as [->|Hne].
    + unfold query_tokens_of, slice_from, slice_bound.
      rewrite fold_left_app_concat. simpl.
      rewrite Z.min_r by apply len_nonneg. simpl.
      rewrite Hq, map_app, concat_app. simpl. rewrite app_nil_r. eauto.
    + rewrite query_tokens_oldest_first by lia.
      rewrite Hq, map_app, concat_app. simpl. rewrite app_nil_r.
      rewrite length_app.
      set (old := concat (map tokenize history)).
      exists (drop (length old + length (tokenize current)
                    - Z.to_nat max_query_length) old).
      rewrite drop_app. f_equal.
      replace (_ - _ - _)%nat with 0%nat by (unfold len in *; lia).
      done.
Qed.

End QueryTokens.

(** C4: without [append_history] the code takes
    [flat_all_query_tokens[-1*max_query_length:]]; for [max_query_length = 0]
    that slice is the whole list, not its last 0 tokens. *)
Theorem query_tokens_zero_limit :
  query_tokens_of (tokenizer := Sample.char_tokenizer) 0 false
    SampleInput.two_turns
  = ["a"; "b"; "c"; "d"; "e"]%string /\
  (let flat := concat (map (tokenize (Tokenizer := Sample.char_tokenizer))
                         (CoQAExample.question_texts SampleInput.two_turns)) in
   drop (length flat - Z.to_nat 0) flat = []).
Proof. split; reflexivity. Qed.

(** ** Loops that may raise *)

Lemma bind_Ok {A B : Type} (m : outcome A) (f : A -> outcome B) (b : B) :
  (m ≫= f) = Ok b -> exists a, m = Ok a /\ f a = Ok b.
Proof. destruct m as [a|e]; [eauto|discriminate]. Qed.

Lemma bind_Raise {A B : Type} (m : outcome A) (f : A -> outcome B) (e : exn) :
  (m ≫= f) = Raise e -> m = Raise e \/ exists a, m = Ok a /\ f a = Raise e.
Proof. destruct m as [a|e']; [eauto|]. intros [= ->]. by left. Qed.

(** A property that every pass keeps holds when the loop ends. *)
Lemma for_each_invariant {A St : Type} (I : St -> Prop) (l : list A)
    (body : St -> A -> outcome St) (st st' : St) :
  (forall s x s', x ∈ l -> I s -> body s x = Ok s' -> I s') ->
  I st -> for_each l body st = Ok st' -> I st'.
Proof.
  revert st. induction l as [|x l IH]; intros st Hbody Hst; simpl.
  - by intros [= <-].
  - intros (s & Hs & Hrun)%bind_Ok.
    apply (IH s); [|by eapply Hbody; [left|..]|done].
    intros ? y ? Hy. apply Hbody. by right.
Qed.

(** An exception that no pass raises is not raised by the loop. *)
Lemma for_each_not_raised {A St : Type} (e : exn) (l : list A)
    (body : St -> A -> outcome St) (st : St) :
  (forall s x, x ∈ l -> body s x <> Raise e) ->
  for_each l body st <> Raise e.
Proof.
  revert st. induction l as [|x l IH]; intros st Hbody; simpl; [done|].
  intros [Hx|(s & _ & Hrun)]%bind_Raise.
  - by apply (Hbody st x); [left|].
  - apply (IH s); [|done]. intros ? y Hy. apply Hbody. by right.
Qed.

(** A loop whose passes all succeed succeeds. *)
Lemma for_each_succeeds {A St : Type} (I : St -> Prop) (l : list A)
    (body : St -> A -> outcome St) (st : St) :
  (forall s x, x ∈ l -> I s -> exists s', body s x = Ok s' /\ I s') ->
  I st -> exists st', for_each l body st = Ok st' /\ I st'.
Proof.
  revert st. induction l as [|x l IH]; intros st Hbody Hst; simpl; [eauto|].
  destruct (Hbody st x) as (s & -> & Hs); [by left|done|]. simpl.
  apply IH; [|done]. intros ? y Hy. apply Hbody. by right.
Qed.

Lemma elem_of_enumerate {A : Type} (l : list A) (i : Z) (x : A) :
  (i, x) ∈ enumerate l <-> 0 <= i /\ l !! Z.to_nat i = Some x.
Proof.
  unfold enumerate. rewrite elem_of_lookup_imap. split.
  - intros (j & y & [= -> ->] & Hj). split; [lia|]. by rewrite Nat2Z.id.
  - intros [Hi Hx]. exists (Z.to_nat i), x. split; [|done]. f_equal. lia.
Qed.

Lemma elem_of_range (n i : Z) : i ∈ range n <-> 0 <= i < n.
Proof.
  unfold range. rewrite list_elem_of_fmap. split.
  - intros (j & -> & Hj%elem_of_seq). lia.
  - intros Hi. exists (Z.to_nat i). split; [lia|]. apply elem_of_seq. lia.
Qed.

Lemma len_range (n : Z) : len (range n) = Z.max 0 n.
Proof. unfold len, range. rewrite length_map, length_seq. lia. Qed.

(** ** The padding loop *)

Lemma pad_loop_spec (passes : nat) (max_seq_length : Z)
    (input_ids input_mask segment_ids : list Z) :
  max_seq_length - len input_ids <= Z.of_nat passes ->
  exists k : nat,
    pad_loop passes max_seq_length input_ids input_mask segment_ids
    = (input_ids ++ repeat 0 k, input_mask ++ repeat 0 k,
       segment_ids ++ repeat 0 k) /\
    Z.of_nat k = Z.max 0 (max_seq_length - len input_ids).
Proof.
  revert input_ids input_mask segment_ids.
  induction passes as [|passes IH]; intros ids mask seg Hp; simpl.
  - exists 0%nat. rewrite !app_nil_r. split; [done|lia].
  - destruct (len ids <? max_seq_length) eqn:Hlt.
    + destruct (IH (ids ++ [0]) (mask ++ [0]) (seg ++ [0])) as (k & -> & Hk).
      { rewrite len_app. change (len [0]) with 1. lia. }
      exists (S k). rewrite <- !app_assoc. split; [done|].
      rewrite len_app in Hk. change (len [0]) with 1 in Hk. lia.
    + exists 0%nat. rewrite !app_nil_r. split; [done|lia].
Qed.

(** When the passes are used up the guard of the loop is false: the model
    leaves the loop as the source does. *)
Lemma pad_loop_exit (max_seq_length : Z) (input_ids input_mask segment_ids : list Z) :
  let '(input_ids', _, _) :=
    zero_pad max_seq_length input_ids input_mask segment_ids in
  (len input_ids' <? max_seq_length) = false.
Proof.
  unfold zero_pad.
  destruct (pad_loop_spec (Z.to_nat (max_seq_length - len input_ids))
              max_seq_length input_ids input_mask segment_ids) as (k & -> & Hk);
    [lia|].
  rewrite len_app, len_repeat. lia.
Qed.

Lemma zero_pad_len (max_seq_length : Z) (input_ids input_mask segment_ids : list Z)
    (ids' mask' seg' : list Z) :
  zero_pad max_seq_length input_ids input_mask segment_ids = (ids', mask', seg') ->
  len input_ids <= max_seq_length ->
  len ids' = max_seq_length /\
  len mask' = len input_mask + (max_seq_length - len input_ids) /\
  len seg' = len segment_ids + (max_seq_length - len input_ids).
Proof.
  unfold zero_pad. intros Hpad Hle.
  destruct (pad_loop_spec (Z.to_nat (max_seq_length - len input_ids))
              max_seq_length input_ids input_mask segment_ids) as (k & Hk & Hn);
    [lia|].
  rewrite Hk in Hpad. injection Hpad as <- <- <-.
  rewrite !len_app, !len_repeat. lia.
Qed.

(** ** The chunker *)

Lemma py_index_Raise {A : Type} (l : list A) (i : Z) (e : exn) :
  py_index l i = Raise e -> e = IndexError.
Proof.
  unfold py_index. destruct (_ && _); [|congruence].
  destruct (l !! _); congruence.
Qed.

Lemma query_loop_spec (query_tokens tokens : list string) (segment_ids : list Z) :
  fold_left (fun '(tokens, segment_ids) (token : string) =>
               (tokens ++ [token], segment_ids ++ [0]))
    query_tokens (tokens, segment_ids)
  = (tokens ++ query_tokens, segment_ids ++ repeat 0 (length query_tokens)).
Proof.
  revert tokens segment_ids.
  induction query_tokens as [|t q IH]; intros tokens segment_ids; simpl.
  - by rewrite !app_nil_r.
  - rewrite IH, <- !app_assoc. done.
Qed.

Section ChunkerFacts.
Context `{tokenizer : Tokenizer} `{qa_util : QaUtil}.
Variables (max_seq_length doc_stride max_query_length : Z).
Variables (is_training append_history : bool).

Lemma doc_token_loop_len (doc_spans : list DocSpan.t) (doc_span_index : Z)
    (doc_span : DocSpan.t) (tok_to_orig_index : list Z)
    (all_doc_tokens : list string) (l : list Z)
    (tokens tokens' : list string) (m m' : gmap Z Z) (c c' : gmap Z bool)
    (segment_ids segment_ids' : list Z) :
  for_each l
    (doc_token_body doc_spans doc_span_index doc_span tok_to_orig_index
       all_doc_tokens)
    (tokens, m, c, segment_ids) = Ok (tokens', m', c', segment_ids') ->
  len tokens' = len tokens + len l /\
  len segment_ids' = len segment_ids + len l.
Proof.
  revert tokens m c segment_ids.
  induction l as [|i l IH]; intros tokens m c segment_ids; simpl.
  - intros [= <- <- <- <-]. len_lia.
  - intros (st & Hbody & Hrest)%bind_Ok.
    unfold doc_token_body in Hbody.
    apply bind_Ok in Hbody as (orig & _ & Hbody).
    apply bind_Ok in Hbody as (token & _ & Hbody).
    injection Hbody as <-.
    apply IH in Hrest. len_lia.
Qed.

Lemma doc_token_loop_not_assertion (doc_spans : list DocSpan.t)
    (doc_span_index : Z) (doc_span : DocSpan.t) (tok_to_orig_index : list Z)
    (all_doc_tokens : list string) (l : list Z)
    (st : list string * gmap Z Z * gmap Z bool * list Z) :
  for_each l
    (doc_token_body doc_spans doc_span_index doc_span tok_to_orig_index
       all_doc_tokens) st <> Raise AssertionError.
Proof.
  apply for_each_not_raised. intros [[[tokens m] c] seg] i _.
  unfold doc_token_body.
  intros [H|(? & _ & [H|(? & _ & H)]%bind_Raise)]%bind_Raise;
    try (apply py_index_Raise in H); discriminate.
Qed.

(** What an emitted feature looks like. *)
Lemma doc_span_feature_emitted (example_index : Z) (example : CoQAExample.t)
    (query_tokens : list string) (tok_to_orig_index : list Z)
    (all_doc_tokens : list string) (tok_position : option (Z * Z))
    (doc_spans : list DocSpan.t) (unique_id doc_span_index : Z)
    (doc_span : DocSpan.t) (feature : ChunkFeature.t) :
  doc_span_feature max_seq_length example_index example query_tokens
    tok_to_orig_index all_doc_tokens tok_position doc_spans unique_id
    doc_span_index doc_span = Ok (Some feature) ->
  (len (ChunkFeature.input_ids feature) = max_seq_length /\
   len (ChunkFeature.input_mask feature) = max_seq_length /\
   len (ChunkFeature.segment_ids feature) = max_seq_length) /\
  ChunkFeature.doc_span_index feature = doc_span_index /\
  match tok_position with
  | Some (tok_start_position, tok_end_position) =>
      let doc_start := DocSpan.start doc_span in
      let doc_end := DocSpan.start doc_span + DocSpan.length doc_span - 1 in
      (doc_start <= CoQAExample.start_position example <= doc_end /\
       doc_start <= CoQAExample.end_position example <= doc_end) /\
      ChunkFeature.start_position feature
      = Some (tok_start_position - doc_start + (len query_tokens + 2)) /\
      ChunkFeature.end_position feature
      = Some (tok_end_position - doc_start + (len query_tokens + 2))
  | None =>
      ChunkFeature.start_position feature = None /\
      ChunkFeature.end_position feature = None
  end.
Proof.
  unfold doc_span_feature. rewrite query_loop_spec.
  intros ([[[tokens m] c] seg] & _ & H)%bind_Ok.
  destruct (zero_pad _ _ _ _) as [[ids mask] seg'].
  unfold assert in H.
  destruct (len ids =? max_seq_length) eqn:H1; [|discriminate].
  destruct (len mask =? max_seq_length) eqn:H2; [|discriminate].
  destruct (len seg' =? max_seq_length) eqn:H3; [|discriminate].
  simpl in H.
  destruct tok_position as [[ts te]|].
  - destruct (_ || _) eqn:Hgate; [discriminate|].
    injection H as <-. simpl.
    repeat split; try lia; try reflexivity;
      apply orb_false_elim in Hgate as [Hgate ?];
      apply orb_false_elim in Hgate as [Hgate ?];
      apply orb_false_elim in Hgate as [? ?]; lia.
  - injection H as <-. simpl. repeat split; lia.
Qed.

(** The three assertions hold when the tokenizer gives one id per token and
    the window fits the budget. *)
Lemma doc_span_feature_not_assertion (example_index : Z) (example : CoQAExample.t)
    (query_tokens : list string) (tok_to_orig_index : list Z)
    (all_doc_tokens : list string) (tok_position : option (Z * Z))
    (doc_spans : list DocSpan.t) (unique_id doc_span_index : Z)
    (doc_span : DocSpan.t) :
  (forall tokens, length (convert_tokens_to_ids tokens) = length tokens) ->
  len query_tokens + 3 + Z.max 0 (DocSpan.length doc_span) <= max_seq_length ->
  doc_span_feature max_seq_length example_index example query_tokens
    tok_to_orig_index all_doc_tokens tok_position doc_spans unique_id
    doc_span_index doc_span <> Raise AssertionError.
Proof.
  intros Hids Hfit. unfold doc_span_feature. rewrite query_loop_spec.
  intros [H|([[[tokens m] c] seg] & Hloop & H)]%bind_Raise.
  { by apply doc_token_loop_not_assertion in H. }
  apply doc_token_loop_len in Hloop as [Htok Hseg].
  rewrite len_range in Htok, Hseg.
  pose proof (Hids (tokens ++ ["[SEP]"%string])) as Hc.
  destruct (zero_pad _ _ _ _) as [[ids mask] seg'] eqn:Hpad.
  apply zero_pad_len in Hpad; [|len_lia].
  destruct Hpad as (Hi & Hm & Hs).
  assert (len ids = max_seq_length /\ len mask = max_seq_length /\
          len seg' = max_seq_length) as (E1 & E2 & E3) by len_lia.
  unfold assert in H.
  rewrite E1, E2, E3, Z.eqb_refl in H.
  simpl in H.
  destruct tok_position as [[ts te]|]; [|discriminate].
  destruct (_ || _); discriminate.
Qed.

Lemma tok_positions_Raise (example : CoQAExample.t) (orig_to_tok_index : list Z)
    (all_doc_tokens : list string) (e : exn) :
  tok_positions is_training example orig_to_tok_index all_doc_tokens = Raise e ->
  e = IndexError.
Proof.
  unfold tok_positions. destruct is_training; [|discriminate].
  intros [H|(ts & _ & [H|(te & _ & H)]%bind_Raise)]%bind_Raise.
  - by apply py_index_Raise in H.
  - destruct (_ <? _); [|discriminate].
    apply bind_Raise in H as [H|(? & _ & H)]; [|discriminate].
    by apply py_index_Raise in H.
  - discriminate.
Qed.

Lemma doc_spans_features_padded (example_index : Z) (example : CoQAExample.t)
    (query_tokens : list string) (tok_to_orig_index : list Z)
    (all_doc_tokens : list string) (tok_position : option (Z * Z))
    (doc_spans : list DocSpan.t) (st st' : list ChunkFeature.t * Z) :
  doc_spans_features max_seq_length example_index example query_tokens
    tok_to_orig_index all_doc_tokens tok_position doc_spans st = Ok st' ->
  Forall (padded max_seq_length) (fst st) -> Forall (padded max_seq_length) (fst st').
Proof.
  intros Hrun Hst. revert Hst Hrun. unfold doc_spans_features.
  apply (for_each_invariant (fun s => Forall (padded max_seq_length) (fst s))).
  intros [features uid] [i ds] s' _ Hs.
  intros ([f|] & Hf & Hs')%bind_Ok; injection Hs' as <-; [|done].
  simpl in *. apply Forall_app. split; [done|].
  apply Forall_singleton. by apply doc_span_feature_emitted in Hf as [? _].
Qed.

Lemma doc_spans_features_not_assertion (example_index : Z)
    (example : CoQAExample.t) (query_tokens : list string)
    (tok_to_orig_index : list Z) (all_doc_tokens : list string)
    (tok_position : option (Z * Z)) (doc_spans : list DocSpan.t)
    (st : list ChunkFeature.t * Z) :
  (forall tokens, length (convert_tokens_to_ids tokens) = length tokens) ->
  (forall doc_span, doc_span ∈ doc_spans ->
     len query_tokens + 3 + Z.max 0 (DocSpan.length doc_span) <= max_seq_length) ->
  doc_spans_features max_seq_length example_index example query_tokens
    tok_to_orig_index all_doc_tokens tok_position doc_spans st
  <> Raise AssertionError.
Proof.
  intros Hids Hfit. apply for_each_not_raised.
  intros [features uid] [i ds] [_ Hds]%elem_of_enumerate.
  intros [H|([f|] & _ & H)]%bind_Raise; [|discriminate..].
  revert H. apply doc_span_feature_not_assertion; [done|].
  apply Hfit. by eapply list_elem_of_lookup_2.
Qed.

Lemma sliding_windows_fit (fuel : nat) (L B D : Z) (ws : list DocSpan.t)
    (w : DocSpan.t) :
  sliding_windows fuel L B D = Some ws -> w ∈ ws -> 0 < B ->
  Z.max 0 (DocSpan.length w) <= B.
Proof.
  intros Hrun (i & Hw)%list_elem_of_lookup HB.
  apply doc_spans_loop_chain in Hrun.
  destruct (window_chain_lookup _ _ _ _ _ _ _ Hrun Hw). lia.
Qed.

Lemma example_body_padded (fuel : nat) (example_index : Z)
    (example : CoQAExample.t) (st st' : list ChunkFeature.t * Z) :
  example_body max_seq_length doc_stride max_query_length is_training
    append_history fuel example_index example st = Some (Ok st') ->
  Forall (padded max_seq_length) (fst st) -> Forall (padded max_seq_length) (fst st').
Proof.
  unfold example_body.
  destruct (tokenize_doc _) as [[tok_to_orig orig_to_tok] all_doc].
  destruct (tok_positions _ _ _ _) as [pos|]; [|discriminate].
  destruct (sliding_windows _ _ _ _) as [ws|]; [|discriminate].
  intros [= Hrun]. eapply doc_spans_features_padded, Hrun.
Qed.

Lemma example_body_not_assertion (fuel : nat) (example_index : Z)
    (example : CoQAExample.t) (st : list ChunkFeature.t * Z) :
  (forall tokens, length (convert_tokens_to_ids tokens) = length tokens) ->
  0 < max_tokens_for_doc_of max_seq_length max_query_length append_history example ->
  example_body max_seq_length doc_stride max_query_length is_training
    append_history fuel example_index example st <> Some (Raise AssertionError).
Proof.
  intros Hids HB. unfold example_body, max_tokens_for_doc_of in *.
  destruct (tokenize_doc _) as [[tok_to_orig orig_to_tok] all_doc].
  destruct (tok_positions _ _ _ _) as [pos|e] eqn:Hpos.
  2:{ apply tok_positions_Raise in Hpos as ->. discriminate. }
  destruct (sliding_windows _ _ _ _) as [ws|] eqn:Hws; [|discriminate].
  intros [= H]. revert H.
  apply doc_spans_features_not_assertion; [done|].
  intros w Hw. pose proof (sliding_windows_fit _ _ _ _ _ _ Hws Hw HB). lia.
Qed.

Lemma examples_loop_padded (fuel : nat) (examples : list (Z * CoQAExample.t))
    (st st' : list ChunkFeature.t * Z) :
  examples_loop max_seq_length doc_stride max_query_length is_training
    append_history fuel examples st = Some (Ok st') ->
  Forall (padded max_seq_length) (fst st) -> Forall (padded max_seq_length) (fst st').
Proof.
  revert st. induction examples as [|[i ex] examples IH]; intros st; simpl.
  - by intros [= <-].
  - destruct (example_body _ _ _ _ _ _ _ _ _) as [[s|e]|] eqn:Hbody;
      [|discriminate..].
    intros Hrest Hst. apply (IH s Hrest).
    by apply (example_body_padded _ _ _ _ _ Hbody).
Qed.

Lemma examples_loop_not_assertion (fuel : nat)
    (examples : list (Z * CoQAExample.t)) (st : list ChunkFeature.t * Z) :
  (forall tokens, length (convert_tokens_to_ids tokens) = length tokens) ->
  (forall i example, (i, example) ∈ examples ->
     0 < max_tokens_for_doc_of max_seq_length max_query_length append_history
           example) ->
  examples_loop max_seq_length doc_stride max_query_length is_training
    append_history fuel examples st <> Some (Raise AssertionError).
Proof.
  intros Hids. revert st.
  induction examples as [|[i ex] examples IH]; intros st HB; simpl; [done|].
  destruct (example_body _ _ _ _ _ _ _ _ _) as [[s|e]|] eqn:Hbody; [| |done].
  - apply IH. intros j ex' Hin. apply (HB j). by right.
  - intros [= ->]. revert Hbody.
    apply example_body_not_assertion; [done|]. apply (HB i). by left.
Qed.

(** The loop over the examples ends when every sliding-window loop does. *)
Lemma examples_loop_terminates (examples : list (Z * CoQAExample.t)) :
  (forall i example, (i, example) ∈ examples ->
     let L := len (all_doc_tokens_of example) in
     let B := max_tokens_for_doc_of max_seq_length max_query_length
                append_history example in
     L <= 0 \/ L <= B \/ (1 <= B /\ 1 <= doc_stride)) ->
  exists n : nat, forall fuel st, (n <= fuel)%nat ->
    exists r,
      examples_loop max_seq_length doc_stride max_query_length is_training
        append_history fuel examples st = Some r.
Proof.
  induction examples as [|[i ex] examples IH]; intros Hgood.
  { exists 0%nat. intros fuel st _. simpl. eauto. }
  destruct IH as (n2 & Hrest).
  { intros j ex' Hin. apply (Hgood j). by right. }
  destruct (sliding_windows_terminates _ _ _ (Hgood i ex ltac:(by left)))
    as (n1 & ws & Hws).
  exists (n1 `max` n2)%nat. intros fuel st Hfuel. simpl.
  unfold example_body, all_doc_tokens_of, max_tokens_for_doc_of in *.
  destruct (tokenize_doc _) as [[tok_to_orig orig_to_tok] all_doc].
  destruct (tok_positions _ _ _ _) as [pos|e]; [|eauto].
  simpl in Hws. rewrite Hws by lia.
  destruct (doc_spans_features _ _ _ _ _ _ _ _ _) as [s|e]; [|eauto].
  apply Hrest. lia.
Qed.

(** Outside training, an example whose document is not empty, exceeds the
    budget and is stepped through by a step that is not positive keeps the
    loop running whatever the fuel. *)
Lemma example_body_diverges (fuel : nat) (example_index : Z)
    (example : CoQAExample.t) (st : list ChunkFeature.t * Z) :
  is_training = false ->
  let L := len (all_doc_tokens_of example) in
  let B := max_tokens_for_doc_of max_seq_length max_query_length
             append_history example in
  1 <= L -> B < L -> Z.min B doc_stride <= 0 ->
  example_body max_seq_length doc_stride max_query_length is_training
    append_history fuel example_index example st = None.
Proof.
  intros -> L B HL HB Hstep. subst L B.
  unfold example_body, all_doc_tokens_of, max_tokens_for_doc_of in *.
  destruct (tokenize_doc _) as [[tok_to_orig orig_to_tok] all_doc].
  simpl in *. unfold sliding_windows.
  by rewrite doc_spans_loop_diverges.
Qed.

End ChunkerFacts.

Lemma enumerate_elem {A : Type} (l : list A) (i : Z) (x : A) :
  (i, x) ∈ enumerate l -> x ∈ l.
Proof. intros [_ Hx]%elem_of_enumerate. by eapply list_elem_of_lookup_2. Qed.

(** ** The claims about the chunker *)

(** C9: every feature that [convert_examples_to_features] returns has
    [input_ids], [input_mask] and [segment_ids] of length [max_seq_length];
    and when the tokenizer gives one id per token and every example has a
    positive document budget, none of the three assertions fails. *)
Theorem padded_lengths `{tokenizer : Tokenizer} `{qa_util : QaUtil}
    (max_seq_length doc_stride max_query_length : Z)
    (is_training append_history : bool) (examples : list CoQAExample.t) :
  (forall (fuel : nat) (features : list ChunkFeature.t),
      convert_examples_to_features max_seq_length doc_stride max_query_length
        is_training append_history fuel examples = Some (Ok features) ->
      forall feature, feature ∈ features ->
        len (ChunkFeature.input_ids feature) = max_seq_length /\
        len (ChunkFeature.input_mask feature) = max_seq_length /\
        len (ChunkFeature.segment_ids feature) = max_seq_length) /\
  ((forall tokens, length (convert_tokens_to_ids tokens) = length tokens) ->
   (forall example, example ∈ examples ->
      0 < max_tokens_for_doc_of max_seq_length max_query_length append_history
            example) ->
   forall fuel : nat,
     convert_examples_to_features max_seq_length doc_stride max_query_length
       is_training append_history fuel examples <> Some (Raise AssertionError)).
Proof.
  split.
  - intros fuel features. unfold convert_examples_to_features.
    destruct (examples_loop _ _ _ _ _ _ _ _) as [[[fs uid]|e]|] eqn:Hloop;
      [|discriminate..].
    intros [= ->] feature Hin.
    apply examples_loop_padded in Hloop; [|by apply Forall_nil].
    by apply (proj1 (Forall_forall _ _) Hloop).
  - intros Hids HB fuel. unfold convert_examples_to_features.
    destruct (examples_loop _ _ _ _ _ _ _ _) as [[[fs uid]|e]|] eqn:Hloop;
      [discriminate| |discriminate].
    intros [= ->]. revert Hloop.
    apply examples_loop_not_assertion; [done|].
    intros i ex Hin. apply HB. by apply enumerate_elem in Hin.
Qed.

Lemma padded_lengths_witness :
  exists features : list ChunkFeature.t,
    convert_examples_to_features (tokenizer := Sample.char_tokenizer)
      (qa_util := Sample.qa_util) 6 2 64 false false 3 [SampleInput.example]
    = Some (Ok features) /\
    length features = 2%nat /\
    (forall feature, feature ∈ features ->
       len (ChunkFeature.input_ids feature) = 6 /\
       len (ChunkFeature.input_mask feature) = 6 /\
       len (ChunkFeature.segment_ids feature) = 6) /\
    convert_examples_to_features (tokenizer := Sample.char_tokenizer)
      (qa_util := Sample.qa_util) 6 2 64 false false 3 [SampleInput.example]
    <> Some (Raise AssertionError).
Proof.
  eexists. split; [vm_compute; reflexivity|].
  split; [reflexivity|]. split.
  - apply (proj1 (padded_lengths (tokenizer := Sample.char_tokenizer)
                    (qa_util := Sample.qa_util) 6 2 64 false false
                    [SampleInput.example]) 3%nat).
    vm_compute. reflexivity.
  - apply (proj2 (padded_lengths (tokenizer := Sample.char_tokenizer)
                    (qa_util := Sample.qa_util) 6 2 64 false false
                    [SampleInput.example])).
    + intros tokens. apply length_map.
    + intros example [->|[]%elem_of_nil]%elem_of_cons. vm_compute. reflexivity.
Defined.

(** C10, as the code has it: [convert_examples_to_features] ends (with a
    result or an exception) on every input in which each example has an empty
    subword document, or a document within its budget, or a budget and a
    [doc_stride] that are both at least 1; and for a document of at least one
    subword token with a budget of 0 or less the sliding-window loop never
    ends, which outside training keeps the example, and so the function,
    from ending. *)
Theorem chunker_termination `{tokenizer : Tokenizer} `{qa_util : QaUtil}
    (max_seq_length doc_stride max_query_length : Z)
    (is_training append_history : bool) :
  (forall examples : list CoQAExample.t,
      (forall example, example ∈ examples ->
         let L := len (all_doc_tokens_of example) in
         let B := max_tokens_for_doc_of max_seq_length max_query_length
                    append_history example in
         L <= 0 \/ L <= B \/ (1 <= B /\ 1 <= doc_stride)) ->
      exists n : nat, forall fuel : nat, (n <= fuel)%nat ->
        exists r,
          convert_examples_to_features max_seq_length doc_stride
            max_query_length is_training append_history fuel examples
          = Some r) /\
  (forall (L B : Z) (fuel : nat),
      1 <= L -> B <= 0 -> sliding_windows fuel L B doc_stride = None) /\
  (forall (example : CoQAExample.t) (examples : list CoQAExample.t)
          (fuel : nat),
      is_training = false ->
      1 <= len (all_doc_tokens_of example) ->
      max_tokens_for_doc_of max_seq_length max_query_length append_history
        example <= 0 ->
      convert_examples_to_features max_seq_length doc_stride max_query_length
        is_training append_history fuel (example :: examples) = None).
Proof.
  split; [|split].
  - intros examples Hgood.
    destruct (examples_loop_terminates max_seq_length doc_stride
                max_query_length is_training append_history
                (enumerate examples)) as (n & Hn).
    { intros i ex Hin. apply Hgood. by apply enumerate_elem in Hin. }
    exists n. intros fuel Hfuel. unfold convert_examples_to_features.
    destruct (Hn fuel ([], 1000000000) Hfuel) as (r & ->).
    destruct r as [[fs uid]|e]; eauto.
  - intros L B fuel HL HB. unfold sliding_windows.
    apply doc_spans_loop_diverges; lia.
  - intros example examples fuel Htrain HL HB.
    unfold convert_examples_to_features, enumerate. simpl.
    rewrite example_body_diverges; [done|done|lia..].
Qed.

Lemma chunker_termination_witness :
  (exists n : nat, forall fuel : nat, (n <= fuel)%nat ->
     exists r,
       convert_examples_to_features (tokenizer := Sample.char_tokenizer)
         (qa_util := Sample.qa_util) 6 2 64 false false fuel
         [SampleInput.example] = Some r) /\
  sliding_windows 7 4 0 2 = None /\
  convert_examples_to_features (tokenizer := Sample.char_tokenizer)
    (qa_util := Sample.qa_util) 4 2 64 false false 7 [SampleInput.example]
  = None.
Proof.
  split; [|split].
  - apply (proj1 (chunker_termination (tokenizer := Sample.char_tokenizer)
                    (qa_util := Sample.qa_util) 6 2 64 false false)).
    intros example [->|[]%elem_of_nil]%elem_of_cons. vm_compute.
    right. right. split; discriminate.
  - apply (proj1 (proj2 (chunker_termination
                           (tokenizer := Sample.char_tokenizer)
                           (qa_util := Sample.qa_util) 4 2 64 false false)));
      lia.
  - apply (proj2 (proj2 (chunker_termination
                           (tokenizer := Sample.char_tokenizer)
                           (qa_util := Sample.qa_util) 4 2 64 false false)));
      [reflexivity|vm_compute; discriminate..].
Defined.

(** C10 as worded fails: a positive budget does not make the loop end when
    [doc_stride] is 0.  The document has 5 subword tokens, the budget is
    [6 - 1 - 3 = 2], and the start offset never moves. *)
Lemma positive_budget_zero_stride_diverges :
  1 <= max_tokens_for_doc_of (tokenizer := Sample.char_tokenizer) 6 64 false
         SampleInput.long_word /\
  forall fuel : nat,
    convert_examples_to_features (tokenizer := Sample.char_tokenizer)
      (qa_util := Sample.qa_util) 6 0 64 false false fuel
      [SampleInput.long_word] = None.
Proof.
  split; [vm_compute; discriminate|].
  intros fuel. unfold convert_examples_to_features, enumerate. simpl.
  rewrite example_body_diverges; [done|done|vm_compute; try discriminate..].
  reflexivity.
Qed.

(** C1: in training mode the code decides whether to emit a chunk by
    comparing [example.start_position] and [example.end_position], which
    count whitespace tokens, with the window, which counts subword tokens.
    The document "ab cd" has the subword tokens a, b, c, d and the gold
    answer "cd" is the subword span (2, 3).  Of the windows (0,2) and (2,2)
    the code emits the first, which does not hold the answer, with the
    labels 5 and 6, and drops the second, which holds it. *)
Theorem training_gate_on_word_positions :
  tokenize_doc (tokenizer := Sample.char_tokenizer)
    (CoQAExample.doc_tokens SampleInput.example)
  = ([0; 0; 1; 1], [0; 2], ["a"; "b"; "c"; "d"]%string) /\
  tok_positions (tokenizer := Sample.char_tokenizer) (qa_util := Sample.qa_util)
    true SampleInput.example [0; 2] ["a"; "b"; "c"; "d"]%string
  = Ok (Some (2, 3)) /\
  sliding_windows 3 4 (6 - 1 - 3) 2 = Some [DocSpan.mk 0 2; DocSpan.mk 2 2] /\
  match convert_examples_to_features (tokenizer := Sample.char_tokenizer)
          (qa_util := Sample.qa_util) 6 2 64 true false 3 [SampleInput.example]
  with
  | Some (Ok features) =>
      map (fun f => (ChunkFeature.doc_span_index f,
                     ChunkFeature.start_position f,
                     ChunkFeature.end_position f,
                     len (ChunkFeature.tokens f))) features
      = [(0, Some 5, Some 6, 6)]
  | _ => False
  end.
Proof. repeat split; vm_compute; reflexivity. Qed.

(** ** The decoder: candidates of one chunk *)

Section DecoderFacts.
Context {F : Type} `{score : Score F} `{qa_util : QaUtil} `{softmax : Softmax F}.
Variables (n_best_size max_answer_length : Z).
Variables (do_lower_case verbose_logging validate_flag : bool).

Lemma sorted_insert_perm {A : Type} (key : A -> F) (x : A) (l : list A) :
  sorted_insert key x l ≡ₚ x :: l.
Proof.
  induction l as [|y l IH]; simpl; [done|].
  destruct (score_ltb _ _); [|done].
  rewrite IH. apply perm_swap.
Qed.

Lemma sorted_reverse_perm {A : Type} (key : A -> F) (l : list A) :
  sorted_reverse key l ≡ₚ l.
Proof.
  induction l as [|x l IH]; simpl; [done|].
  by rewrite sorted_insert_perm, IH.
Qed.

(** The best indexes are positions of the score list. *)
Lemma _get_best_indexes_lookup (logits : list F) (n i : Z) :
  i ∈ _get_best_indexes logits n ->
  0 <= i /\ exists v, logits !! Z.to_nat i = Some v.
Proof.
  unfold _get_best_indexes. intros Hi%subseteq_take.
  apply list_elem_of_fmap in Hi as ([j v] & -> & Hj).
  rewrite sorted_reverse_perm in Hj.
  apply elem_of_enumerate in Hj as [? ?]. eauto.
Qed.

Lemma py_index_lookup {A : Type} (l : list A) (i : Z) (x : A) :
  0 <= i -> l !! Z.to_nat i = Some x -> py_index l i = Ok x.
Proof.
  intros Hi Hx. destruct (py_index_in_range l i) as (y & -> & Hy).
  - apply lookup_lt_Some in Hx. unfold len. lia.
  - congruence.
Qed.

(** The candidate a valid pair of indexes gives. *)
Lemma end_index_body_spec (feature_index : Z) (feature : ChunkFeature.t)
    (result : RawResult.t F) (start_index end_index : Z)
    (prelim_predictions : list (PrelimPrediction.t F)) (s e : F) :
  py_index (RawResult.start_logits result) start_index = Ok s ->
  py_index (RawResult.end_logits result) end_index = Ok e ->
  (valid_span feature max_answer_length start_index end_index /\
   end_index_body max_answer_length feature_index feature result start_index
     prelim_predictions end_index
   = Ok (prelim_predictions ++
         [PrelimPrediction.mk feature_index start_index end_index None
            (score_add (score_add (fst (RawResult.yes_no_flag_logits result)) s)
               e)])) \/
  (~ valid_span feature max_answer_length start_index end_index /\
   end_index_body max_answer_length feature_index feature result start_index
     prelim_predictions end_index = Ok prelim_predictions).
Proof.
  intros Hs He. unfold end_index_body, valid_span.
  destruct (start_index >=? _) eqn:H1; [right; split; [lia|done]|].
  destruct (end_index >=? _) eqn:H2; [right; split; [lia|done]|].
  destruct (bool_decide (is_Some (_ !! start_index))) eqn:H3; simpl;
    [apply bool_decide_eq_true in H3
    |apply bool_decide_eq_false in H3; right; split; [tauto|done]].
  destruct (bool_decide (is_Some (_ !! end_index))) eqn:H4; simpl;
    [apply bool_decide_eq_true in H4
    |apply bool_decide_eq_false in H4; right; split; [tauto|done]].
  destruct (ChunkFeature.token_is_max_context feature !! start_index)
    as [[|]|] eqn:H5; simpl;
    [|right; split; [intros (_ & _ & _ & _ & [=] & _)|done]..].
  destruct (end_index <? start_index) eqn:H6; [right; split; [lia|done]|].
  destruct (_ >? max_answer_length) eqn:H7; [right; split; [lia|done]|].
  rewrite Hs, He. simpl. left. split; [|done].
  repeat split; try done; lia.
Qed.

(** The candidates of one start index. *)
Lemma end_index_loop_spec (feature_index : Z) (feature : ChunkFeature.t)
    (result : RawResult.t F) (start_index : Z) (s : F) (end_indexes : list Z)
    (prelim_predictions : list (PrelimPrediction.t F)) :
  py_index (RawResult.start_logits result) start_index = Ok s ->
  (forall end_index, end_index ∈ end_indexes ->
     0 <= end_index /\
     exists e, RawResult.end_logits result !! Z.to_nat end_index = Some e) ->
  exists new,
    for_each end_indexes
      (end_index_body max_answer_length feature_index feature result start_index)
      prelim_predictions = Ok (prelim_predictions ++ new) /\
    forall p, p ∈ new <->
      exists end_index e,
        end_index ∈ end_indexes /\
        RawResult.end_logits result !! Z.to_nat end_index = Some e /\
        valid_span feature max_answer_length start_index end_index /\
        p = PrelimPrediction.mk feature_index start_index end_index None
              (score_add
                 (score_add (fst (RawResult.yes_no_flag_logits result)) s) e).
Proof.
  intros Hs. revert prelim_predictions.
  induction end_indexes as [|ei l IH]; intros prelim Hl; simpl.
  { exists []. rewrite app_nil_r. split; [done|].
    intros p. split; [intros []%elem_of_nil|].
    intros (? & ? & []%elem_of_nil & _). }
  destruct (Hl ei) as (Hei & e & He); [by left|].
  assert (Hl' : forall end_index, end_index ∈ l ->
            0 <= end_index /\
            exists e, RawResult.end_logits result !! Z.to_nat end_index = Some e).
  { intros ? ?. apply Hl. by right. }
  pose proof (py_index_lookup _ _ _ Hei He) as Hpy.
  destruct (end_index_body_spec feature_index feature result start_index ei
              prelim s e Hs Hpy) as [[Hv ->]|[Hv ->]]; simpl.
  - destruct (IH (prelim ++ [PrelimPrediction.mk feature_index start_index ei
                               None
                               (score_add
                                  (score_add
                                     (fst (RawResult.yes_no_flag_logits result))
                                     s) e)]) Hl')
      as (new & -> & Hnew).
    eexists (_ :: new). rewrite <- app_assoc. split; [done|].
    intros p. rewrite elem_of_cons, Hnew. split.
    + intros [->|(ei' & e' & Hin & ? & ? & ?)].
      * exists ei, e. split; [by left|done].
      * exists ei', e'. split; [by right|done].
    + intros (ei' & e' & [->|Hin]%elem_of_cons & He' & Hv' & ->).
      * left. congruence.
      * right. by exists ei', e'.
  - destruct (IH prelim Hl') as (new & -> & Hnew).
    exists new. split; [done|].
    intros p. rewrite Hnew. split.
    + intros (ei' & e' & Hin & ? & ? & ?).
      exists ei', e'. split; [by right|done].
    + intros (ei' & e' & [->|Hin]%elem_of_cons & He' & Hv' & ->).
      * contradiction.
      * by exists ei', e'.
Qed.

(** The candidates of a chunk that is not a yes/no chunk. *)
Lemma start_index_loop_spec (feature_index : Z) (feature : ChunkFeature.t)
    (result : RawResult.t F) (start_indexes end_indexes : list Z)
    (prelim_predictions : list (PrelimPrediction.t F)) :
  (forall start_index, start_index ∈ start_indexes ->
     0 <= start_index /\
     exists s, RawResult.start_logits result !! Z.to_nat start_index = Some s) ->
  (forall end_index, end_index ∈ end_indexes ->
     0 <= end_index /\
     exists e, RawResult.end_logits result !! Z.to_nat end_index = Some e) ->
  exists new,
    for_each start_indexes
      (fun prelim_predictions start_index =>
         for_each end_indexes
           (end_index_body max_answer_length feature_index feature result
              start_index)
           prelim_predictions)
      prelim_predictions = Ok (prelim_predictions ++ new) /\
    forall p, p ∈ new <->
      exists start_index end_index s e,
        start_index ∈ start_indexes /\ end_index ∈ end_indexes /\
        RawResult.start_logits result !! Z.to_nat start_index = Some s /\
        RawResult.end_logits result !! Z.to_nat end_index = Some e /\
        valid_span feature max_answer_length start_index end_index /\
        p = PrelimPrediction.mk feature_index start_index end_index None
              (score_add
                 (score_add (fst (RawResult.yes_no_flag_logits result)) s) e).
Proof.
  intros Hstart Hend. revert prelim_predictions Hstart.
  induction start_indexes as [|si l IH]; intros prelim Hstart; simpl.
  { exists []. rewrite app_nil_r. split; [done|].
    intros p. split; [intros []%elem_of_nil|].
    intros (? & ? & ? & ? & []%elem_of_nil & _). }
  destruct (Hstart si) as (Hsi & s & Hs); [by left|].
  pose proof (py_index_lookup _ _ _ Hsi Hs) as Hpy.
  destruct (end_index_loop_spec feature_index feature result si s end_indexes
              prelim Hpy Hend) as (new1 & -> & Hnew1). simpl.
  destruct (IH (prelim ++ new1)) as (new2 & -> & Hnew2).
  { intros ? ?. apply Hstart. by right. }
  exists (new1 ++ new2). rewrite app_assoc. split; [done|].
  intros p. rewrite elem_of_app, Hnew1, Hnew2. split.
  - intros [(ei & e & ? & ? & ? & ?)|(si' & ei & s' & e & ? & ? & ? & ? & ? & ?)].
    + exists si, ei, s, e. split; [by left|done].
    + exists si', ei, s', e. split; [by right|done].
  - intros (si' & ei & s' & e & [->|Hin]%elem_of_cons & ? & Hs' & ? & ? & ->).
    + left. exists ei, e. assert (s' = s) as -> by congruence. done.
    + right. by exists si', ei, s', e.
Qed.

(** ** The decoder: the n-best loop *)

Lemma final_text_of_total (example : CoQAExample.t)
    (features : list ChunkFeature.t) (pred : PrelimPrediction.t F) :
  well_formed_pred features pred ->
  exists t, final_text_of do_lower_case verbose_logging example features pred
            = Ok t.
Proof.
  intros (Hfi & feature & Hf & Hidx). unfold final_text_of.
  rewrite (py_index_lookup _ _ _ Hfi Hf). simpl.
  destruct (_ || _) eqn:Hsent; [eauto|].
  apply orb_false_elim in Hsent as [Hs He].
  destruct Hidx as [?|[?|[[a Ha] [b Hb]]]]; [lia..|].
  unfold dict_get. rewrite Ha, Hb. simpl. eauto.
Qed.

Lemma texts_app (nbest kept : list (NbestPrediction.t F)) :
  texts (nbest ++ kept) = texts nbest ++ texts kept.
Proof. unfold texts. apply map_app. Qed.

(** What the loop keeps, from any state in which [seen_predictions] holds
    exactly the texts of [nbest]. *)
Lemma nbest_loop_spec (example : CoQAExample.t) (features : list ChunkFeature.t)
    (preds : list (PrelimPrediction.t F))
    (seen : gmap (option string) bool) (nbest nbest' : list (NbestPrediction.t F)) :
  nbest_loop n_best_size do_lower_case verbose_logging validate_flag example
    features preds seen nbest = Ok nbest' ->
  (forall t, is_Some (seen !! t) <-> t ∈ texts nbest) ->
  NoDup (texts nbest) ->
  exists kept,
    nbest' = nbest ++ kept /\
    NoDup (texts nbest') /\
    len nbest' <= Z.max (len nbest) n_best_size /\
    (validate_flag = true -> (length kept <= 1)%nat) /\
    (forall entry, entry ∈ kept ->
       exists pred, pred ∈ preds /\
         final_text_of do_lower_case verbose_logging example features pred
         = Ok (NbestPrediction.text entry) /\
         NbestPrediction.logit entry = PrelimPrediction.logit pred) /\
    (validate_flag = false -> len nbest' < n_best_size ->
       forall pred, pred ∈ preds ->
         exists t,
           final_text_of do_lower_case verbose_logging example features pred
           = Ok t /\ t ∈ texts nbest').
Proof.
  revert seen nbest.
  induction preds as [|pred preds IH]; intros seen nbest; simpl.
  { intros [= <-] Hseen Hnd. exists []. rewrite app_nil_r.
    split; [done|]. split; [done|]. split; [lia|]. split; [simpl; lia|].
    split; [by intros ? ?%elem_of_nil|]. by intros _ _ ? ?%elem_of_nil. }
  destruct (len nbest >=? n_best_size) eqn:Hfull.
  { intros [= <-] Hseen Hnd. exists []. rewrite app_nil_r.
    split; [done|]. split; [done|]. split; [lia|]. split; [simpl; lia|].
    split; [by intros ? ?%elem_of_nil|]. intros _ ?. lia. }
  intros (t & Ht & Hrun)%bind_Ok Hseen Hnd.
  destruct (bool_decide (is_Some (seen !! t))) eqn:Hdup.
  - apply bool_decide_eq_true in Hdup.
    destruct (IH _ _ Hrun Hseen Hnd) as (kept & -> & ? & ? & ? & Hfrom & Hall).
    exists kept. split; [done|]. split; [done|]. split; [done|]. split; [done|].
    split.
    + intros entry Hin. destruct (Hfrom entry Hin) as (p & ? & ?).
      exists p. split; [by right|done].
    + intros Hv Hlt p [->|Hin]%elem_of_cons; [|by apply Hall].
      exists t. split; [done|]. rewrite texts_app. apply elem_of_app. left.
      by apply Hseen.
  - apply bool_decide_eq_false in Hdup.
    set (entry := NbestPrediction.mk t (PrelimPrediction.logit pred)) in *.
    assert (Hseen' : forall t', is_Some (<[t := true]> seen !! t')
                                <-> t' ∈ texts (nbest ++ [entry])).
    { intros t'. rewrite texts_app, elem_of_app, <- Hseen. simpl.
      rewrite list_elem_of_singleton.
      destruct (decide (t = t')) as [->|Hne].
      - rewrite lookup_insert_eq. split; [by right|by eauto].
      - rewrite lookup_insert_ne by done. split; [by left|].
        intros [?|?]; [done|congruence]. }
    assert (Hnd' : NoDup (texts (nbest ++ [entry]))).
    { rewrite texts_app. apply NoDup_app. split; [done|]. split.
      - intros t' Hin [->|[]%elem_of_nil]%elem_of_cons. by apply Hdup, Hseen.
      - apply NoDup_singleton. }
    assert (Hlen1 : len (nbest ++ [entry]) = len nbest + 1) by len_lia.
    destruct validate_flag eqn:Hvalidate.
    + injection Hrun as <-. exists [entry].
      split; [done|]. split; [done|]. split; [lia|]. split; [simpl; lia|].
      split; [|discriminate].
      intros e [->|[]%elem_of_nil]%elem_of_cons.
      exists pred. split; [by left|done].
    + destruct (IH _ _ Hrun Hseen' Hnd') as (kept & -> & ? & ? & _ & Hfrom & Hall).
      exists (entry :: kept). rewrite <- app_assoc.
      split; [done|]. rewrite <- app_assoc in *. simpl in *.
      split; [done|]. split; [lia|]. split; [discriminate|]. split.
      * intros e [->|Hin]%elem_of_cons.
        -- exists pred. split; [by left|done].
        -- destruct (Hfrom e Hin) as (p & ? & ?). exists p. split; [by right|done].
      * intros _ Hlt p [->|Hin]%elem_of_cons; [|by apply Hall].
        exists t. split; [done|]. rewrite texts_app. apply elem_of_app. right.
        by left.
Qed.

(** In validation mode the one kept entry is the first, top-ranked
    candidate. *)
Lemma nbest_loop_validate_top (example : CoQAExample.t)
    (features : list ChunkFeature.t) (pred : PrelimPrediction.t F)
    (preds : list (PrelimPrediction.t F)) :
  validate_flag = true -> 0 < n_best_size ->
  nbest_loop n_best_size do_lower_case verbose_logging validate_flag example
    features (pred :: preds) ∅ []
  = (final_text ← final_text_of do_lower_case verbose_logging example features pred;
     Ok [NbestPrediction.mk final_text (PrelimPrediction.logit pred)]).
Proof.
  intros -> Hn. simpl.
  assert ((len (@nil (NbestPrediction.t F)) >=? n_best_size) = false) as ->
    by (rewrite len_nil; lia).
  destruct (final_text_of _ _ _ _ _) as [t|e]; [|done]. simpl.
  rewrite lookup_empty.
  rewrite bool_decide_eq_false_2 by (by intros [? ?]). done.
Qed.

Lemma nbest_loop_total (example : CoQAExample.t) (features : list ChunkFeature.t)
    (preds : list (PrelimPrediction.t F))
    (seen : gmap (option string) bool) (nbest : list (NbestPrediction.t F)) :
  Forall (well_formed_pred features) preds ->
  exists nbest',
    nbest_loop n_best_size do_lower_case verbose_logging validate_flag example
      features preds seen nbest = Ok nbest'.
Proof.
  intros Hwf. revert seen nbest.
  induction Hwf as [|pred preds Hpred _ IH]; intros seen nbest; simpl; [eauto|].
  destruct (_ >=? _); [eauto|].
  destruct (final_text_of_total example features pred Hpred) as (t & ->). simpl.
  destruct (bool_decide _); [apply IH|].
  destruct validate_flag; [eauto|apply IH].
Qed.

(** ** The decoder: one example *)

(** Every chunk adds its candidates at the end, and they are well formed. *)
Lemma feature_body_new (features : list ChunkFeature.t) (feature_index : Z)
    (feature : ChunkFeature.t) (result : RawResult.t F)
    (prelim_predictions : list (PrelimPrediction.t F)) :
  0 <= feature_index ->
  features !! Z.to_nat feature_index = Some feature ->
  exists new,
    feature_body n_best_size max_answer_length feature_index feature result
      prelim_predictions = Ok (prelim_predictions ++ new) /\
    Forall (well_formed_pred features) new.
Proof.
  intros Hfi Hf. unfold feature_body.
  destruct (argmax _ =? 1).
  - destruct (argmax _ =? 1); eexists; (split; [reflexivity|]);
      apply Forall_singleton; (split; [done|]); exists feature; simpl; eauto.
  - destruct (start_index_loop_spec feature_index feature result
                (_get_best_indexes (RawResult.start_logits result) n_best_size)
                (_get_best_indexes (RawResult.end_logits result) n_best_size)
                prelim_predictions) as (new & -> & Hnew).
    { intros si. apply _get_best_indexes_lookup. }
    { intros ei. apply _get_best_indexes_lookup. }
    exists new. split; [done|]. apply Forall_forall. intros p Hp.
    apply Hnew in Hp as (si & ei & s & e & _ & _ & _ & _ & Hv & ->).
    destruct Hv as (_ & _ & ? & ? & _).
    split; [done|]. exists feature. simpl. eauto.
Qed.

Lemma collect_prelim_predictions_total
    (unique_id_to_result : gmap Z (RawResult.t F))
    (features : list ChunkFeature.t) :
  (forall feature, feature ∈ features ->
     is_Some (unique_id_to_result !! ChunkFeature.unique_id feature)) ->
  exists preds,
    collect_prelim_predictions n_best_size max_answer_length
      unique_id_to_result features = Ok preds /\
    Forall (well_formed_pred features) preds.
Proof.
  intros Hres. unfold collect_prelim_predictions.
  apply (for_each_succeeds (Forall (well_formed_pred features)));
    [|by apply Forall_nil].
  intros preds [fi feature] [Hfi Hf]%elem_of_enumerate Hpreds.
  destruct (Hres feature) as [result Hresult].
  { by eapply list_elem_of_lookup_2. }
  unfold dict_get. rewrite Hresult. simpl.
  destruct (feature_body_new features fi feature result preds Hfi Hf)
    as (new & -> & Hnew).
  eexists. split; [done|]. by apply Forall_app.
Qed.

(** The ranked entries of an example are what the loop keeps, or the
    placeholder when it keeps nothing. *)
Lemma example_nbest_spec (unique_id_to_result : gmap Z (RawResult.t F))
    (example : CoQAExample.t) (features : list ChunkFeature.t)
    (nbest : list (NbestPrediction.t F)) :
  example_nbest n_best_size max_answer_length do_lower_case verbose_logging
    validate_flag unique_id_to_result example features = Ok nbest ->
  exists preds kept,
    collect_prelim_predictions n_best_size max_answer_length
      unique_id_to_result features = Ok preds /\
    nbest_loop n_best_size do_lower_case verbose_logging validate_flag example
      features (sorted_reverse PrelimPrediction.logit preds) ∅ [] = Ok kept /\
    nbest = match kept with
            | [] => [NbestPrediction.mk (Some "empty"%string) score_zero]
            | _ :: _ => kept
            end.
Proof.
  unfold example_nbest.
  intros (preds & Hpreds & (kept & Hkept & H)%bind_Ok)%bind_Ok.
  exists preds, kept. split; [done|]. split; [done|].
  apply bind_Ok in H as (_ & _ & [= <-]).
  by destruct kept.
Qed.

Lemma example_nbest_total (unique_id_to_result : gmap Z (RawResult.t F))
    (example : CoQAExample.t) (features : list ChunkFeature.t) :
  (forall feature, feature ∈ features ->
     is_Some (unique_id_to_result !! ChunkFeature.unique_id feature)) ->
  exists first rest,
    example_nbest n_best_size max_answer_length do_lower_case verbose_logging
      validate_flag unique_id_to_result example features = Ok (first :: rest).
Proof.
  intros Hres. unfold example_nbest.
  destruct (collect_prelim_predictions_total _ _ Hres) as (preds & -> & Hwf).
  simpl.
  destruct (nbest_loop_total example features
              (sorted_reverse PrelimPrediction.logit preds) ∅ [])
    as (kept & ->).
  { by rewrite sorted_reverse_perm. }
  simpl. destruct kept as [|first rest]; simpl.
  - eauto.
  - assert ((len (first :: rest) >=? 1) = true) as ->; [|simpl; eauto].
    rewrite len_cons. pose proof (len_nonneg rest). lia.
Qed.

(** ** The decoder: the output *)

Lemma total_scores_spec (nbest : list (NbestPrediction.t F)) (acc : list F) :
  fold_left (fun total_scores entry => total_scores ++ [NbestPrediction.logit entry])
    nbest acc
  = acc ++ map NbestPrediction.logit nbest.
Proof.
  revert acc. induction nbest as [|entry nbest IH]; intros acc; simpl.
  - by rewrite app_nil_r.
  - by rewrite IH, <- app_assoc.
Qed.

Lemma enumerate_snd {A : Type} (l : list A) : map snd (enumerate l) = l.
Proof.
  unfold enumerate. apply list_eq. intros i.
  rewrite list_lookup_fmap, list_lookup_imap.
  by destruct (l !! i).
Qed.

Lemma enumerate_length {A : Type} (l : list A) :
  length (enumerate l) = length l.
Proof. unfold enumerate. apply length_imap. Qed.

(** Every entry of [nbest] gets one output record, with its text and its
    logit. *)
Lemma nbest_json_loop_spec (probs : list F)
    (l : list (Z * NbestPrediction.t F)) (js0 js : list (NbestOutput.t F)) :
  for_each l
    (fun nbest_json '(i, entry) =>
       prob ← py_index probs i;
       Ok (nbest_json ++
           [NbestOutput.mk (NbestPrediction.text entry) prob
              (NbestPrediction.logit entry)]))
    js0 = Ok js ->
  map (fun o => (NbestOutput.text o, NbestOutput.logit o)) js
  = map (fun o => (NbestOutput.text o, NbestOutput.logit o)) js0
    ++ map (fun e => (NbestPrediction.text e, NbestPrediction.logit e))
         (map snd l).
Proof.
  revert js0. induction l as [|[i entry] l IH]; intros js0; simpl.
  - intros [= <-]. by rewrite app_nil_r.
  - intros (js1 & (prob & _ & [= <-])%bind_Ok & Hrest)%bind_Ok.
    rewrite (IH _ Hrest), map_app, <- app_assoc. done.
Qed.

Lemma nbest_json_of_spec (nbest : list (NbestPrediction.t F))
    (nbest_json : list (NbestOutput.t F)) :
  nbest_json_of nbest = Ok nbest_json ->
  map (fun o => (NbestOutput.text o, NbestOutput.logit o)) nbest_json
  = map (fun e => (NbestPrediction.text e, NbestPrediction.logit e)) nbest.
Proof.
  unfold nbest_json_of. intros H%nbest_json_loop_spec.
  by rewrite enumerate_snd in H.
Qed.

Lemma nbest_json_of_total (nbest : list (NbestPrediction.t F)) :
  (forall scores, length (_compute_softmax scores) = length scores) ->
  exists nbest_json, nbest_json_of nbest = Ok nbest_json.
Proof.
  intros Hsoft. unfold nbest_json_of.
  destruct (for_each_succeeds (fun _ : list (NbestOutput.t F) => True)
              (enumerate nbest)
              (fun nbest_json '(i, entry) =>
                 prob ← py_index
                          (_compute_softmax
                             (fold_left
                                (fun total_scores entry =>
                                   total_scores ++ [NbestPrediction.logit entry])
                                nbest [])) i;
                 Ok (nbest_json ++
                     [NbestOutput.mk (NbestPrediction.text entry) prob
                        (NbestPrediction.logit entry)]))
              []) as (js & Hjs & _); [|done|eauto].
  intros js [i entry] [Hi Hentry]%elem_of_enumerate _.
  destruct (py_index_in_range
              (_compute_softmax
                 (fold_left
                    (fun total_scores entry =>
                       total_scores ++ [NbestPrediction.logit entry])
                    nbest [])) i) as (prob & -> & _).
  { apply lookup_lt_Some in Hentry. unfold len.
    rewrite Hsoft, total_scores_spec. simpl. rewrite length_map. lia. }
  simpl. eauto.
Qed.

(** [example_index_to_features[k]] holds the features of example [k], in
    their order. *)
Lemma group_features_loop (all_features : list ChunkFeature.t)
    (m : gmap Z (list ChunkFeature.t)) (k : Z) :
  default []
    (fold_left
       (fun example_index_to_features feature =>
          let k := ChunkFeature.example_index feature in
          <[k := default [] (example_index_to_features !! k) ++ [feature]]>
            example_index_to_features)
       all_features m !! k)
  = default [] (m !! k)
    ++ filter (fun feature => ChunkFeature.example_index feature = k)
         all_features.
Proof.
  revert m. induction all_features as [|f fs IH]; intros m; simpl.
  - by rewrite app_nil_r.
  - rewrite IH. rewrite filter_cons.
    destruct (decide (ChunkFeature.example_index f = k)) as [->|Hne].
    + rewrite lookup_insert_eq. simpl. by rewrite <- app_assoc.
    + by rewrite lookup_insert_ne.
Qed.

Lemma group_features_spec (all_features : list ChunkFeature.t) (k : Z) :
  default [] (group_features all_features !! k)
  = filter (fun feature => ChunkFeature.example_index feature = k) all_features.
Proof. unfold group_features. by rewrite group_features_loop, lookup_empty. Qed.

Lemma py_index_head {A : Type} (l : list A) (x : A) :
  py_index l 0 = Ok x -> exists rest, l = x :: rest.
Proof.
  intros [_ Hx]%py_index_Ok. simpl in Hx.
  destruct l as [|y rest]; [done|]. injection Hx as ->. eauto.
Qed.

Lemma prediction_body_validate
    (example_index_to_features : gmap Z (list ChunkFeature.t))
    (unique_id_to_result : gmap Z (RawResult.t F))
    (m : gmap (string * Z) (option string)) (ap : list Prediction.t)
    (an : list (NbestJson.t F)) (i : Z) (example : CoQAExample.t)
    (st' : gmap (string * Z) (option string) * list Prediction.t
           * list (NbestJson.t F)) :
  validate_flag = true ->
  prediction_body n_best_size max_answer_length do_lower_case verbose_logging
    validate_flag example_index_to_features unique_id_to_result (m, ap, an)
    (i, example) = Ok st' ->
  exists first rest,
    example_nbest n_best_size max_answer_length do_lower_case verbose_logging
      validate_flag unique_id_to_result example
      (default [] (example_index_to_features !! i)) = Ok (first :: rest) /\
    st' = (<[example_key example := NbestPrediction.text first]> m, ap, an).
Proof.
  intros Hv. unfold prediction_body.
  intros (nbest & Hnbest & H)%bind_Ok. rewrite Hv in H.
  apply bind_Ok in H as (first & Hfirst & [= <-]).
  apply py_index_head in Hfirst as (rest & ->). eauto.
Qed.

Lemma prediction_body_full
    (example_index_to_features : gmap Z (list ChunkFeature.t))
    (unique_id_to_result : gmap Z (RawResult.t F))
    (m : gmap (string * Z) (option string)) (ap : list Prediction.t)
    (an : list (NbestJson.t F)) (i : Z) (example : CoQAExample.t)
    (st' : gmap (string * Z) (option string) * list Prediction.t
           * list (NbestJson.t F)) :
  validate_flag = false ->
  prediction_body n_best_size max_answer_length do_lower_case verbose_logging
    validate_flag example_index_to_features unique_id_to_result (m, ap, an)
    (i, example) = Ok st' ->
  exists nbest best answers,
    example_nbest n_best_size max_answer_length do_lower_case verbose_logging
      validate_flag unique_id_to_result example
      (default [] (example_index_to_features !! i)) = Ok nbest /\
    nbest_json_of nbest = Ok (best :: answers) /\
    st' = (m,
           ap ++ [Prediction.mk (CoQAExample.paragraph_id example)
                    (CoQAExample.turn_id example) (NbestOutput.text best)],
           an ++ [NbestJson.mk (CoQAExample.paragraph_id example)
                    (CoQAExample.turn_id example) (best :: answers)]).
Proof.
  intros Hv. unfold prediction_body.
  intros (nbest & Hnbest & H)%bind_Ok. rewrite Hv in H.
  apply bind_Ok in H as (js & Hjs & H).
  apply bind_Ok in H as (_ & _ & H).
  apply bind_Ok in H as (best & Hbest & [= <-]).
  apply py_index_head in Hbest as (answers & ->).
  exists nbest, best, answers. done.
Qed.



(** An entry, once written, stays. *)
Lemma validate_loop_keeps
    (example_index_to_features : gmap Z (list ChunkFeature.t))
    (unique_id_to_result : gmap Z (RawResult.t F))
    (l : list (Z * CoQAExample.t))
    (st st' : gmap (string * Z) (option string) * list Prediction.t
              * list (NbestJson.t F)) (k : string * Z) :
  validate_flag = true ->
  for_each l
    (prediction_body n_best_size max_answer_length do_lower_case
       verbose_logging validate_flag example_index_to_features
       unique_id_to_result) st = Ok st' ->
  is_Some (fst (fst st) !! k) -> is_Some (fst (fst st') !! k).
Proof.
  intros Hv Hrun Hst. revert Hst Hrun.
  apply (for_each_invariant (fun s => is_Some (fst (fst s) !! k))).
  intros [[m ap] an] [i ex] s' _ Hs Hbody.
  apply prediction_body_validate in Hbody as (first & rest & _ & ->); [|done].
  simpl in *. destruct (decide (example_key ex = k)) as [->|Hne].
  - rewrite lookup_insert_eq. eauto.
  - by rewrite lookup_insert_ne.
Qed.

Lemma validate_loop_has_entry
    (example_index_to_features : gmap Z (list ChunkFeature.t))
    (unique_id_to_result : gmap Z (RawResult.t F))
    (l : list (Z * CoQAExample.t)) (i : Z) (example : CoQAExample.t)
    (st st' : gmap (string * Z) (option string) * list Prediction.t
              * list (NbestJson.t F)) :
  validate_flag = true ->
  for_each l
    (prediction_body n_best_size max_answer_length do_lower_case
       verbose_logging validate_flag example_index_to_features
       unique_id_to_result) st = Ok st' ->
  (i, example) ∈ l ->
  is_Some (fst (fst st') !! example_key example).
Proof.
  intros Hv. revert st.
  induction l as [|[j ex] l IH]; intros st; simpl; [by intros _ ?%elem_of_nil|].
  intros (s & Hbody & Hrest)%bind_Ok [[= -> ->]|Hin]%elem_of_cons.
  - destruct st as [[m ap] an].
    apply prediction_body_validate in Hbody as (first & rest & _ & ->); [|done].
    apply (validate_loop_keeps _ _ _ _ _ _ Hv Hrest). simpl.
    rewrite lookup_insert_eq. eauto.
  - by apply (IH s).
Qed.

(** Outside validation mode every example adds one record to each of the
    two lists, with its identifiers and a list of answers that is not
    empty. *)
Lemma full_loop_spec
    (example_index_to_features : gmap Z (list ChunkFeature.t))
    (unique_id_to_result : gmap Z (RawResult.t F))
    (l : list (Z * CoQAExample.t))
    (m m' : gmap (string * Z) (option string)) (ap ap' : list Prediction.t)
    (an an' : list (NbestJson.t F)) :
  validate_flag = false ->
  for_each l
    (prediction_body n_best_size max_answer_length do_lower_case
       verbose_logging validate_flag example_index_to_features
       unique_id_to_result) (m, ap, an) = Ok (m', ap', an') ->
  exists newp newn,
    ap' = ap ++ newp /\ an' = an ++ newn /\
    Forall2
      (fun p '(i, example) =>
         Prediction.id p = CoQAExample.paragraph_id example /\
         Prediction.turn_id p = CoQAExample.turn_id example)
      newp l /\
    Forall2
      (fun n '(i, example) =>
         NbestJson.id n = CoQAExample.paragraph_id example /\
         NbestJson.turn_id n = CoQAExample.turn_id example /\
         NbestJson.answers n <> [] /\
         exists nbest,
           example_nbest n_best_size max_answer_length do_lower_case
             verbose_logging validate_flag unique_id_to_result example
             (default [] (example_index_to_features !! i)) = Ok nbest /\
           map (fun o => (NbestOutput.text o, NbestOutput.logit o))
             (NbestJson.answers n)
           = map (fun e => (NbestPrediction.text e, NbestPrediction.logit e))
               nbest)
      newn l.
Proof.
  intros Hv. revert m ap an.
  induction l as [|[i ex] l IH]; intros m ap an; simpl.
  - intros [= <- <- <-]. exists [], []. rewrite !app_nil_r.
    repeat split; constructor.
  - intros (st & Hbody & Hrest)%bind_Ok.
    apply prediction_body_full in Hbody
      as (nbest & best & answers & Hnbest & Hjs & ->); [|done].
    destruct (IH _ _ _ Hrest) as (newp & newn & Hap & Han & Hp & Hn).
    eexists (_ :: newp), (_ :: newn).
    rewrite Hap, Han, <- !app_assoc. simpl.
    split; [done|]. split; [done|]. split.
    + constructor; [|done]. done.
    + constructor; [|done]. simpl. split; [done|]. split; [done|].
      split; [done|]. exists nbest. split; [done|].
      apply (nbest_json_of_spec _ _ Hjs).
Qed.

(** [unique_id_to_result] has an entry for every result. *)
Lemma index_results_loop (all_results : list (RawResult.t F))
    (m : gmap Z (RawResult.t F)) (k : Z) :
  is_Some (m !! k) \/
  (exists result, result ∈ all_results /\ RawResult.unique_id result = k) ->
  is_Some
    (fold_left
       (fun unique_id_to_result result =>
          <[RawResult.unique_id result := result]> unique_id_to_result)
       all_results m !! k).
Proof.
  revert m. induction all_results as [|r rs IH]; intros m; simpl.
  - intros [?|(? & []%elem_of_nil & _)]. done.
  - intros [Hm|(r' & [->|Hin]%elem_of_cons & Hk)]; apply IH.
    + left. destruct (decide (RawResult.unique_id r = k)) as [->|Hne].
      * rewrite lookup_insert_eq. eauto.
      * by rewrite lookup_insert_ne.
    + left. rewrite Hk, lookup_insert_eq. eauto.
    + right. eauto.
Qed.

Lemma index_results_has (all_results : list (RawResult.t F))
    (result : RawResult.t F) :
  result ∈ all_results ->
  is_Some (index_results all_results !! RawResult.unique_id result).
Proof. intros Hin. apply index_results_loop. right. eauto. Qed.

Lemma prediction_body_total
    (all_features : list ChunkFeature.t)
    (unique_id_to_result : gmap Z (RawResult.t F))
    (st : gmap (string * Z) (option string) * list Prediction.t
          * list (NbestJson.t F))
    (i : Z) (example : CoQAExample.t) :
  (forall feature, feature ∈ all_features ->
     is_Some (unique_id_to_result !! ChunkFeature.unique_id feature)) ->
  (validate_flag = false ->
   forall scores, length (_compute_softmax scores) = length scores) ->
  exists st',
    prediction_body n_best_size max_answer_length do_lower_case verbose_logging
      validate_flag (group_features all_features) unique_id_to_result st
      (i, example) = Ok st'.
Proof.
  intros Hres Hsoft. destruct st as [[m ap] an]. unfold prediction_body.
  destruct (example_nbest_total unique_id_to_result example
              (default [] (group_features all_features !! i)))
    as (first & rest & ->).
  { intros f Hf. apply Hres. rewrite group_features_spec in Hf.
    by apply list_elem_of_filter in Hf as [_ ?]. }
  simpl. destruct validate_flag eqn:Hv; [eauto|].
  destruct (nbest_json_of_total (first :: rest) (Hsoft eq_refl)) as (js & Hjs).
  rewrite Hjs. simpl.
  pose proof (nbest_json_of_spec _ _ Hjs) as Hmap.
  destruct js as [|best answers]; [discriminate|].
  assert ((len (best :: answers) >=? 1) = true) as ->.
  { rewrite len_cons. pose proof (len_nonneg answers). lia. }
  simpl. eauto.
Qed.

(** [make_predictions] returns when every feature has a result (and, outside
    validation mode, the softmax gives one probability per score). *)
Lemma make_predictions_total (all_examples : list CoQAExample.t)
    (all_features : list ChunkFeature.t) (all_results : list (RawResult.t F)) :
  (forall feature, feature ∈ all_features ->
     exists result, result ∈ all_results /\
       RawResult.unique_id result = ChunkFeature.unique_id feature) ->
  (validate_flag = false ->
   forall scores, length (_compute_softmax scores) = length scores) ->
  exists out,
    make_predictions n_best_size max_answer_length do_lower_case
      verbose_logging validate_flag all_examples all_features all_results
    = Ok out.
Proof.
  intros Hres Hsoft. unfold make_predictions.
  destruct (for_each_succeeds
              (fun _ : gmap (string * Z) (option string) * list Prediction.t
                       * list (NbestJson.t F) => True)
              (enumerate all_examples)
              (prediction_body n_best_size max_answer_length do_lower_case
                 verbose_logging validate_flag (group_features all_features)
                 (index_results all_results))
              (∅, [], [])) as ([[m ap] an] & -> & _); [|done|].
  - intros st [i ex] _ _.
    destruct (prediction_body_total all_features (index_results all_results)
                st i ex) as (st' & ->); [|done|eauto].
    intros f Hf. destruct (Hres f Hf) as (r & Hr & <-).
    by apply index_results_has.
  - simpl. destruct validate_flag; eauto.
Qed.

End DecoderFacts.

(** ** The claims about the decoder *)

(** C5: for a chunk that is not a yes/no chunk, a pair of a start index and
    an end index from the two best-index lists becomes a candidate exactly
    when both indexes are below [len(feature.tokens)], both are keys of
    [token_to_orig_map], [token_is_max_context] is true at the start index,
    the end index is not before the start index and the span is at most
    [max_answer_length] long; the candidate's logit is
    [yes_no_flag_logits[0] + start_logits[start_index] +
    end_logits[end_index]]. *)
Theorem span_candidates {F : Type} `{score : Score F}
    (n_best_size max_answer_length feature_index : Z)
    (feature : ChunkFeature.t) (result : RawResult.t F)
    (prelim_predictions : list (PrelimPrediction.t F)) :
  argmax (RawResult.yes_no_flag_logits result) <> 1 ->
  let start_indexes := _get_best_indexes (RawResult.start_logits result) n_best_size in
  let end_indexes := _get_best_indexes (RawResult.end_logits result) n_best_size in
  exists new,
    feature_body n_best_size max_answer_length feature_index feature result
      prelim_predictions = Ok (prelim_predictions ++ new) /\
    (forall p, p ∈ new ->
       PrelimPrediction.start_index p ∈ start_indexes /\
       PrelimPrediction.end_index p ∈ end_indexes /\
       PrelimPrediction.feature_index p = feature_index /\
       PrelimPrediction.text p = None /\
       exists s e,
         RawResult.start_logits result
           !! Z.to_nat (PrelimPrediction.start_index p) = Some s /\
         RawResult.end_logits result
           !! Z.to_nat (PrelimPrediction.end_index p) = Some e /\
         PrelimPrediction.logit p
         = score_add
             (score_add (fst (RawResult.yes_no_flag_logits result)) s) e) /\
    (forall start_index end_index,
       start_index ∈ start_indexes -> end_index ∈ end_indexes ->
       (exists p, p ∈ new /\ PrelimPrediction.start_index p = start_index /\
                  PrelimPrediction.end_index p = end_index)
       <->
       (start_index < len (ChunkFeature.tokens feature) /\
        end_index < len (ChunkFeature.tokens feature) /\
        is_Some (ChunkFeature.token_to_orig_map feature !! start_index) /\
        is_Some (ChunkFeature.token_to_orig_map feature !! end_index) /\
        ChunkFeature.token_is_max_context feature !! start_index = Some true /\
        end_index >= start_index /\
        end_index - start_index + 1 <= max_answer_length)).
Proof.
  intros Hspan start_indexes end_indexes. unfold feature_body.
  replace (argmax (RawResult.yes_no_flag_logits result) =? 1) with false by lia.
  destruct (start_index_loop_spec max_answer_length feature_index feature
              result start_indexes end_indexes prelim_predictions)
    as (new & Hrun & Hnew).
  { intros si. apply _get_best_indexes_lookup. }
  { intros ei. apply _get_best_indexes_lookup. }
  exists new. split; [exact Hrun|]. split.
  - intros p (si & ei & s & e & ? & ? & ? & ? & _ & ->)%Hnew. simpl.
    do 4 (split; [done|]). by exists s, e.
  - intros si ei Hsi Hei. split.
    + intros (p & (si' & ei' & s & e & _ & _ & _ & _ & Hv & ->)%Hnew & <- & <-).
      exact Hv.
    + intros Hv.
      destruct (_get_best_indexes_lookup _ _ _ Hsi) as (_ & s & Hs).
      destruct (_get_best_indexes_lookup _ _ _ Hei) as (_ & e & He).
      exists (PrelimPrediction.mk feature_index si ei None
                (score_add
                   (score_add (fst (RawResult.yes_no_flag_logits result)) s) e)).
      split; [|split; reflexivity].
      apply Hnew. by exists si, ei, s, e.
Qed.

Lemma span_candidates_witness :
  feature_body (score := Sample.q_score) 2 30 0 SampleInput.chunk
    SampleInput.span_result []
  = Ok [PrelimPrediction.mk 0 3 4 None 5.9%Q; PrelimPrediction.mk 0 3 3 None 3.9%Q;
        PrelimPrediction.mk 0 4 4 None 4.9%Q] /\
  exists new,
    feature_body (score := Sample.q_score) 2 30 0 SampleInput.chunk
      SampleInput.span_result [] = Ok ([] ++ new) /\
    ((exists p, p ∈ new /\ PrelimPrediction.start_index p = 4 /\
                PrelimPrediction.end_index p = 3)
     <-> (4 < 6 /\ 3 < 6 /\
          is_Some (ChunkFeature.token_to_orig_map SampleInput.chunk !! 4) /\
          is_Some (ChunkFeature.token_to_orig_map SampleInput.chunk !! 3) /\
          ChunkFeature.token_is_max_context SampleInput.chunk !! 4 = Some true /\
          3 >= 4 /\ 3 - 4 + 1 <= 30)).
Proof.
  split; [vm_compute; reflexivity|].
  destruct (span_candidates (score := Sample.q_score) 2 30 0 SampleInput.chunk
              SampleInput.span_result []) as (new & Hrun & _ & Hpairs).
  { vm_compute. discriminate. }
  exists new. split; [exact Hrun|].
  apply (Hpairs 4 3); vm_compute; repeat constructor.
Defined.




Lemma enumerate_split {A : Type} (l : list A) (i : nat) (x : A) :
  l !! i = Some x ->
  exists l1 l2,
    enumerate l = l1 ++ (Z.of_nat i, x) :: l2 /\
    forall j y, (j, y) ∈ l2 ->
      exists k, j = Z.of_nat k /\ (i < k)%nat /\ l !! k = Some y.
Proof.
  intros Hx. unfold enumerate.
  assert (imap (fun (i : nat) (x : A) => (Z.of_nat i, x)) l
          = imap (fun (i : nat) (x : A) => (Z.of_nat i, x))
              (take i l ++ x :: drop (S i) l)) as ->
    by (by rewrite take_drop_middle).
  rewrite imap_app, imap_cons.
  assert (Hlen : length (take i l) = i).
  { apply length_take_le. apply lookup_lt_Some in Hx. lia. }
  rewrite Hlen, Nat.add_0_r.
  eexists _, _. split; [reflexivity|].
  intros j y (k & z & [= -> ->] & Hk)%elem_of_lookup_imap.
  exists (i + S k)%nat. split; [done|]. split; [lia|].
  rewrite lookup_drop in Hk. rewrite <- Hk. f_equal. lia.
Qed.



(** C8: [make_predictions] returns whenever every feature has a result (and,
    outside validation mode, the softmax gives one probability per score);
    the ranked entries of an example are never empty: they are what the loop
    keeps, or the one placeholder with the text "empty" and the logit 0.0
    when it keeps nothing, as for an example without chunks; and outside
    validation mode each of the two returned lists has one record per
    example, in order, with a list of answers that is not empty. *)
Theorem never_zero_candidates {F : Type} `{score : Score F}
    `{qa_util : QaUtil} `{softmax : Softmax F}
    (n_best_size max_answer_length : Z)
    (do_lower_case verbose_logging validate_flag : bool) :
  (forall (all_examples : list CoQAExample.t)
          (all_features : list ChunkFeature.t)
          (all_results : list (RawResult.t F)),
      (forall feature, feature ∈ all_features ->
         exists result, result ∈ all_results /\
           RawResult.unique_id result = ChunkFeature.unique_id feature) ->
      (validate_flag = false ->
       forall scores, length (_compute_softmax scores) = length scores) ->
      exists out,
        make_predictions n_best_size max_answer_length do_lower_case
          verbose_logging validate_flag all_examples all_features all_results
        = Ok out) /\
  (forall (unique_id_to_result : gmap Z (RawResult.t F))
          (example : CoQAExample.t) (features : list ChunkFeature.t)
          (nbest : list (NbestPrediction.t F)),
      example_nbest n_best_size max_answer_length do_lower_case
        verbose_logging validate_flag unique_id_to_result example features
      = Ok nbest ->
      1 <= len nbest /\
      exists preds kept,
        collect_prelim_predictions n_best_size max_answer_length
          unique_id_to_result features = Ok preds /\
        nbest_loop n_best_size do_lower_case verbose_logging validate_flag
          example features (sorted_reverse PrelimPrediction.logit preds) ∅ []
        = Ok kept /\
        (kept = [] ->
         nbest = [NbestPrediction.mk (Some "empty"%string) score_zero]) /\
        (kept <> [] -> nbest = kept)) /\
  (forall (unique_id_to_result : gmap Z (RawResult.t F))
          (example : CoQAExample.t),
      example_nbest n_best_size max_answer_length do_lower_case
        verbose_logging validate_flag unique_id_to_result example []
      = Ok [NbestPrediction.mk (Some "empty"%string) score_zero]) /\
  (validate_flag = false ->
   forall (all_examples : list CoQAExample.t)
          (all_features : list ChunkFeature.t)
          (all_results : list (RawResult.t F)) (out : predictions F),
     make_predictions n_best_size max_answer_length do_lower_case
       verbose_logging validate_flag all_examples all_features all_results
     = Ok out ->
     exists all_predictions all_nbest_json,
       out = AllPredictions all_predictions all_nbest_json /\
       map (fun p => (Prediction.id p, Prediction.turn_id p)) all_predictions
       = map example_key all_examples /\
       map (fun n => (NbestJson.id n, NbestJson.turn_id n)) all_nbest_json
       = map example_key all_examples /\
       forall n, n ∈ all_nbest_json -> 1 <= len (NbestJson.answers n)).
Proof.
  split; [|split; [|split]].
  - intros all_examples all_features all_results.
    apply make_predictions_total.
  - intros unique_id_to_result example features nbest Hrun.
    apply example_nbest_spec in Hrun as (preds & kept & Hpreds & Hkept & ->).
    split.
    + destruct kept as [|first rest]; [done|].
      rewrite len_cons. pose proof (len_nonneg rest). lia.
    + exists preds, kept. split; [done|]. split; [done|].
      by destruct kept.
  - intros unique_id_to_result example. reflexivity.
  - intros Hv all_examples all_features all_results out.
    unfold make_predictions.
    intros ([[m ap] an] & Hloop & Hout)%bind_Ok.
    rewrite Hv in Hout. injection Hout as <-.
    eapply full_loop_spec in Hloop as (newp & newn & -> & -> & Hp & Hn);
      [|done].
    exists newp, newn. simpl. split; [done|].
    assert (Hkeys : map example_key all_examples
                    = map (fun '(i, ex) => example_key ex)
                        (enumerate all_examples)).
    { rewrite <- (enumerate_snd all_examples) at 1.
      rewrite map_map. apply map_ext. by intros [? ?]. }
    rewrite Hkeys. split; [|split].
    + clear -Hp. induction Hp as [|p [i ex] newp l [Hid Htid] _ IH]; [done|].
      simpl. rewrite IH. unfold example_key. by rewrite Hid, Htid.
    + clear -Hn.
      induction Hn as [|n [i ex] newn l (Hid & Htid & _) _ IH]; [done|].
      simpl. rewrite IH. unfold example_key. by rewrite Hid, Htid.
    + intros n Hin. clear -Hn Hin.
      induction Hn as [|n' [i ex] newn l (_ & _ & Hne & _) _ IH];
        [by apply elem_of_nil in Hin|].
      apply elem_of_cons in Hin as [->|Hin]; [|by apply IH].
      destruct (NbestJson.answers n') as [|a rest]; [done|].
      rewrite len_cons. pose proof (len_nonneg rest). lia.
Qed.

Lemma never_zero_candidates_witness :
  (exists out,
     make_predictions (score := Sample.q_score) (qa_util := Sample.qa_util)
       (softmax := Sample.q_softmax) 2 30 true false false
       [SampleInput.example; SampleInput.other_example] [SampleInput.chunk]
       [SampleInput.span_result] = Ok out) /\
  match make_predictions (score := Sample.q_score) (qa_util := Sample.qa_util)
          (softmax := Sample.q_softmax) 2 30 true false false
          [SampleInput.example; SampleInput.other_example] [SampleInput.chunk]
          [SampleInput.span_result]
  with
  | Ok (AllPredictions all_predictions all_nbest_json) =>
      map Prediction.answer all_predictions
      = [Some "ab"%string; Some "empty"%string] /\
      forall n, n ∈ all_nbest_json -> 1 <= len (NbestJson.answers n)
  | _ => False
  end.
Proof.
  split.
  - apply (proj1 (never_zero_candidates (score := Sample.q_score)
                    (qa_util := Sample.qa_util) (softmax := Sample.q_softmax)
                    2 30 true false false)).
    + intros feature [->|[]%elem_of_nil]%elem_of_cons.
      exists SampleInput.span_result. split; [by left|reflexivity].
    + intros _ scores. apply length_map.
  - destruct (make_predictions _ _ _ _ _ _ _ _) as [out|e] eqn:Hrun;
      [|vm_compute in Hrun; discriminate].
    destruct (proj2 (proj2 (proj2
                (never_zero_candidates (score := Sample.q_score)
                   (qa_util := Sample.qa_util) (softmax := Sample.q_softmax)
                   2 30 true false false)))
                eq_refl _ _ _ out Hrun)
      as (ap & an & -> & _ & _ & Hanswers).
    split; [|exact Hanswers].
    vm_compute in Hrun. injection Hrun as <- _. reflexivity.
Defined.

(** * Further properties of the chunker *)

(** ** The subword document *)

Lemma enumerate_snoc {A : Type} (l : list A) (x : A) :
  enumerate (l ++ [x]) = enumerate l ++ [(len l, x)].
Proof.
  unfold enumerate, len. rewrite imap_app. simpl.
  by rewrite Nat.add_0_r.
Qed.

Lemma lookup_repeat {A : Type} (x : A) (n j : nat) :
  (j < n)%nat -> repeat x n !! j = Some x.
Proof.
  revert j. induction n as [|n IH]; intros j Hj; [lia|].
  destruct j as [|j]; simpl; [done|]. apply IH. lia.
Qed.

Section SubwordDocument.
Context `{tokenizer : Tokenizer}.

Lemma sub_token_loop (i : Z) (sub_tokens : list string)
    (tok_to_orig_index orig_to_tok_index : list Z) (all_doc_tokens : list string) :
  fold_left
    (fun '(tok_to_orig_index, orig_to_tok_index, all_doc_tokens) sub_token =>
       (tok_to_orig_index ++ [i], orig_to_tok_index,
        all_doc_tokens ++ [sub_token]))
    sub_tokens (tok_to_orig_index, orig_to_tok_index, all_doc_tokens)
  = (tok_to_orig_index ++ repeat i (length sub_tokens), orig_to_tok_index,
     all_doc_tokens ++ sub_tokens).
Proof.
  revert tok_to_orig_index all_doc_tokens.
  induction sub_tokens as [|t ts IH]; intros a c; simpl.
  - by rewrite !app_nil_r.
  - by rewrite IH, <- !app_assoc.
Qed.

(** One more word adds its offset and its subword tokens. *)
Lemma tokenize_doc_snoc (doc_tokens : list string) (token : string) :
  tokenize_doc (doc_tokens ++ [token])
  = let '(tok_to_orig_index, orig_to_tok_index, all_doc_tokens) :=
      tokenize_doc doc_tokens in
    (tok_to_orig_index ++ repeat (len doc_tokens) (length (tokenize token)),
     orig_to_tok_index ++ [len all_doc_tokens],
     all_doc_tokens ++ tokenize token).
Proof.
  unfold tokenize_doc at 1. rewrite enumerate_snoc, fold_left_app.
  fold (tokenize_doc doc_tokens).
  destruct (tokenize_doc doc_tokens) as [[a b] c]. simpl.
  apply sub_token_loop.
Qed.

Lemma tokenize_doc_all (doc_tokens : list string) :
  snd (tokenize_doc doc_tokens) = concat (map tokenize doc_tokens).
Proof.
  induction doc_tokens as [|token doc_tokens IH] using rev_ind; [done|].
  rewrite tokenize_doc_snoc.
  destruct (tokenize_doc doc_tokens) as [[a b] c]. simpl in *.
  rewrite map_app, concat_app. simpl. rewrite app_nil_r. by rewrite IH.
Qed.

Lemma tokenize_doc_lengths (doc_tokens : list string) :
  let '(tok_to_orig_index, orig_to_tok_index, all_doc_tokens) :=
    tokenize_doc doc_tokens in
  length tok_to_orig_index = length all_doc_tokens /\
  length orig_to_tok_index = length doc_tokens.
Proof.
  induction doc_tokens as [|token doc_tokens IH] using rev_ind; [done|].
  rewrite tokenize_doc_snoc.
  destruct (tokenize_doc doc_tokens) as [[a b] c].
  rewrite !length_app, repeat_length. simpl. lia.
Qed.

Lemma tokenize_doc_words (doc_tokens : list string) (i : nat) (token : string) :
  doc_tokens !! i = Some token ->
  let '(tok_to_orig_index, orig_to_tok_index, all_doc_tokens) :=
    tokenize_doc doc_tokens in
  let offset := length (concat (map tokenize (take i doc_tokens))) in
  orig_to_tok_index !! i = Some (Z.of_nat offset) /\
  forall (j : nat) (sub_token : string),
    tokenize token !! j = Some sub_token ->
    all_doc_tokens !! (offset + j)%nat = Some sub_token /\
    tok_to_orig_index !! (offset + j)%nat = Some (Z.of_nat i).
Proof.
  revert i token.
  induction doc_tokens as [|last doc_tokens IH] using rev_ind;
    intros i token Hi; [done|].
  rewrite tokenize_doc_snoc.
  pose proof (tokenize_doc_lengths doc_tokens) as Hlen.
  pose proof (tokenize_doc_all doc_tokens) as Hall.
  destruct (tokenize_doc doc_tokens) as [[a b] c] eqn:Hdoc.
  simpl in Hall. destruct Hlen as [Ha Hb].
  destruct (decide (i < length doc_tokens)%nat) as [Hlt|Hge].
  - rewrite lookup_app_l in Hi by done.
    specialize (IH i token Hi). simpl in IH.
    rewrite take_app_le by lia.
    destruct IH as [Hoff Hsub]. split.
    + rewrite lookup_app_l; [done|]. by apply lookup_lt_Some in Hoff.
    + intros j sub Hj. destruct (Hsub j sub Hj) as [Hc Hto].
      split; rewrite lookup_app_l; try done.
      * by apply lookup_lt_Some in Hc.
      * by apply lookup_lt_Some in Hto.
  - assert (i = length doc_tokens) as ->.
    { apply lookup_lt_Some in Hi. rewrite length_app in Hi. simpl in Hi. lia. }
    rewrite list_lookup_middle in Hi by done. injection Hi as ->.
    rewrite take_app_length. rewrite <- Hall. split.
    + rewrite <- Hb. rewrite list_lookup_middle by done. done.
    + intros j sub Hj. split.
      * by rewrite lookup_app_r, Nat.add_sub' by lia.
      * rewrite <- Ha, lookup_app_r, Nat.add_sub' by lia.
        apply lookup_repeat. by apply lookup_lt_Some in Hj.
Qed.

(** Every subword token comes from the word that [tok_to_orig_index] gives
    for it, and [tok_to_orig_index] never decreases. *)
Lemma tokenize_doc_back (doc_tokens : list string) :
  let '(tok_to_orig_index, orig_to_tok_index, all_doc_tokens) :=
    tokenize_doc doc_tokens in
  (forall (k : nat) (v : Z),
     tok_to_orig_index !! k = Some v ->
     0 <= v < len doc_tokens /\
     exists token sub_token,
       doc_tokens !! Z.to_nat v = Some token /\
       sub_token ∈ tokenize token /\
       all_doc_tokens !! k = Some sub_token) /\
  (forall (j k : nat) (v w : Z),
     (j <= k)%nat -> tok_to_orig_index !! j = Some v ->
     tok_to_orig_index !! k = Some w -> v <= w).
Proof.
  induction doc_tokens as [|last doc_tokens IH] using rev_ind.
  { split; [by intros k v [=]|by intros j k v w _ [=]]. }
  rewrite tokenize_doc_snoc.
  pose proof (tokenize_doc_lengths doc_tokens) as Hlen.
  destruct (tokenize_doc doc_tokens) as [[a b] c].
  destruct Hlen as [Ha Hb]. destruct IH as [Hback Hmono].
  assert (Hnew : forall (k : nat) (v : Z),
            (a ++ repeat (len doc_tokens) (length (tokenize last))) !! k = Some v ->
            (k < length a)%nat /\ a !! k = Some v \/
            (length a <= k)%nat /\ v = len doc_tokens /\
            (k - length a < length (tokenize last))%nat).
  { intros k v Hk. apply lookup_app_Some in Hk as [Hk|[Hge Hk]].
    - left. split; [by apply lookup_lt_Some in Hk|done].
    - right. split; [done|].
      pose proof (lookup_lt_Some _ _ _ Hk) as Hlt.
      rewrite repeat_length in Hlt. split; [|done].
      rewrite lookup_repeat in Hk by done. congruence. }
  split.
  - intros k v Hk. rewrite len_app.
    destruct (Hnew k v Hk) as [[Hlt Hk']|(Hge & -> & Hlt)].
    + destruct (Hback k v Hk') as (Hv & token & sub & Htoken & Hsub & Hc).
      split; [pose proof (len_nonneg [last]); lia|].
      exists token, sub. split; [|split; [done|]].
      * rewrite lookup_app_l; [done|]. unfold len in Hv. lia.
      * rewrite lookup_app_l; [done|]. by apply lookup_lt_Some in Hc.
    + split; [unfold len; simpl; lia|].
      destruct (lookup_lt_is_Some_2 (tokenize last) (k - length a)) as [sub Hsub];
        [done|].
      exists last, sub. unfold len. rewrite Nat2Z.id.
      split; [by rewrite list_lookup_middle|].
      split; [by eapply list_elem_of_lookup_2|].
      rewrite lookup_app_r by lia. by rewrite <- Ha.
  - intros j k v w Hjk Hj Hk.
    destruct (Hnew j v Hj) as [[Hlt1 Hj']|(Hge1 & -> & _)];
      destruct (Hnew k w Hk) as [[Hlt2 Hk']|(Hge2 & -> & _)].
    + by apply (Hmono j k).
    + destruct (Hback j v Hj') as [? _]. lia.
    + lia.
    + lia.
Qed.

End SubwordDocument.

(** X1: the document in subword tokens is the concatenation of the words'
    tokens; [tok_to_orig_index] has one entry per subword token and
    [orig_to_tok_index] one per word; word [i] has its first subword token at
    the offset recorded in [orig_to_tok_index[i]], which is the number of
    subword tokens of the words before it, and each of its subword tokens
    maps back to [i] in [tok_to_orig_index]. *)
Theorem subword_alignment `{tokenizer : Tokenizer} (doc_tokens : list string) :
  let '(tok_to_orig_index, orig_to_tok_index, all_doc_tokens) :=
    tokenize_doc doc_tokens in
  all_doc_tokens = concat (map tokenize doc_tokens) /\
  length tok_to_orig_index = length all_doc_tokens /\
  length orig_to_tok_index = length doc_tokens /\
  forall (i : nat) (token : string),
    doc_tokens !! i = Some token ->
    let offset := length (concat (map tokenize (take i doc_tokens))) in
    orig_to_tok_index !! i = Some (Z.of_nat offset) /\
    forall (j : nat) (sub_token : string),
      tokenize token !! j = Some sub_token ->
      all_doc_tokens !! (offset + j)%nat = Some sub_token /\
      tok_to_orig_index !! (offset + j)%nat = Some (Z.of_nat i).
Proof.
  pose proof (tokenize_doc_all doc_tokens) as Hall.
  pose proof (tokenize_doc_lengths doc_tokens) as Hlen.
  pose proof (tokenize_doc_words doc_tokens) as Hwords.
  destruct (tokenize_doc doc_tokens) as [[a b] c]. simpl in Hall.
  destruct Hlen as [Ha Hb]. split; [done|]. split; [done|]. split; [done|].
  intros i token Hi. apply (Hwords i token Hi).
Qed.

(** ** The windows of a finished run *)

(** A run that cannot reach the end of the document in one window and does
    not step forward does not finish. *)
Lemma window_chain_stuck (L B D s : Z) (ws : list DocSpan.t) :
  window_chain L B D s ws -> s < L -> B < L - s -> Z.min B D <= 0 -> False.
Proof.
  intros Hc. induction Hc as [s Hs|s Hs He|s ws Hs He Hc IH]; intros Hlt HB Hstep.
  - lia.
  - lia.
  - apply IH; lia.
Qed.

Lemma window_chain_cover (L B D s : Z) (ws : list DocSpan.t) :
  window_chain L B D s ws ->
  Forall (fun w => s <= DocSpan.start w /\ 1 <= DocSpan.length w /\
                   DocSpan.start w + DocSpan.length w <= L) ws /\
  (forall i w w', ws !! i = Some w -> ws !! S i = Some w' ->
     DocSpan.start w < DocSpan.start w' <= DocSpan.start w + DocSpan.length w) /\
  (forall k, s <= k < L ->
     exists w, w ∈ ws /\ DocSpan.start w <= k < DocSpan.start w + DocSpan.length w).
Proof.
  intros Hc. induction Hc as [s Hs|s Hs He|s ws Hs He Hc IH].
  - split; [constructor|]. split; [by intros i w w' [=]|]. intros k Hk. lia.
  - split; [|split].
    + apply Forall_singleton. simpl. lia.
    + intros [|i] w w' _ [=].
    + intros k Hk. eexists. split; [by left|]. simpl. lia.
  - assert (HB : B < L - s) by lia.
    assert (Hstep : 1 <= Z.min B D).
    { destruct (Z_lt_le_dec 0 (Z.min B D)) as [?|Hle]; [lia|].
      exfalso. apply (window_chain_stuck _ _ _ _ _ Hc); lia. }
    replace (Z.min B (L - s)) with B in * by lia.
    destruct IH as (Hall & Hadj & Hcov). split; [|split].
    + constructor; [simpl; lia|].
      eapply Forall_impl; [exact Hall|]. simpl. intros w ?. lia.
    + intros [|i] w w'; simpl.
      * intros [= <-] Hw'. simpl.
        pose proof (window_chain_head _ _ _ _ _ _ Hc Hw') as ->. lia.
      * apply Hadj.
    + intros k Hk.
      destruct (Z_lt_le_dec k (s + Z.min B D)) as [Hk1|Hk2].
      * eexists. split; [by left|]. simpl. lia.
      * destruct (Hcov k ltac:(lia)) as (w & Hw & ?).
        exists w. split; [by right|done].
Qed.

(** X2: the windows of a finished run start at 0 or later, hold at least one
    subword token and end within the document; each next window starts after
    the one before it and no later than where that one ends, so there is no
    gap; every subword token of the document lies in some window. *)
Theorem windows_cover_document (fuel : nat) (L B D : Z) (ws : list DocSpan.t) :
  sliding_windows fuel L B D = Some ws ->
  (forall w, w ∈ ws ->
     0 <= DocSpan.start w /\ 1 <= DocSpan.length w /\
     DocSpan.start w + DocSpan.length w <= L) /\
  (forall i w w', ws !! i = Some w -> ws !! S i = Some w' ->
     DocSpan.start w < DocSpan.start w' <= DocSpan.start w + DocSpan.length w) /\
  (forall k, 0 <= k < L ->
     exists w, w ∈ ws /\ DocSpan.start w <= k < DocSpan.start w + DocSpan.length w).
Proof.
  intros Hrun. apply doc_spans_loop_chain in Hrun.
  destruct (window_chain_cover _ _ _ _ _ Hrun) as (Hall & Hadj & Hcov).
  split; [|split; [exact Hadj|exact Hcov]].
  intros w Hw. apply (proj1 (Forall_forall _ _) Hall w Hw).
Qed.

Lemma windows_cover_document_witness :
  exists w, w ∈ [DocSpan.mk 0 4; DocSpan.mk 2 4; DocSpan.mk 4 4] /\
            DocSpan.start w <= 7 < DocSpan.start w + DocSpan.length w.
Proof.
  apply (proj2 (proj2 (windows_cover_document 3 8 4 2
                         [DocSpan.mk 0 4; DocSpan.mk 2 4; DocSpan.mk 4 4]
                         eq_refl))).
  lia.
Defined.

(** ** The layout of a chunk *)

Lemma for_each_app {A St : Type} (l1 l2 : list A) (body : St -> A -> outcome St)
    (st : St) :
  for_each (l1 ++ l2) body st = for_each l1 body st ≫= for_each l2 body.
Proof.
  revert st. induction l1 as [|x l1 IH]; intros st; simpl; [done|].
  destruct (body st x) as [s|e]; simpl; [apply IH|done].
Qed.

Section ChunkLayout.
Context `{tokenizer : Tokenizer} `{qa_util : QaUtil}.

(** The loop over the positions of a window, after [m] passes. *)
Lemma doc_token_loop_spec (doc_spans : list DocSpan.t) (doc_span_index : Z)
    (doc_span : DocSpan.t) (tok_to_orig_index : list Z)
    (all_doc_tokens : list string) (m : nat)
    (tokens0 tokens : list string) (om0 om : gmap Z Z) (cm0 cm : gmap Z bool)
    (seg0 seg : list Z) :
  0 <= DocSpan.start doc_span ->
  for_each (map Z.of_nat (seq 0 m))
    (doc_token_body doc_spans doc_span_index doc_span tok_to_orig_index
       all_doc_tokens)
    (tokens0, om0, cm0, seg0) = Ok (tokens, om, cm, seg) ->
  let start := DocSpan.start doc_span in
  tokens = tokens0 ++ take m (drop (Z.to_nat start) all_doc_tokens) /\
  length (take m (drop (Z.to_nat start) all_doc_tokens)) = m /\
  seg = seg0 ++ repeat 1 m /\
  (forall p,
     om !! p = if decide (len tokens0 <= p < len tokens0 + Z.of_nat m)
               then tok_to_orig_index !! Z.to_nat (start + (p - len tokens0))
               else om0 !! p) /\
  (forall p,
     cm !! p = if decide (len tokens0 <= p < len tokens0 + Z.of_nat m)
               then Some (_check_is_max_context doc_spans doc_span_index
                            (start + (p - len tokens0)))
               else cm0 !! p) /\
  (forall i, (i < m)%nat ->
     is_Some (tok_to_orig_index !! (Z.to_nat start + i)%nat)).
Proof.
  intros Hstart. revert tokens om cm seg.
  induction m as [|m IH]; intros tokens om cm seg.
  { simpl. intros [= <- <- <- <-]. rewrite !app_nil_r.
    repeat split; try done; try (intros p; by rewrite decide_False by lia).
    intros i Hi. lia. }
  rewrite seq_S, map_app, for_each_app. simpl.
  intros ([[[tokens1 om1] cm1] seg1] & Hloop & Hlast)%bind_Ok.
  destruct (IH _ _ _ _ Hloop) as (-> & Hlen & -> & Hom & Hcm & Hread).
  apply bind_Ok in Hlast as (st & Hbody & [= ->]).
  unfold doc_token_body in Hbody.
  apply bind_Ok in Hbody as (orig & Horig & Hbody).
  apply bind_Ok in Hbody as (token & Htoken & [= <- <- <- <-]).
  apply py_index_Ok in Horig as [_ Horig], Htoken as [_ Htoken].
  replace (DocSpan.start doc_span + Z.of_nat m <? 0) with false
    in Horig, Htoken by lia.
  replace (Z.to_nat (DocSpan.start doc_span + Z.of_nat m))
    with (Z.to_nat (DocSpan.start doc_span) + m)%nat in Horig, Htoken by lia.
  assert (Htake : take (S m) (drop (Z.to_nat (DocSpan.start doc_span))
                                all_doc_tokens)
                  = take m (drop (Z.to_nat (DocSpan.start doc_span))
                              all_doc_tokens) ++ [token]).
  { apply take_S_r. by rewrite lookup_drop. }
  assert (Hlen1 : len (tokens0
                       ++ take m (drop (Z.to_nat (DocSpan.start doc_span))
                                    all_doc_tokens))
                  = len tokens0 + Z.of_nat m).
  { rewrite len_app. unfold len at 2. by rewrite Hlen. }
  rewrite Hlen1. split; [by rewrite Htake, app_assoc|].
  split; [rewrite Htake, length_app, Hlen; simpl; lia|].
  split; [by rewrite repeat_cons, app_assoc|].
  split; [|split].
  - intros p. destruct (decide (p = len tokens0 + Z.of_nat m)) as [->|Hne].
    + rewrite lookup_insert_eq, decide_True by lia.
      rewrite <- Horig. f_equal. lia.
    + rewrite lookup_insert_ne, Hom by done.
      destruct (decide (len tokens0 <= p < len tokens0 + Z.of_nat m));
        [by rewrite decide_True by lia|by rewrite decide_False by lia].
  - intros p. destruct (decide (p = len tokens0 + Z.of_nat m)) as [->|Hne].
    + rewrite lookup_insert_eq, decide_True by lia.
      do 2 f_equal. lia.
    + rewrite lookup_insert_ne, Hcm by done.
      destruct (decide (len tokens0 <= p < len tokens0 + Z.of_nat m));
        [by rewrite decide_True by lia|by rewrite decide_False by lia].
  - intros i Hi. destruct (decide (i = m)) as [->|Hne]; [eauto|].
    apply Hread. lia.
Qed.

(** Everything an emitted feature holds, but its labels. *)
Lemma doc_span_feature_layout (max_seq_length example_index : Z)
    (example : CoQAExample.t) (query_tokens : list string)
    (tok_to_orig_index : list Z) (all_doc_tokens : list string)
    (tok_position : option (Z * Z)) (doc_spans : list DocSpan.t)
    (unique_id doc_span_index : Z) (doc_span : DocSpan.t)
    (feature : ChunkFeature.t) :
  doc_span_feature max_seq_length example_index example query_tokens
    tok_to_orig_index all_doc_tokens tok_position doc_spans unique_id
    doc_span_index doc_span = Ok (Some feature) ->
  0 <= DocSpan.start doc_span ->
  let start := DocSpan.start doc_span in
  let n := Z.to_nat (DocSpan.length doc_span) in
  let window := take n (drop (Z.to_nat start) all_doc_tokens) in
  let offset := len query_tokens + 2 in
  let ids := convert_tokens_to_ids (ChunkFeature.tokens feature) in
  let k := Z.to_nat (max_seq_length - len ids) in
  (ChunkFeature.unique_id feature = unique_id /\
   ChunkFeature.example_index feature = example_index /\
   ChunkFeature.doc_span_index feature = doc_span_index) /\
  (ChunkFeature.tokens feature
   = ["[CLS]"%string] ++ query_tokens ++ ["[SEP]"%string] ++ window
     ++ ["[SEP]"%string] /\
   length window = n) /\
  (ChunkFeature.input_ids feature = ids ++ repeat 0 k /\
   ChunkFeature.input_mask feature = repeat 1 (length ids) ++ repeat 0 k /\
   ChunkFeature.segment_ids feature
   = repeat 0 (length query_tokens + 2) ++ repeat 1 (n + 1) ++ repeat 0 k) /\
  (forall p,
     ChunkFeature.token_to_orig_map feature !! p
     = if decide (offset <= p < offset + Z.of_nat n)
       then tok_to_orig_index !! Z.to_nat (start + (p - offset))
       else None) /\
  (forall p,
     ChunkFeature.token_is_max_context feature !! p
     = if decide (offset <= p < offset + Z.of_nat n)
       then Some (_check_is_max_context doc_spans doc_span_index
                    (start + (p - offset)))
       else None) /\
  (forall i, (i < n)%nat ->
     is_Some (tok_to_orig_index !! (Z.to_nat start + i)%nat)).
Proof.
  unfold doc_span_feature. rewrite query_loop_spec.
  intros ([[[tokens om] cm] seg] & Hloop & H)%bind_Ok Hstart.
  unfold range in Hloop.
  apply doc_token_loop_spec in Hloop
    as (-> & Hlen & -> & Hom & Hcm & Hread); [|done].
  assert (Hoff : len ((([] ++ ["[CLS]"%string]) ++ query_tokens)
                      ++ ["[SEP]"%string]) = len query_tokens + 2)
    by len_lia.
  rewrite Hoff in Hom, Hcm.
  unfold zero_pad in H.
  match type of H with
  | context [pad_loop ?n ?mx ?a ?b ?c] =>
      destruct (pad_loop_spec n mx a b c) as (k & Hpad & Hk); [lia|]
  end.
  rewrite Hpad in H. clear Hpad.
  unfold assert in H.
  apply bind_Ok in H as (u1 & H1 & H).
  apply bind_Ok in H as (u2 & H2 & H).
  apply bind_Ok in H as (u3 & H3 & H).
  destruct (_ =? max_seq_length) eqn:E1 in H1; [|discriminate H1].
  clear H1 H2 H3 u1 u2 u3.
  match type of E1 with
  | context [convert_tokens_to_ids ?t] => set (toks := t) in *
  end.
  assert (Hk' : k = Z.to_nat (max_seq_length - len (convert_tokens_to_ids toks))).
  { rewrite len_app, len_repeat in E1. lia. }
  assert (Htoks : toks = ["[CLS]"%string] ++ query_tokens ++ ["[SEP]"%string]
                         ++ take (Z.to_nat (DocSpan.length doc_span))
                              (drop (Z.to_nat (DocSpan.start doc_span))
                                 all_doc_tokens)
                         ++ ["[SEP]"%string]).
  { unfold toks. by rewrite <- !app_assoc. }
  assert (Hseg : forall (n : nat) (rest : list Z),
            ((((([] ++ [0]) ++ repeat 0 (length query_tokens)) ++ [0])
               ++ repeat 1 n) ++ [1]) ++ rest
            = repeat 0 (length query_tokens + 2) ++ repeat 1 (n + 1) ++ rest).
  { intros n rest.
    replace (length query_tokens + 2)%nat with (S (length query_tokens + 1))
      by lia.
    simpl. rewrite !repeat_app. simpl. by rewrite <- !app_assoc. }
  assert (Hf : exists sg l1 l2 l3 l4,
            feature
            = ChunkFeature.mk unique_id example_index doc_span_index toks om cm
                (convert_tokens_to_ids toks ++ repeat 0 k)
                (repeat 1 (length (convert_tokens_to_ids toks)) ++ repeat 0 k)
                sg l1 l2 l3 l4 /\
            sg = repeat 0 (length query_tokens + 2)
                 ++ repeat 1 (Z.to_nat (DocSpan.length doc_span) + 1)
                 ++ repeat 0 k).
  { destruct tok_position as [[ts te]|];
      [destruct (_ || _); [discriminate|]|];
      injection H as <-; do 5 eexists; (split; [reflexivity|]); apply Hseg. }
  destruct Hf as (sg & l1 & l2 & l3 & l4 & -> & ->). simpl.
  rewrite <- Hk'. done.
Qed.

(** An emitted feature carries the identifiers it was built with. *)
Lemma doc_span_feature_layout_ids (max_seq_length example_index : Z)
    (example : CoQAExample.t) (query_tokens : list string)
    (tok_to_orig_index : list Z) (all_doc_tokens : list string)
    (tok_position : option (Z * Z)) (doc_spans : list DocSpan.t)
    (unique_id doc_span_index : Z) (doc_span : DocSpan.t)
    (feature : ChunkFeature.t) :
  doc_span_feature max_seq_length example_index example query_tokens
    tok_to_orig_index all_doc_tokens tok_position doc_spans unique_id
    doc_span_index doc_span = Ok (Some feature) ->
  ChunkFeature.unique_id feature = unique_id /\
  ChunkFeature.example_index feature = example_index /\
  ChunkFeature.doc_span_index feature = doc_span_index.
Proof.
  unfold doc_span_feature. rewrite query_loop_spec.
  intros ([[[tokens om] cm] seg] & _ & H)%bind_Ok.
  destruct (zero_pad _ _ _ _) as [[ids mask] seg'].
  apply bind_Ok in H as (u1 & _ & H).
  apply bind_Ok in H as (u2 & _ & H).
  apply bind_Ok in H as (u3 & _ & H).
  destruct tok_position as [[ts te]|];
    [destruct (_ || _); [discriminate|]|]; by injection H as <-.
Qed.

End ChunkLayout.

(** ** The features of a run *)

Section FeaturesOfRun.
Context `{tokenizer : Tokenizer} `{qa_util : QaUtil}.
Variables (max_seq_length doc_stride max_query_length : Z).
Variables (is_training append_history : bool).

(** The loop over the windows appends features with consecutive
    identifiers, each made of one of the windows. *)
Lemma doc_spans_features_from (example_index : Z) (example : CoQAExample.t)
    (query_tokens : list string) (tok_to_orig_index : list Z)
    (all_doc_tokens : list string) (tok_position : option (Z * Z))
    (doc_spans : list DocSpan.t) (features features' : list ChunkFeature.t)
    (unique_id unique_id' : Z) :
  doc_spans_features max_seq_length example_index example query_tokens
    tok_to_orig_index all_doc_tokens tok_position doc_spans
    (features, unique_id) = Ok (features', unique_id') ->
  exists new,
    features' = features ++ new /\
    unique_id' = unique_id + len new /\
    (forall (k : nat) f, new !! k = Some f ->
       ChunkFeature.unique_id f = unique_id + Z.of_nat k) /\
    Forall
      (fun f =>
         exists uid doc_span_index doc_span,
           0 <= doc_span_index /\
           doc_spans !! Z.to_nat doc_span_index = Some doc_span /\
           doc_span_feature max_seq_length example_index example query_tokens
             tok_to_orig_index all_doc_tokens tok_position doc_spans uid
             doc_span_index doc_span = Ok (Some f))
      new.
Proof.
  unfold doc_spans_features. intros Hrun.
  pose (I := fun st : list ChunkFeature.t * Z =>
    exists new,
      fst st = features ++ new /\
      snd st = unique_id + len new /\
      (forall (k : nat) f, new !! k = Some f ->
         ChunkFeature.unique_id f = unique_id + Z.of_nat k) /\
      Forall
        (fun f =>
           exists uid doc_span_index doc_span,
             0 <= doc_span_index /\
             doc_spans !! Z.to_nat doc_span_index = Some doc_span /\
             doc_span_feature max_seq_length example_index example query_tokens
               tok_to_orig_index all_doc_tokens tok_position doc_spans uid
               doc_span_index doc_span = Ok (Some f))
        new).
  cut (I (features', unique_id')); [done|].
  revert Hrun. apply for_each_invariant.
  - intros [fs uid] [i ds] s' [Hi Hds]%elem_of_enumerate
      (new & Hfs & Huid & Hids & Hall).
    simpl in Hfs, Huid. subst fs uid.
    intros ([f|] & Hf & [= <-])%bind_Ok.
    + exists (new ++ [f]). simpl. rewrite app_assoc. split; [done|].
      split; [len_lia|]. split.
      * intros k g Hk. apply lookup_app_Some in Hk as [Hk|[Hge Hk]].
        -- by apply Hids.
        -- apply list_lookup_singleton_Some in Hk as [Hk ->].
           apply doc_span_feature_layout_ids in Hf as [-> _]. unfold len. lia.
      * apply Forall_app. split; [done|]. apply Forall_singleton.
        by exists (unique_id + len new), i, ds.
    + exists new. done.
  - exists []. simpl. rewrite app_nil_r, len_nil.
    split; [done|]. split; [lia|]. split; [by intros k f [=]|constructor].
Qed.

Lemma example_body_from (fuel : nat) (example_index : Z)
    (example : CoQAExample.t) (features features' : list ChunkFeature.t)
    (unique_id unique_id' : Z) :
  example_body max_seq_length doc_stride max_query_length is_training
    append_history fuel example_index example (features, unique_id)
  = Some (Ok (features', unique_id')) ->
  exists new,
    features' = features ++ new /\
    unique_id' = unique_id + len new /\
    (forall (k : nat) f, new !! k = Some f ->
       ChunkFeature.unique_id f = unique_id + Z.of_nat k) /\
    Forall
      (built_from max_seq_length doc_stride max_query_length is_training
         append_history fuel example_index example)
      new.
Proof.
  unfold example_body, built_from.
  destruct (tokenize_doc _) as [[tok_to_orig orig_to_tok] all_doc].
  destruct (tok_positions _ _ _ _) as [pos|] eqn:Hpos; [|discriminate].
  destruct (sliding_windows _ _ _ _) as [ws|] eqn:Hws; [|discriminate].
  intros [= Hrun].
  apply doc_spans_features_from in Hrun as (new & -> & -> & Hids & Hall).
  exists new. split; [done|]. split; [done|]. split; [done|].
  eapply Forall_impl; [exact Hall|]. simpl.
  intros f (uid & i & ds & ? & ? & ?). by exists pos, ws, uid, i, ds.
Qed.

Lemma examples_loop_from (fuel : nat) (examples : list (Z * CoQAExample.t))
    (features features' : list ChunkFeature.t) (unique_id unique_id' : Z) :
  examples_loop max_seq_length doc_stride max_query_length is_training
    append_history fuel examples (features, unique_id)
  = Some (Ok (features', unique_id')) ->
  exists new,
    features' = features ++ new /\
    unique_id' = unique_id + len new /\
    (forall (k : nat) f, new !! k = Some f ->
       ChunkFeature.unique_id f = unique_id + Z.of_nat k) /\
    Forall
      (fun f =>
         exists i example, (i, example) ∈ examples /\
           built_from max_seq_length doc_stride max_query_length is_training
             append_history fuel i example f)
      new.
Proof.
  revert features unique_id.
  induction examples as [|[i ex] examples IH]; intros features unique_id; simpl.
  - intros [= <- <-]. exists []. rewrite app_nil_r, len_nil.
    split; [done|]. split; [lia|]. split; [by intros k f [=]|constructor].
  - destruct (example_body _ _ _ _ _ _ _ _ _) as [[[fs uid]|e]|] eqn:Hbody;
      [|discriminate..].
    apply example_body_from in Hbody as (new1 & -> & -> & Hids1 & Hall1).
    intros (new2 & -> & -> & Hids2 & Hall2)%IH.
    exists (new1 ++ new2). rewrite app_assoc. split; [done|].
    split; [len_lia|]. split.
    + intros k f Hk. apply lookup_app_Some in Hk as [Hk|[Hge Hk]].
      * by apply Hids1.
      * rewrite (Hids2 _ _ Hk). unfold len. lia.
    + apply Forall_app. split.
      * eapply Forall_impl; [exact Hall1|]. simpl. intros f Hf.
        exists i, ex. split; [by left|done].
      * eapply Forall_impl; [exact Hall2|]. simpl.
        intros f (j & ex' & Hin & Hf). exists j, ex'. split; [by right|done].
Qed.

(** Every returned feature is made of a window of the example whose index
    it carries, and the identifiers count up from 1000000000. *)
Lemma convert_examples_to_features_from (fuel : nat)
    (examples : list CoQAExample.t) (features : list ChunkFeature.t) :
  convert_examples_to_features max_seq_length doc_stride max_query_length
    is_training append_history fuel examples = Some (Ok features) ->
  (forall (k : nat) f, features !! k = Some f ->
     ChunkFeature.unique_id f = 1000000000 + Z.of_nat k) /\
  Forall
    (fun f =>
       exists (i : nat) example,
         examples !! i = Some example /\
         built_from max_seq_length doc_stride max_query_length is_training
           append_history fuel (Z.of_nat i) example f)
    features.
Proof.
  unfold convert_examples_to_features.
  destruct (examples_loop _ _ _ _ _ _ _ _) as [[[fs uid]|e]|] eqn:Hloop;
    [|discriminate..].
  intros [= ->].
  apply examples_loop_from in Hloop as (new & Hfs & _ & Hids & Hall).
  simpl in Hfs. subst new. split; [done|].
  eapply Forall_impl; [exact Hall|]. simpl.
  intros f (i & ex & [Hi Hex]%elem_of_enumerate & Hf).
  exists (Z.to_nat i), ex. split; [done|]. by rewrite Z2Nat.id.
Qed.

(** What a feature made of a window of an example holds. *)
Lemma built_from_layout (fuel : nat) (example_index : Z)
    (example : CoQAExample.t) (feature : ChunkFeature.t) :
  built_from max_seq_length doc_stride max_query_length is_training
    append_history fuel example_index example feature ->
  let query_tokens := query_tokens_of max_query_length append_history example in
  let all_doc_tokens := all_doc_tokens_of example in
  let offset := len query_tokens + 2 in
  let ids := convert_tokens_to_ids (ChunkFeature.tokens feature) in
  let k := Z.to_nat (max_seq_length - len ids) in
  ChunkFeature.example_index feature = example_index /\
  0 <= ChunkFeature.doc_span_index feature /\
  (exists start n : nat,
     (1 <= n)%nat /\ (start + n <= length all_doc_tokens)%nat /\
     ChunkFeature.tokens feature
     = ["[CLS]"%string] ++ query_tokens ++ ["[SEP]"%string]
       ++ take n (drop start all_doc_tokens) ++ ["[SEP]"%string] /\
     ChunkFeature.input_ids feature = ids ++ repeat 0 k /\
     ChunkFeature.input_mask feature = repeat 1 (length ids) ++ repeat 0 k /\
     ChunkFeature.segment_ids feature
     = repeat 0 (length query_tokens + 2) ++ repeat 1 (n + 1) ++ repeat 0 k) /\
  (forall p,
     is_Some (ChunkFeature.token_to_orig_map feature !! p)
     <-> offset <= p < len (ChunkFeature.tokens feature) - 1) /\
  (forall p,
     is_Some (ChunkFeature.token_is_max_context feature !! p)
     <-> offset <= p < len (ChunkFeature.tokens feature) - 1) /\
  (forall p v,
     ChunkFeature.token_to_orig_map feature !! p = Some v ->
     0 <= v < len (CoQAExample.doc_tokens example) /\
     exists token sub_token,
       CoQAExample.doc_tokens example !! Z.to_nat v = Some token /\
       sub_token ∈ tokenize token /\
       ChunkFeature.tokens feature !! Z.to_nat p = Some sub_token) /\
  (forall p q v w,
     p <= q ->
     ChunkFeature.token_to_orig_map feature !! p = Some v ->
     ChunkFeature.token_to_orig_map feature !! q = Some w -> v <= w).
Proof.
  unfold built_from, all_doc_tokens_of.
  pose proof (tokenize_doc_lengths (CoQAExample.doc_tokens example)) as Hlens.
  pose proof (tokenize_doc_back (CoQAExample.doc_tokens example)) as Hback.
  destruct (tokenize_doc _) as [[t2o o2t] all]. simpl.
  destruct Hlens as [Hlen_t2o _]. destruct Hback as [Hback Hmono].
  intros (pos & ws & uid & dsi & ds & _ & Hws & Hdsi & Hds & Hf).
  apply doc_spans_loop_chain, window_chain_cover in Hws as (Hall & _ & _).
  pose proof (proj1 (Forall_forall _ _) Hall ds
                (list_elem_of_lookup_2 _ _ _ Hds)) as (Hs0 & Hn1 & HsL).
  apply doc_span_feature_layout in Hf
    as ((_ & Hei & Hdi) & (Htok & Hwlen) & (Hids & Hmask & Hseg) & Hom & Hcm
        & Hread); [|done].
  set (start := Z.to_nat (DocSpan.start ds)) in *.
  set (n := Z.to_nat (DocSpan.length ds)) in *.
  set (offset := len (query_tokens_of max_query_length append_history example) + 2)
    in *.
  assert (Hlen_tok : len (ChunkFeature.tokens feature) - 1 = offset + Z.of_nat n).
  { rewrite Htok. unfold offset. unfold len. rewrite !length_app, Hwlen.
    simpl. lia. }
  assert (Hin : forall p, offset <= p < offset + Z.of_nat n ->
            Z.to_nat (DocSpan.start ds + (p - offset))
            = (start + Z.to_nat (p - offset))%nat /\
            (Z.to_nat (p - offset) < n)%nat).
  { intros p Hp. unfold start. lia. }
  split; [done|]. split; [lia|]. split; [|split; [|split; [|split]]].
  - exists start, n. split; [unfold n; lia|].
    split; [unfold start, n, len in *; lia|]. done.
  - intros p. rewrite Hom, Hlen_tok.
    destruct (decide (offset <= p < offset + Z.of_nat n)) as [Hp|Hp].
    + destruct (Hin p Hp) as [-> Hlt]. split; [done|]. intros _. by apply Hread.
    + split; [by intros [? ?]|done].
  - intros p. rewrite Hcm, Hlen_tok.
    destruct (decide (offset <= p < offset + Z.of_nat n)) as [Hp|Hp].
    + split; [done|eauto].
    + split; [by intros [? ?]|done].
  - intros p v. rewrite Hom.
    destruct (decide (offset <= p < offset + Z.of_nat n)) as [Hp|Hp];
      [|discriminate].
    destruct (Hin p Hp) as [-> Hlt]. intros Hv.
    destruct (Hback _ _ Hv) as (Hrange & token & sub & Htoken & Hsub & Hc).
    split; [done|]. exists token, sub. split; [done|]. split; [done|].
    set (prefix := ["[CLS]"%string]
                   ++ query_tokens_of max_query_length append_history example
                   ++ ["[SEP]"%string]).
    assert (Htok' : ChunkFeature.tokens feature
                    = prefix ++ take n (drop start all) ++ ["[SEP]"%string]).
    { rewrite Htok. unfold prefix. by rewrite <- !app_assoc. }
    assert (Hoff : Z.to_nat p = (length prefix + Z.to_nat (p - offset))%nat).
    { unfold prefix, offset, len in *. rewrite !length_app. simpl. lia. }
    rewrite Htok', Hoff.
    rewrite lookup_app_r by lia. rewrite Nat.add_sub'.
    rewrite lookup_app_l by (rewrite Hwlen; lia).
    rewrite lookup_take_lt by lia. by rewrite lookup_drop.
  - intros p q v w Hpq. rewrite !Hom.
    destruct (decide (offset <= p < offset + Z.of_nat n)) as [Hp|Hp];
      [|discriminate].
    destruct (decide (offset <= q < offset + Z.of_nat n)) as [Hq|Hq];
      [|discriminate].
    apply Hmono. lia.
Qed.

End FeaturesOfRun.

(** X3: the features that [convert_examples_to_features] returns carry the
    identifiers 1000000000, 1000000001, ... in the order of the list, so no
    two features share one; the example index of a feature is the index of
    an example, and its window index is not negative. *)
Theorem feature_identifiers `{tokenizer : Tokenizer} `{qa_util : QaUtil}
    (max_seq_length doc_stride max_query_length : Z)
    (is_training append_history : bool) (fuel : nat)
    (examples : list CoQAExample.t) (features : list ChunkFeature.t) :
  convert_examples_to_features max_seq_length doc_stride max_query_length
    is_training append_history fuel examples = Some (Ok features) ->
  (forall (k : nat) (feature : ChunkFeature.t),
     features !! k = Some feature ->
     ChunkFeature.unique_id feature = 1000000000 + Z.of_nat k) /\
  NoDup (map ChunkFeature.unique_id features) /\
  (forall feature, feature ∈ features ->
     0 <= ChunkFeature.example_index feature < len examples /\
     0 <= ChunkFeature.doc_span_index feature).
Proof.
  intros Hrun.
  apply convert_examples_to_features_from in Hrun as [Hids Hfrom].
  split; [exact Hids|]. split.
  - apply NoDup_alt. intros j k uid Hj Hk.
    rewrite list_lookup_fmap in Hj, Hk.
    destruct (features !! j) as [f|] eqn:Hf; [|discriminate].
    destruct (features !! k) as [g|] eqn:Hg; [|discriminate].
    apply Hids in Hf, Hg. simpl in Hj, Hk.
    injection Hj as Hj. injection Hk as Hk. lia.
  - intros f Hf.
    apply (proj1 (Forall_forall _ _) Hfrom) in Hf as (i & ex & Hex & Hbuilt).
    apply built_from_layout in Hbuilt as (-> & ? & _).
    apply lookup_lt_Some in Hex. unfold len. lia.
Qed.

Lemma feature_identifiers_witness :
  match convert_examples_to_features (tokenizer := Sample.char_tokenizer)
          (qa_util := Sample.qa_util) 6 2 64 false false 3
          [SampleInput.example; SampleInput.long_word]
  with
  | Some (Ok features) =>
      map ChunkFeature.unique_id features
      = [1000000000; 1000000001; 1000000002; 1000000003; 1000000004] /\
      NoDup (map ChunkFeature.unique_id features)
  | _ => False
  end.
Proof.
  destruct (convert_examples_to_features _ _ _ _ _ _ _) as [[features|e]|]
    eqn:Hrun; [|vm_compute in Hrun; discriminate..].
  split.
  - vm_compute in Hrun. injection Hrun as <-. reflexivity.
  - apply (feature_identifiers (tokenizer := Sample.char_tokenizer)
             (qa_util := Sample.qa_util) 6 2 64 false false 3
             [SampleInput.example; SampleInput.long_word] features Hrun).
Defined.

(** X4: every returned feature is laid out as [CLS], the query tokens of its
    example, [SEP], a window of at least one consecutive subword token of the
    example's document, [SEP]; [input_ids] are the tokenizer's ids of these
    tokens followed by zeros, [input_mask] is 1 on the ids and 0 on the
    padding, and [segment_ids] are 0 up to the first [SEP], 1 on the window
    and the last [SEP], and 0 on the padding. *)
Theorem chunk_layout `{tokenizer : Tokenizer} `{qa_util : QaUtil}
    (max_seq_length doc_stride max_query_length : Z)
    (is_training append_history : bool) (fuel : nat)
    (examples : list CoQAExample.t) (features : list ChunkFeature.t) :
  convert_examples_to_features max_seq_length doc_stride max_query_length
    is_training append_history fuel examples = Some (Ok features) ->
  forall feature, feature ∈ features ->
    exists example,
      examples !! Z.to_nat (ChunkFeature.example_index feature) = Some example /\
      let query_tokens :=
        query_tokens_of max_query_length append_history example in
      let all_doc_tokens := all_doc_tokens_of example in
      let ids := convert_tokens_to_ids (ChunkFeature.tokens feature) in
      let k := Z.to_nat (max_seq_length - len ids) in
      exists start n : nat,
        (1 <= n)%nat /\ (start + n <= length all_doc_tokens)%nat /\
        ChunkFeature.tokens feature
        = ["[CLS]"%string] ++ query_tokens ++ ["[SEP]"%string]
          ++ take n (drop start all_doc_tokens) ++ ["[SEP]"%string] /\
        ChunkFeature.input_ids feature = ids ++ repeat 0 k /\
        ChunkFeature.input_mask feature = repeat 1 (length ids) ++ repeat 0 k /\
        ChunkFeature.segment_ids feature
        = repeat 0 (length query_tokens + 2) ++ repeat 1 (n + 1)
          ++ repeat 0 k.
Proof.
  intros Hrun f Hf.
  apply convert_examples_to_features_from in Hrun as [_ Hfrom].
  apply (proj1 (Forall_forall _ _) Hfrom) in Hf as (i & ex & Hex & Hbuilt).
  apply built_from_layout in Hbuilt as (-> & _ & Hlayout & _).
  exists ex. rewrite Nat2Z.id. split; [done|]. exact Hlayout.
Qed.

Lemma chunk_layout_witness :
  match convert_examples_to_features (tokenizer := Sample.char_tokenizer)
          (qa_util := Sample.qa_util) 8 2 64 false false 3
          [SampleInput.example]
  with
  | Some (Ok features) =>
      map ChunkFeature.segment_ids features = [[0; 0; 0; 1; 1; 1; 1; 1]] /\
      forall feature, feature ∈ features ->
        exists example start n,
          [SampleInput.example]
            !! Z.to_nat (ChunkFeature.example_index feature) = Some example /\
          ChunkFeature.tokens feature
          = ["[CLS]"%string]
            ++ query_tokens_of (tokenizer := Sample.char_tokenizer) 64 false
                 example
            ++ ["[SEP]"%string]
            ++ take n
                 (drop start
                    (all_doc_tokens_of (tokenizer := Sample.char_tokenizer)
                       example))
            ++ ["[SEP]"%string]
  | _ => False
  end.
Proof.
  destruct (convert_examples_to_features _ _ _ _ _ _ _) as [[features|e]|]
    eqn:Hrun; [|vm_compute in Hrun; discriminate..].
  split.
  - vm_compute in Hrun. injection Hrun as <-. reflexivity.
  - intros feature Hin.
    destruct (chunk_layout (tokenizer := Sample.char_tokenizer)
                (qa_util := Sample.qa_util) 8 2 64 false false 3
                [SampleInput.example] features Hrun feature Hin)
      as (example & Hex & start & n & _ & _ & Htok & _).
    by exists example, start, n.
Defined.

(** X5: in every returned feature the keys of [token_to_orig_map] and of
    [token_is_max_context] are exactly the positions of the window, from
    [len(query_tokens) + 2] up to the position before the last [SEP]; the
    value at a position is the index of the word of the example's document
    that the subword token at that position comes from, and the values do
    not decrease with the position. *)
Theorem chunk_token_maps `{tokenizer : Tokenizer} `{qa_util : QaUtil}
    (max_seq_length doc_stride max_query_length : Z)
    (is_training append_history : bool) (fuel : nat)
    (examples : list CoQAExample.t) (features : list ChunkFeature.t) :
  convert_examples_to_features max_seq_length doc_stride max_query_length
    is_training append_history fuel examples = Some (Ok features) ->
  forall feature, feature ∈ features ->
    exists example,
      examples !! Z.to_nat (ChunkFeature.example_index feature) = Some example /\
      let offset :=
        len (query_tokens_of max_query_length append_history example) + 2 in
      (forall p,
         is_Some (ChunkFeature.token_to_orig_map feature !! p)
         <-> offset <= p < len (ChunkFeature.tokens feature) - 1) /\
      (forall p,
         is_Some (ChunkFeature.token_is_max_context feature !! p)
         <-> offset <= p < len (ChunkFeature.tokens feature) - 1) /\
      (forall p v,
         ChunkFeature.token_to_orig_map feature !! p = Some v ->
         0 <= v < len (CoQAExample.doc_tokens example) /\
         exists token sub_token,
           CoQAExample.doc_tokens example !! Z.to_nat v = Some token /\
           sub_token ∈ tokenize token /\
           ChunkFeature.tokens feature !! Z.to_nat p = Some sub_token) /\
      (forall p q v w,
         p <= q ->
         ChunkFeature.token_to_orig_map feature !! p = Some v ->
         ChunkFeature.token_to_orig_map feature !! q = Some w -> v <= w).
Proof.
  intros Hrun f Hf.
  apply convert_examples_to_features_from in Hrun as [_ Hfrom].
  apply (proj1 (Forall_forall _ _) Hfrom) in Hf as (i & ex & Hex & Hbuilt).
  apply built_from_layout in Hbuilt as (-> & _ & _ & Hmaps).
  exists ex. rewrite Nat2Z.id. split; [done|]. exact Hmaps.
Qed.

Lemma chunk_token_maps_witness :
  match convert_examples_to_features (tokenizer := Sample.char_tokenizer)
          (qa_util := Sample.qa_util) 8 2 64 false false 3
          [SampleInput.example]
  with
  | Some (Ok features) =>
      map (fun f => (ChunkFeature.token_to_orig_map f !! 2,
                     ChunkFeature.token_to_orig_map f !! 3,
                     ChunkFeature.token_to_orig_map f !! 6,
                     ChunkFeature.token_to_orig_map f !! 7)) features
      = [(None, Some 0, Some 1, None)] /\
      forall feature, feature ∈ features ->
        forall p q v w,
          p <= q ->
          ChunkFeature.token_to_orig_map feature !! p = Some v ->
          ChunkFeature.token_to_orig_map feature !! q = Some w -> v <= w
  | _ => False
  end.
Proof.
  destruct (convert_examples_to_features _ _ _ _ _ _ _) as [[features|e]|]
    eqn:Hrun; [|vm_compute in Hrun; discriminate..].
  split.
  - vm_compute in Hrun. injection Hrun as <-. vm_compute. reflexivity.
  - intros feature Hin.
    destruct (chunk_token_maps (tokenizer := Sample.char_tokenizer)
                (qa_util := Sample.qa_util) 8 2 64 false false 3
                [SampleInput.example] features Hrun feature Hin)
      as (example & _ & _ & _ & _ & Hmono).
    exact Hmono.
Defined.

(** ** Runs outside training *)

(** The run of the sliding window for a positive budget and stride. *)
Lemma sliding_windows_run (L B D : Z) :
  0 < B -> 0 < D ->
  exists ws : list DocSpan.t,
    (forall fuel : nat, window_count L B D < Z.of_nat fuel ->
       sliding_windows fuel L B D = Some ws) /\
    len ws = window_count L B D.
Proof.
  intros HB HD. unfold window_count.
  destruct (L <=? 0) eqn:HL.
  { exists []. split; [|done].
    intros [|fuel] Hf; [lia|]. apply sliding_windows_empty. lia. }
  set (c := if L >? B then ceil_div (L - B) (Z.min B D) + 1 else 1).
  assert (Hc : 1 <= c).
  { subst c. destruct (L >? B) eqn:Hgt; [|lia].
    pose proof (ceil_div_spec (L - B) (Z.min B D) ltac:(lia)). nia. }
  destruct (doc_spans_loop_count (Z.to_nat c) L B D 0) as (ws & Hws & Hlen);
    [lia..| |].
  { replace (L - 0 - B) with (L - B) by lia.
    replace (L - 0) with L by lia. fold c. lia. }
  replace (L - 0 - B) with (L - B) in Hlen by lia.
  replace (L - 0) with L in Hlen by lia. fold c in Hlen.
  exists ws. split; [|exact Hlen].
  intros fuel Hf. apply (doc_spans_loop_mono (Z.to_nat c)); [lia|exact Hws].
Qed.

Section Inference.
Context `{tokenizer : Tokenizer} `{qa_util : QaUtil}.
Variables (max_seq_length doc_stride max_query_length : Z).
Variable (append_history : bool).

(** For a limit of at least one token the query is no longer than the
    limit. *)
Lemma query_tokens_length (example : CoQAExample.t) :
  1 <= max_query_length ->
  len (query_tokens_of max_query_length append_history example)
  <= max_query_length.
Proof.
  intros Hq. destruct append_history.
  - rewrite query_tokens_newest_first by lia.
    unfold len. rewrite length_take. lia.
  - rewrite query_tokens_oldest_first by lia.
    unfold len. rewrite length_drop. lia.
Qed.

(** Outside training a window that lies within the document and fits the
    budget gives a feature. *)
Lemma doc_span_feature_inference (example_index : Z) (example : CoQAExample.t)
    (query_tokens : list string) (tok_to_orig_index : list Z)
    (all_doc_tokens : list string) (doc_spans : list DocSpan.t)
    (unique_id doc_span_index : Z) (doc_span : DocSpan.t) :
  (forall tokens, length (convert_tokens_to_ids tokens) = length tokens) ->
  length tok_to_orig_index = length all_doc_tokens ->
  0 <= DocSpan.start doc_span ->
  DocSpan.start doc_span + DocSpan.length doc_span <= len all_doc_tokens ->
  len query_tokens + 3 + Z.max 0 (DocSpan.length doc_span) <= max_seq_length ->
  exists feature,
    doc_span_feature max_seq_length example_index example query_tokens
      tok_to_orig_index all_doc_tokens None doc_spans unique_id doc_span_index
      doc_span = Ok (Some feature).
Proof.
  intros Hids Hlen Hstart Hend Hfit.
  pose proof (doc_span_feature_not_assertion max_seq_length example_index
                example query_tokens tok_to_orig_index all_doc_tokens None
                doc_spans unique_id doc_span_index doc_span Hids Hfit) as Hna.
  unfold doc_span_feature in *. rewrite query_loop_spec in *.
  match goal with
  | |- context [for_each ?l ?body ?st] =>
      destruct (for_each_succeeds (fun _ => True) l body st)
        as ([[[tokens om] cm] seg] & Hloop & _); [|done|]
  end.
  { intros [[[tokens om] cm] seg] i [Hi0 Hi1]%elem_of_range _.
    unfold doc_token_body.
    destruct (py_index_in_range tok_to_orig_index (DocSpan.start doc_span + i))
      as (orig & -> & _); [unfold len in *; lia|].
    destruct (py_index_in_range all_doc_tokens (DocSpan.start doc_span + i))
      as (token & -> & _); [unfold len in *; lia|].
    simpl. eauto. }
  rewrite Hloop in *. simpl in *.
  destruct (zero_pad _ _ _ _) as [[ids mask] seg'].
  unfold assert in *.
  destruct (len ids =? max_seq_length); simpl in *; [|done].
  destruct (len mask =? max_seq_length); simpl in *; [|done].
  destruct (len seg' =? max_seq_length); simpl in *; [|done].
  eauto.
Qed.

(** Outside training the loop over windows that lie within the document and
    fit the budget gives one feature per window. *)
Lemma doc_spans_features_inference (example_index : Z) (example : CoQAExample.t)
    (query_tokens : list string) (tok_to_orig_index : list Z)
    (all_doc_tokens : list string) (doc_spans : list DocSpan.t)
    (l : list (Z * DocSpan.t)) (features : list ChunkFeature.t) (unique_id : Z) :
  (forall tokens, length (convert_tokens_to_ids tokens) = length tokens) ->
  length tok_to_orig_index = length all_doc_tokens ->
  (forall i doc_span, (i, doc_span) ∈ l ->
     0 <= DocSpan.start doc_span /\
     DocSpan.start doc_span + DocSpan.length doc_span <= len all_doc_tokens /\
     len query_tokens + 3 + Z.max 0 (DocSpan.length doc_span) <= max_seq_length) ->
  exists new,
    for_each l
      (fun '(features, unique_id) '(doc_span_index, doc_span) =>
         feature ← doc_span_feature max_seq_length example_index example
                     query_tokens tok_to_orig_index all_doc_tokens None
                     doc_spans unique_id doc_span_index doc_span;
         match feature with
         | None => Ok (features, unique_id)
         | Some feature => Ok (features ++ [feature], unique_id + 1)
         end)
      (features, unique_id)
    = Ok (features ++ new, unique_id + len new) /\
    length new = length l.
Proof.
  intros Hids Hlen. revert features unique_id.
  induction l as [|[i ds] l IH]; intros features unique_id Hl; simpl.
  { exists []. rewrite app_nil_r, len_nil, Z.add_0_r. done. }
  destruct (Hl i ds ltac:(by left)) as (Hs & He & Hfit).
  destruct (doc_span_feature_inference example_index example query_tokens
              tok_to_orig_index all_doc_tokens doc_spans unique_id i ds
              Hids Hlen Hs He Hfit) as (f & ->).
  simpl.
  destruct (IH (features ++ [f]) (unique_id + 1)) as (new & -> & Hnew).
  { intros j ds' Hin. apply (Hl j). by right. }
  exists (f :: new). rewrite <- app_assoc. simpl. split; [|by rewrite Hnew].
  do 2 f_equal. rewrite len_cons. lia.
Qed.

Lemma example_body_inference (example_index : Z) (example : CoQAExample.t)
    (features : list ChunkFeature.t) (unique_id : Z) :
  (forall tokens, length (convert_tokens_to_ids tokens) = length tokens) ->
  1 <= max_query_length -> max_query_length + 4 <= max_seq_length ->
  1 <= doc_stride ->
  let count :=
    window_count (len (all_doc_tokens_of example))
      (max_tokens_for_doc_of max_seq_length max_query_length append_history
         example) doc_stride in
  exists new,
    (forall fuel : nat, count < Z.of_nat fuel ->
       example_body max_seq_length doc_stride max_query_length false
         append_history fuel example_index example (features, unique_id)
       = Some (Ok (features ++ new, unique_id + len new))) /\
    len new = count.
Proof.
  intros Hids Hq Hmax HD count. subst count.
  pose proof (query_tokens_length example Hq) as Hqlen.
  pose proof (tokenize_doc_lengths (CoQAExample.doc_tokens example)) as Hlens.
  unfold example_body, all_doc_tokens_of, max_tokens_for_doc_of,
    doc_spans_features in *.
  destruct (tokenize_doc _) as [[t2o o2t] all]. simpl in *.
  destruct Hlens as [Ht2o _].
  set (q := query_tokens_of max_query_length append_history example) in *.
  destruct (sliding_windows_run (len all) (max_seq_length - len q - 3)
              doc_stride) as (ws & Hrun & Hcount); [lia..|].
  pose proof (Hrun (S (Z.to_nat
                         (window_count (len all)
                            (max_seq_length - len q - 3) doc_stride)))
                ltac:(lia)) as Hrun1.
  pose proof (doc_spans_loop_chain _ _ _ _ _ _ Hrun1) as Hchain.
  apply window_chain_cover in Hchain as (Hall & _ & _).
  destruct (doc_spans_features_inference example_index example q t2o all ws
              (enumerate ws) features unique_id Hids Ht2o)
    as (new & Hnew & Hlen).
  { intros i ds [_ Hds]%elem_of_enumerate.
    apply list_elem_of_lookup_2 in Hds.
    pose proof (proj1 (Forall_forall _ _) Hall ds Hds) as (? & ? & ?).
    pose proof (sliding_windows_fit _ _ _ _ _ _ Hrun1 Hds ltac:(lia)).
    split; [done|]. split; [done|]. lia. }
  exists new. split.
  - intros fuel Hfuel. rewrite (Hrun fuel Hfuel). by rewrite Hnew.
  - rewrite <- Hcount. unfold len. rewrite Hlen, enumerate_length. done.
Qed.

Lemma examples_loop_inference (examples : list (Z * CoQAExample.t))
    (features : list ChunkFeature.t) (unique_id : Z) :
  (forall tokens, length (convert_tokens_to_ids tokens) = length tokens) ->
  1 <= max_query_length -> max_query_length + 4 <= max_seq_length ->
  1 <= doc_stride ->
  exists new,
    (exists n : nat, forall fuel : nat, (n <= fuel)%nat ->
       examples_loop max_seq_length doc_stride max_query_length false
         append_history fuel examples (features, unique_id)
       = Some (Ok (features ++ new, unique_id + len new))) /\
    len new
    = total_window_count max_seq_length doc_stride max_query_length
        append_history (map snd examples).
Proof.
  intros Hids Hq Hmax HD. revert features unique_id.
  induction examples as [|[i ex] examples IH]; intros features unique_id.
  { exists []. split; [|done]. exists 0%nat. intros fuel _. simpl.
    by rewrite app_nil_r, len_nil, Z.add_0_r. }
  destruct (example_body_inference i ex features unique_id Hids Hq Hmax HD)
    as (new1 & Hrun1 & Hlen1).
  destruct (IH (features ++ new1) (unique_id + len new1))
    as (new2 & (n2 & Hrun2) & Hlen2).
  exists (new1 ++ new2). split.
  - exists (S (Z.to_nat (len new1)) `max` n2)%nat. intros fuel Hfuel. simpl.
    rewrite Hrun1 by lia. rewrite Hrun2 by lia.
    rewrite app_assoc, len_app. do 3 f_equal. lia.
  - rewrite len_app, Hlen1, Hlen2. reflexivity.
Qed.

End Inference.

(** X6: outside training, with a tokenizer that gives one id per token, a
    query limit of at least 1, a sequence length of at least the query limit
    plus 4 and a stride of at least 1, [convert_examples_to_features] returns
    a list of features, without an exception, and the list has one feature
    per window of every example. *)
Theorem inference_features `{tokenizer : Tokenizer} `{qa_util : QaUtil}
    (max_seq_length doc_stride max_query_length : Z) (append_history : bool)
    (examples : list CoQAExample.t) :
  (forall tokens, length (convert_tokens_to_ids tokens) = length tokens) ->
  1 <= max_query_length -> max_query_length + 4 <= max_seq_length ->
  1 <= doc_stride ->
  exists features : list ChunkFeature.t,
    (exists n : nat, forall fuel : nat, (n <= fuel)%nat ->
       convert_examples_to_features max_seq_length doc_stride max_query_length
         false append_history fuel examples = Some (Ok features)) /\
    len features
    = total_window_count max_seq_length doc_stride max_query_length
        append_history examples.
Proof.
  intros Hids Hq Hmax HD.
  destruct (examples_loop_inference max_seq_length doc_stride max_query_length
              append_history (enumerate examples) [] 1000000000
              Hids Hq Hmax HD) as (new & (n & Hrun) & Hlen).
  rewrite enumerate_snd in Hlen.
  exists new. split; [|exact Hlen].
  exists n. intros fuel Hfuel. unfold convert_examples_to_features.
  by rewrite (Hrun fuel Hfuel).
Qed.

Lemma inference_features_witness :
  exists features : list ChunkFeature.t,
    (exists n : nat, forall fuel : nat, (n <= fuel)%nat ->
       convert_examples_to_features (tokenizer := Sample.char_tokenizer)
         (qa_util := Sample.qa_util) 6 2 1 false false fuel
         [SampleInput.example; SampleInput.long_word] = Some (Ok features)) /\
    len features = 5.
Proof.
  apply (inference_features (tokenizer := Sample.char_tokenizer)
           (qa_util := Sample.qa_util) 6 2 1 false
           [SampleInput.example; SampleInput.long_word]).
  - intros tokens. apply length_map.
  - lia.
  - lia.
  - lia.
Defined.

(** X7: for a query limit of at least 1 the query of an example has at most
    [max_query_length] tokens, in both history orders, so the document budget
    is at least [max_seq_length - max_query_length - 3]. *)
Theorem query_length_bound `{tokenizer : Tokenizer}
    (max_seq_length max_query_length : Z) (append_history : bool)
    (example : CoQAExample.t) :
  1 <= max_query_length ->
  len (query_tokens_of max_query_length append_history example)
  <= max_query_length /\
  max_seq_length - max_query_length - 3
  <= max_tokens_for_doc_of max_seq_length max_query_length append_history
       example.
Proof.
  intros Hq.
  pose proof (query_tokens_length max_query_length append_history example Hq).
  unfold max_tokens_for_doc_of. lia.
Qed.

Lemma query_length_bound_witness :
  len (query_tokens_of (tokenizer := Sample.char_tokenizer) 3 false
         SampleInput.two_turns) <= 3 /\
  10 - 3 - 3
  <= max_tokens_for_doc_of (tokenizer := Sample.char_tokenizer) 10 3 false
       SampleInput.two_turns.
Proof.
  apply (query_length_bound (tokenizer := Sample.char_tokenizer) 10 3 false
           SampleInput.two_turns).
  lia.
Defined.

(** ** Gold positions outside the document *)

Lemma py_index_out_of_range {A : Type} (l : list A) (i : Z) :
  ~ (- len l <= i < len l) -> py_index l i = Raise IndexError.
Proof.
  intros Hi. unfold py_index.
  destruct (i <? 0) eqn:Hneg.
  - replace (0 <=? i + len l) with false by lia. done.
  - replace (i <? len l) with false by lia. by rewrite andb_false_r.
Qed.

(** X8: in training mode an example whose [start_position] is not an index
    of its [doc_tokens] (counting negative indexes from the end, as Python
    does) makes [convert_examples_to_features] raise [IndexError] when it
    reaches the example, before any window is made; so does every example
    without document tokens. *)
Theorem training_start_out_of_range `{tokenizer : Tokenizer}
    `{qa_util : QaUtil} (max_seq_length doc_stride max_query_length : Z)
    (append_history : bool) (fuel : nat) (example : CoQAExample.t)
    (examples : list CoQAExample.t) :
  ~ (- len (CoQAExample.doc_tokens example)
     <= CoQAExample.start_position example
     < len (CoQAExample.doc_tokens example)) ->
  convert_examples_to_features max_seq_length doc_stride max_query_length
    true append_history fuel (example :: examples) = Some (Raise IndexError).
Proof.
  intros Hout. unfold convert_examples_to_features, enumerate. simpl.
  unfold example_body.
  pose proof (tokenize_doc_lengths (CoQAExample.doc_tokens example)) as Hlens.
  destruct (tokenize_doc _) as [[t2o o2t] all]. destruct Hlens as [_ Ho2t].
  unfold tok_positions.
  rewrite (py_index_out_of_range o2t (CoQAExample.start_position example));
    [reflexivity|].
  unfold len in *. by rewrite Ho2t.
Qed.

Lemma training_start_out_of_range_witness :
  convert_examples_to_features (tokenizer := Sample.char_tokenizer)
    (qa_util := Sample.qa_util) 6 2 64 true false 0
    [CoQAExample.mk ["q"%string] ["ab"%string; "cd"%string] "cd"%string
       2 2 0 0 "p1"%string 1]
  = Some (Raise IndexError).
Proof.
  apply (training_start_out_of_range (tokenizer := Sample.char_tokenizer)
           (qa_util := Sample.qa_util)).
  vm_compute. intros [_ H]. discriminate H.
Defined.

(** * Further properties of the decoder *)

Lemma for_each_ext {A St : Type} (l : list A) (body1 body2 : St -> A -> outcome St)
    (st : St) :
  (forall s x, x ∈ l -> body1 s x = body2 s x) ->
  for_each l body1 st = for_each l body2 st.
Proof.
  revert st. induction l as [|x l IH]; intros st Hext; simpl; [done|].
  rewrite (Hext st x) by (by left).
  destruct (body2 st x) as [s|e]; simpl; [|done].
  apply IH. intros ? y Hy. apply Hext. by right.
Qed.

(** A loop whose passes raise nothing but [e] raises nothing but [e]. *)
Lemma for_each_raise_only {A St : Type} (e : exn) (l : list A)
    (body : St -> A -> outcome St) (st : St) (e' : exn) :
  (forall s x e', x ∈ l -> body s x = Raise e' -> e' = e) ->
  for_each l body st = Raise e' -> e' = e.
Proof.
  revert st. induction l as [|x l IH]; intros st Hbody; simpl; [done|].
  intros [Hx|(s & _ & Hrun)]%bind_Raise.
  - by apply (Hbody st x); [left|].
  - apply (IH s); [|done]. intros ? y ? Hy. apply Hbody. by right.
Qed.

(** A loop with a pass that always raises [e], after passes that raise
    nothing else, raises [e]. *)
Lemma for_each_raises {A St : Type} (e : exn) (l1 l2 : list A) (x : A)
    (body : St -> A -> outcome St) (st : St) :
  (forall s y e', y ∈ l1 -> body s y = Raise e' -> e' = e) ->
  (forall s, body s x = Raise e) ->
  for_each (l1 ++ x :: l2) body st = Raise e.
Proof.
  intros Hl1 Hx. rewrite for_each_app.
  destruct (for_each l1 body st) as [s|e'] eqn:Hrun; simpl.
  - by rewrite Hx.
  - by apply for_each_raise_only with (e := e) in Hrun as ->.
Qed.

Section DecoderErrors.
Context {F : Type} `{score : Score F} `{qa_util : QaUtil} `{softmax : Softmax F}.
Variables (n_best_size max_answer_length : Z).
Variables (do_lower_case verbose_logging validate_flag : bool).

Lemma collect_pass_raise (unique_id_to_result : gmap Z (RawResult.t F))
    (features : list ChunkFeature.t)
    (prelim_predictions : list (PrelimPrediction.t F)) (feature_index : Z)
    (feature : ChunkFeature.t) (e : exn) :
  (feature_index, feature) ∈ enumerate features ->
  (result ← dict_get unique_id_to_result (ChunkFeature.unique_id feature);
   feature_body n_best_size max_answer_length feature_index feature result
     prelim_predictions) = Raise e ->
  e = KeyError /\
  unique_id_to_result !! ChunkFeature.unique_id feature = None.
Proof.
  intros [Hfi Hf]%elem_of_enumerate. unfold dict_get.
  destruct (unique_id_to_result !! _) as [result|]; simpl.
  - destruct (feature_body_new n_best_size max_answer_length features
                feature_index feature result prelim_predictions Hfi Hf)
      as (new & -> & _). discriminate.
  - by intros [= <-].
Qed.

Lemma collect_well_formed (unique_id_to_result : gmap Z (RawResult.t F))
    (features : list ChunkFeature.t) (preds : list (PrelimPrediction.t F)) :
  collect_prelim_predictions n_best_size max_answer_length unique_id_to_result
    features = Ok preds ->
  Forall (well_formed_pred features) preds.
Proof.
  unfold collect_prelim_predictions. intros Hrun.
  revert Hrun. apply for_each_invariant; [|constructor].
  intros preds0 [fi f] preds1 [Hfi Hf]%elem_of_enumerate Hwf.
  intros (result & _ & Hbody)%bind_Ok.
  destruct (feature_body_new n_best_size max_answer_length features fi f
              result preds0 Hfi Hf) as (new & Hnew & Hwfnew).
  rewrite Hnew in Hbody. injection Hbody as <-. by apply Forall_app.
Qed.

(** Nothing but a missing result makes the ranking of an example fail. *)
Lemma example_nbest_raise (unique_id_to_result : gmap Z (RawResult.t F))
    (example : CoQAExample.t) (features : list ChunkFeature.t) (e : exn) :
  example_nbest n_best_size max_answer_length do_lower_case verbose_logging
    validate_flag unique_id_to_result example features = Raise e ->
  e = KeyError.
Proof.
  unfold example_nbest.
  intros [Hcollect|(preds & Hpreds & H)]%bind_Raise.
  - unfold collect_prelim_predictions in Hcollect.
    apply for_each_raise_only with (e := KeyError) in Hcollect; [done|].
    intros preds [fi f] e' Hin Hpass.
    apply collect_pass_raise with (features := features) in Hpass as [-> _];
      done.
  - apply collect_well_formed in Hpreds.
    destruct (nbest_loop_total n_best_size do_lower_case verbose_logging
                validate_flag example features
                (sorted_reverse PrelimPrediction.logit preds) ∅ [])
      as (kept & Hkept).
    { by rewrite sorted_reverse_perm. }
    rewrite Hkept in H. simpl in H.
    destruct kept as [|first rest]; simpl in H; [discriminate|].
    assert ((len (first :: rest) >=? 1) = true) as Hlen.
    { rewrite len_cons. pose proof (len_nonneg rest). lia. }
    rewrite Hlen in H. discriminate.
Qed.

(** A feature without a result makes the ranking of its example fail. *)
Lemma example_nbest_missing (unique_id_to_result : gmap Z (RawResult.t F))
    (example : CoQAExample.t) (features : list ChunkFeature.t)
    (feature : ChunkFeature.t) :
  feature ∈ features ->
  unique_id_to_result !! ChunkFeature.unique_id feature = None ->
  example_nbest n_best_size max_answer_length do_lower_case verbose_logging
    validate_flag unique_id_to_result example features = Raise KeyError.
Proof.
  intros (i & Hi)%list_elem_of_lookup Hnone. unfold example_nbest.
  destruct (enumerate_split _ _ _ Hi) as (l1 & l2 & Hsplit & _).
  unfold collect_prelim_predictions. rewrite Hsplit.
  rewrite for_each_raises with (e := KeyError); [done| |].
  - intros preds [fi f] e' Hin Hpass.
    apply collect_pass_raise with (features := features) in Hpass as [-> _];
      [done|].
    rewrite Hsplit. apply elem_of_app. by left.
  - intros preds. unfold dict_get. by rewrite Hnone.
Qed.

Lemma prediction_body_raise
    (example_index_to_features : gmap Z (list ChunkFeature.t))
    (unique_id_to_result : gmap Z (RawResult.t F))
    (st : gmap (string * Z) (option string) * list Prediction.t
          * list (NbestJson.t F))
    (it : Z * CoQAExample.t) (e : exn) :
  (validate_flag = false ->
   forall scores, length (_compute_softmax scores) = length scores) ->
  prediction_body n_best_size max_answer_length do_lower_case verbose_logging
    validate_flag example_index_to_features unique_id_to_result st it
  = Raise e ->
  e = KeyError.
Proof.
  intros Hsoft. destruct st as [[m ap] an], it as [i ex].
  unfold prediction_body.
  intros [Hnbest|(nbest & Hnbest & H)]%bind_Raise.
  { by apply example_nbest_raise in Hnbest. }
  apply example_nbest_spec in Hnbest as (preds & kept & _ & _ & Hnbest).
  assert (exists first rest, nbest = first :: rest) as (first & rest & ->).
  { destruct kept; subst nbest; eauto. }
  destruct validate_flag; [discriminate|].
  destruct (nbest_json_of_total (first :: rest) (Hsoft eq_refl)) as (js & Hjs).
  rewrite Hjs in H. simpl in H.
  pose proof (nbest_json_of_spec _ _ Hjs) as Hmap.
  destruct js as [|best answers]; [discriminate|].
  assert ((len (best :: answers) >=? 1) = true) as Hlen.
  { rewrite len_cons. pose proof (len_nonneg answers). lia. }
  rewrite Hlen in H. discriminate.
Qed.

Lemma index_results_none (all_results : list (RawResult.t F))
    (m : gmap Z (RawResult.t F)) (k : Z) :
  m !! k = None ->
  (forall result, result ∈ all_results -> RawResult.unique_id result <> k) ->
  fold_left
    (fun unique_id_to_result result =>
       <[RawResult.unique_id result := result]> unique_id_to_result)
    all_results m !! k = None.
Proof.
  revert m. induction all_results as [|r rs IH]; intros m Hm Hrs; simpl; [done|].
  apply IH.
  - rewrite lookup_insert_ne; [done|]. apply Hrs. by left.
  - intros r' Hr'. apply Hrs. by right.
Qed.

End DecoderErrors.

(** X9: when a feature of one of the examples has no result with its
    [unique_id], [make_predictions] raises [KeyError] (outside validation
    mode: given that the softmax returns one probability per score). *)
Theorem missing_result_raises {F : Type} `{score : Score F} `{qa_util : QaUtil}
    `{softmax : Softmax F} (n_best_size max_answer_length : Z)
    (do_lower_case verbose_logging validate_flag : bool)
    (all_examples : list CoQAExample.t) (all_features : list ChunkFeature.t)
    (all_results : list (RawResult.t F)) (feature : ChunkFeature.t) :
  (validate_flag = false ->
   forall scores, length (_compute_softmax scores) = length scores) ->
  feature ∈ all_features ->
  0 <= ChunkFeature.example_index feature < len all_examples ->
  (forall result, result ∈ all_results ->
     RawResult.unique_id result <> ChunkFeature.unique_id feature) ->
  make_predictions n_best_size max_answer_length do_lower_case verbose_logging
    validate_flag all_examples all_features all_results = Raise KeyError.
Proof.
  intros Hsoft Hin Hrange Hnone. unfold make_predictions.
  destruct (lookup_lt_is_Some_2 all_examples
              (Z.to_nat (ChunkFeature.example_index feature)))
    as [ex Hex]; [unfold len in Hrange; lia|].
  destruct (enumerate_split _ _ _ Hex) as (l1 & l2 & Hsplit & _).
  rewrite Hsplit, for_each_raises with (e := KeyError); [done| |].
  - intros st it e. intros _. by apply prediction_body_raise.
  - intros [[m ap] an]. unfold prediction_body.
    rewrite example_nbest_missing with (feature := feature); [done| |].
    + rewrite group_features_spec. apply list_elem_of_filter.
      split; [lia|done].
    + apply index_results_none; [apply lookup_empty|done].
Qed.

Lemma missing_result_raises_witness :
  make_predictions (score := Sample.q_score) (qa_util := Sample.qa_util)
    (softmax := Sample.q_softmax) 2 30 true false true
    [SampleInput.example] [SampleInput.chunk] []
  = Raise KeyError.
Proof.
  apply (missing_result_raises (score := Sample.q_score)
           (qa_util := Sample.qa_util) (softmax := Sample.q_softmax)
           2 30 true false true [SampleInput.example] [SampleInput.chunk] []
           SampleInput.chunk).
  - discriminate.
  - by left.
  - vm_compute. split; [discriminate|reflexivity].
  - intros result []%elem_of_nil.
Defined.

Lemma filter_example_index (all_features : list ChunkFeature.t) (n k : Z) :
  0 <= k < n ->
  filter (fun feature => ChunkFeature.example_index feature = k)
    (filter (fun feature => 0 <= ChunkFeature.example_index feature < n)
       all_features)
  = filter (fun feature => ChunkFeature.example_index feature = k) all_features.
Proof.
  intros Hk. induction all_features as [|f fs IH]; [done|].
  rewrite !filter_cons.
  destruct (decide (0 <= ChunkFeature.example_index f < n)) as [Hin|Hout].
  - rewrite filter_cons.
    destruct (decide (ChunkFeature.example_index f = k)); by rewrite IH.
  - rewrite decide_False by lia. done.
Qed.

(** X10: features whose [example_index] is not the index of an example have
    no effect on what [make_predictions] returns or raises. *)
Theorem stray_features_ignored {F : Type} `{score : Score F}
    `{qa_util : QaUtil} `{softmax : Softmax F}
    (n_best_size max_answer_length : Z)
    (do_lower_case verbose_logging validate_flag : bool)
    (all_examples : list CoQAExample.t) (all_features : list ChunkFeature.t)
    (all_results : list (RawResult.t F)) :
  make_predictions n_best_size max_answer_length do_lower_case verbose_logging
    validate_flag all_examples all_features all_results
  = make_predictions n_best_size max_answer_length do_lower_case
      verbose_logging validate_flag all_examples
      (filter (fun feature =>
                 0 <= ChunkFeature.example_index feature < len all_examples)
         all_features)
      all_results.
Proof.
  unfold make_predictions.
  rewrite (for_each_ext (enumerate all_examples)
             (prediction_body n_best_size max_answer_length do_lower_case
                verbose_logging validate_flag (group_features all_features)
                (index_results all_results))
             (prediction_body n_best_size max_answer_length do_lower_case
                verbose_logging validate_flag
                (group_features
                   (filter (fun feature =>
                              0 <= ChunkFeature.example_index feature
                              < len all_examples) all_features))
                (index_results all_results))); [done|].
  intros [[m ap] an] [i ex] [Hi Hex]%elem_of_enumerate.
  unfold prediction_body.
  rewrite !group_features_spec, filter_example_index; [done|].
  apply lookup_lt_Some in Hex. unfold len. lia.
Qed.

(** ** The results dictionary *)

(** X11: [unique_id_to_result] has an entry for an identifier exactly when
    some result carries it, and the entry is the last such result of
    [all_results]. *)
Theorem results_by_unique_id {F : Type} (all_results : list (RawResult.t F)) :
  (forall k,
     index_results all_results !! k = None
     <-> forall result, result ∈ all_results -> RawResult.unique_id result <> k) /\
  (forall before after result,
     all_results = before ++ result :: after ->
     (forall later, later ∈ after ->
        RawResult.unique_id later <> RawResult.unique_id result) ->
     index_results all_results !! RawResult.unique_id result = Some result).
Proof.
  split.
  - intros k. split.
    + intros Hnone r Hr Hk.
      destruct (index_results_has all_results r Hr) as [r' Hr'].
      rewrite Hk in Hr'. congruence.
    + intros Hall. apply index_results_none; [apply lookup_empty|done].
  - intros before after r -> Hafter. unfold index_results.
    rewrite fold_left_app. simpl.
    set (m := <[RawResult.unique_id r := r]> _).
    assert (Hm : m !! RawResult.unique_id r = Some r) by apply lookup_insert_eq.
    clearbody m. revert m Hm.
    induction after as [|r' after IH]; intros m Hm; simpl; [done|].
    apply IH.
    + intros later Hlater. apply Hafter. by right.
    + rewrite lookup_insert_ne; [done|]. apply Hafter. by left.
Qed.

Lemma results_by_unique_id_witness :
  index_results [SampleInput.span_result; SampleInput.yes_no_result]
    !! 1000000000 = Some SampleInput.yes_no_result.
Proof.
  apply (proj2 (results_by_unique_id
                  [SampleInput.span_result; SampleInput.yes_no_result])
           [SampleInput.span_result] [] SampleInput.yes_no_result eq_refl).
  intros later []%elem_of_nil.
Defined.

(** ** The two lists returned outside validation mode *)

Section FullOutput.
Context {F : Type} `{score : Score F} `{qa_util : QaUtil} `{softmax : Softmax F}.
Variables (n_best_size max_answer_length : Z).
Variables (do_lower_case verbose_logging validate_flag : bool).

(** The ranked entries of an example have distinct texts and are at most
    [n_best_size], or one. *)
Lemma example_nbest_distinct (unique_id_to_result : gmap Z (RawResult.t F))
    (example : CoQAExample.t) (features : list ChunkFeature.t)
    (nbest : list (NbestPrediction.t F)) :
  example_nbest n_best_size max_answer_length do_lower_case verbose_logging
    validate_flag unique_id_to_result example features = Ok nbest ->
  NoDup (texts nbest) /\ len nbest <= Z.max 1 n_best_size.
Proof.
  intros (preds & kept & _ & Hkept & ->)%example_nbest_spec.
  eapply nbest_loop_spec in Hkept as (kept' & -> & Hnd & Hlen & _).
  - simpl in *. rewrite len_nil in Hlen.
    destruct kept' as [|first rest].
    + split; [apply NoDup_singleton|]. unfold len. simpl. lia.
    + split; [done|lia].
  - intros t. rewrite lookup_empty. split; [by intros [? ?]|].
    by intros ?%elem_of_nil.
  - constructor.
Qed.

(** Each pass adds to the two lists a pair of records for the same example,
    the answer of the first being the first text of the second. *)
Lemma full_loop_pairs
    (example_index_to_features : gmap Z (list ChunkFeature.t))
    (unique_id_to_result : gmap Z (RawResult.t F))
    (l : list (Z * CoQAExample.t))
    (m m' : gmap (string * Z) (option string)) (ap ap' : list Prediction.t)
    (an an' : list (NbestJson.t F)) :
  validate_flag = false ->
  for_each l
    (prediction_body n_best_size max_answer_length do_lower_case
       verbose_logging validate_flag example_index_to_features
       unique_id_to_result) (m, ap, an) = Ok (m', ap', an') ->
  exists newp newn,
    ap' = ap ++ newp /\ an' = an ++ newn /\ m' = m /\
    Forall2
      (fun p n =>
         Prediction.id p = NbestJson.id n /\
         Prediction.turn_id p = NbestJson.turn_id n /\
         (exists best rest,
            NbestJson.answers n = best :: rest /\
            Prediction.answer p = NbestOutput.text best) /\
         NoDup (map NbestOutput.text (NbestJson.answers n)) /\
         len (NbestJson.answers n) <= Z.max 1 n_best_size)
      newp newn.
Proof.
  intros Hv. revert m ap an.
  induction l as [|[i ex] l IH]; intros m ap an; simpl.
  - intros [= <- <- <-]. exists [], []. rewrite !app_nil_r.
    repeat split; constructor.
  - intros (st & Hbody & Hrest)%bind_Ok.
    eapply prediction_body_full in Hbody
      as (nbest & best & answers & Hnbest & Hjs & ->); [|done].
    destruct (IH _ _ _ Hrest) as (newp & newn & Hap & Han & Hm & Hpairs).
    eexists (_ :: newp), (_ :: newn).
    rewrite Hap, Han, <- !app_assoc. simpl.
    split; [done|]. split; [done|]. split; [done|].
    constructor; [|done]. simpl. split; [done|]. split; [done|].
    split; [by exists best, answers|].
    apply example_nbest_distinct in Hnbest as [Hnd Hlen].
    apply nbest_json_of_spec in Hjs.
    assert (Htexts : map NbestOutput.text (best :: answers) = texts nbest).
    { pose proof (f_equal (map fst) Hjs) as Hfst.
      rewrite !map_map in Hfst. exact Hfst. }
    split; [rewrite <- Htexts in Hnd; exact Hnd|].
    assert (length (best :: answers) = length nbest) as Hl.
    { pose proof (f_equal length Hjs) as Hl. by rewrite !length_map in Hl. }
    unfold len in *. lia.
Qed.

End FullOutput.

(** X12: outside validation mode the two returned lists go record by record:
    the records at the same position carry the same [id] and [turn_id], the
    [answer] of the first is the text of the first of the [answers] of the
    second, and these [answers] have pairwise distinct texts and are at most
    [n_best_size] (or one, when [n_best_size] is below 1). *)
Theorem best_answer_heads_nbest {F : Type} `{score : Score F}
    `{qa_util : QaUtil} `{softmax : Softmax F}
    (n_best_size max_answer_length : Z) (do_lower_case verbose_logging : bool)
    (all_examples : list CoQAExample.t) (all_features : list ChunkFeature.t)
    (all_results : list (RawResult.t F)) (out : predictions F) :
  make_predictions n_best_size max_answer_length do_lower_case verbose_logging
    false all_examples all_features all_results = Ok out ->
  exists all_predictions all_nbest_json,
    out = AllPredictions all_predictions all_nbest_json /\
    Forall2
      (fun p n =>
         Prediction.id p = NbestJson.id n /\
         Prediction.turn_id p = NbestJson.turn_id n /\
         (exists best rest,
            NbestJson.answers n = best :: rest /\
            Prediction.answer p = NbestOutput.text best) /\
         NoDup (map NbestOutput.text (NbestJson.answers n)) /\
         len (NbestJson.answers n) <= Z.max 1 n_best_size)
      all_predictions all_nbest_json.
Proof.
  unfold make_predictions.
  intros ([[m ap] an] & Hloop & [= <-])%bind_Ok.
  eapply full_loop_pairs in Hloop as (newp & newn & -> & -> & _ & Hpairs);
    [|done].
  by exists newp, newn.
Qed.

Lemma best_answer_heads_nbest_witness :
  match make_predictions (score := Sample.q_score) (qa_util := Sample.qa_util)
          (softmax := Sample.q_softmax) 2 30 true false false
          [SampleInput.example; SampleInput.other_example] [SampleInput.chunk]
          [SampleInput.span_result]
  with
  | Ok (AllPredictions all_predictions all_nbest_json) =>
      map Prediction.answer all_predictions
      = [Some "ab"%string; Some "empty"%string] /\
      Forall2
        (fun p n =>
           exists best rest,
             NbestJson.answers n = best :: rest /\
             Prediction.answer p = NbestOutput.text best)
        all_predictions all_nbest_json
  | _ => False
  end.
Proof.
  destruct (make_predictions _ _ _ _ _ _ _ _) as [out|e] eqn:Hrun;
    [|vm_compute in Hrun; discriminate].
  destruct (best_answer_heads_nbest (score := Sample.q_score)
              (qa_util := Sample.qa_util) (softmax := Sample.q_softmax)
              2 30 true false _ _ _ out Hrun) as (ap & an & -> & Hpairs).
  split.
  - vm_compute in Hrun. injection Hrun as <- _. reflexivity.
  - eapply Forall2_impl; [exact Hpairs|]. simpl.
    intros p n (_ & _ & Hhead & _). exact Hhead.
Defined.

(** ** The best answer *)

Section BestAnswer.
Context {F : Type} `{score : Score F} `{qa_util : QaUtil}.
Hypothesis ltb_asym :
  forall a b : F, score_ltb a b = true -> score_ltb b a = false.
Hypothesis ltb_negtrans :
  forall a b c : F,
    score_ltb a b = false -> score_ltb b c = false -> score_ltb a c = false.

Lemma ltb_irrefl (a : F) : score_ltb a a = false.
Proof.
  destruct (score_ltb a a) eqn:H; [|done].
  pose proof (ltb_asym _ _ H). congruence.
Qed.

(** The first element of the sorted list has a key that none exceeds. *)
Lemma sorted_reverse_head {A : Type} (key : A -> F) (l : list A) (h : A)
    (t : list A) :
  sorted_reverse key l = h :: t ->
  h ∈ l /\ forall y, y ∈ l -> score_ltb (key h) (key y) = false.
Proof.
  revert h t. induction l as [|x l IH]; intros h t; simpl; [discriminate|].
  destruct (sorted_reverse key l) as [|h' t'] eqn:Hs; simpl.
  - intros [= <- <-].
    assert (l = []) as ->.
    { apply Permutation_nil_r. by rewrite <- Hs, sorted_reverse_perm. }
    split; [by left|]. intros y [->|[]%elem_of_nil]%elem_of_cons.
    apply ltb_irrefl.
  - destruct (IH h' t' eq_refl) as [Hh' Hmax].
    destruct (score_ltb (key x) (key h')) eqn:Hlt.
    + intros [= <- <-]. split; [by right|].
      intros y [->|Hy]%elem_of_cons; [by apply ltb_asym|by apply Hmax].
    + intros [= <- <-]. split; [by left|].
      intros y [->|Hy]%elem_of_cons; [apply ltb_irrefl|].
      apply (ltb_negtrans _ (key h')); [done|by apply Hmax].
Qed.

End BestAnswer.

(** X13: in validation mode, with [n_best_size] at least 1 and scores that
    are ordered (the comparison is asymmetric and its negation transitive),
    the one ranked entry of an example that has candidates is the text and
    the logit of a candidate whose logit no other candidate exceeds. *)
Theorem validate_answer_is_best {F : Type} `{score : Score F}
    `{qa_util : QaUtil} (n_best_size max_answer_length : Z)
    (do_lower_case verbose_logging : bool)
    (unique_id_to_result : gmap Z (RawResult.t F)) (example : CoQAExample.t)
    (features : list ChunkFeature.t) (preds : list (PrelimPrediction.t F))
    (nbest : list (NbestPrediction.t F)) :
  (forall a b : F, score_ltb a b = true -> score_ltb b a = false) ->
  (forall a b c : F,
     score_ltb a b = false -> score_ltb b c = false -> score_ltb a c = false) ->
  0 < n_best_size ->
  collect_prelim_predictions n_best_size max_answer_length unique_id_to_result
    features = Ok preds ->
  preds <> [] ->
  example_nbest n_best_size max_answer_length do_lower_case verbose_logging
    true unique_id_to_result example features = Ok nbest ->
  exists top,
    top ∈ preds /\
    (forall pred, pred ∈ preds ->
       score_ltb (PrelimPrediction.logit top) (PrelimPrediction.logit pred)
       = false) /\
    exists final_text,
      final_text_of do_lower_case verbose_logging example features top
      = Ok final_text /\
      nbest = [NbestPrediction.mk final_text (PrelimPrediction.logit top)].
Proof.
  intros Hasym Hnegtrans Hn Hpreds Hne Hrun.
  apply example_nbest_spec in Hrun as (preds' & kept & Hpreds' & Hkept & ->).
  assert (preds' = preds) as -> by congruence.
  destruct (sorted_reverse PrelimPrediction.logit preds) as [|top rest] eqn:Hs.
  { exfalso. apply Hne. apply Permutation_nil_r.
    by rewrite <- Hs, sorted_reverse_perm. }
  destruct (sorted_reverse_head Hasym Hnegtrans _ _ _ _ Hs) as [Htop Hmax].
  rewrite nbest_loop_validate_top in Hkept by done.
  apply bind_Ok in Hkept as (t & Ht & [= <-]).
  exists top. split; [done|]. split; [done|]. by exists t.
Qed.

Lemma validate_answer_is_best_witness :
  exists top,
    top ∈ [PrelimPrediction.mk 0 3 4 None 5.9%Q;
           PrelimPrediction.mk 0 3 3 None 3.9%Q;
           PrelimPrediction.mk 0 4 4 None 4.9%Q] /\
    PrelimPrediction.logit top = 5.9%Q.
Proof.
  destruct (validate_answer_is_best (score := Sample.q_score)
              (qa_util := Sample.qa_util) 2 30 true false
              (index_results [SampleInput.span_result]) SampleInput.example
              [SampleInput.chunk]
              [PrelimPrediction.mk 0 3 4 None 5.9%Q;
               PrelimPrediction.mk 0 3 3 None 3.9%Q;
               PrelimPrediction.mk 0 4 4 None 4.9%Q]
              [NbestPrediction.mk (Some "ab"%string) 5.9%Q])
    as (top & Htop & _ & t & _ & Hnbest).
  - intros a b. simpl. intros Hab%negb_true_iff.
    apply negb_false_iff, Qle_bool_iff, Qlt_le_weak, Qnot_le_lt.
    intros Hle%Qle_bool_iff. congruence.
  - intros a b c. simpl. intros Hab%negb_false_iff Hbc%negb_false_iff.
    apply negb_false_iff, Qle_bool_iff.
    apply Qle_bool_iff in Hab, Hbc. by apply (Qle_trans _ b).
  - lia.
  - vm_compute. reflexivity.
  - discriminate.
  - vm_compute. reflexivity.
  - exists top. split; [exact Htop|]. by injection Hnbest as _ ->.
Defined.

(** ** Edge cases *)

(** X14: with [n_best_size] of 0 or less the loop keeps no candidate, so the
    ranked entries of an example whose features all have results are the one
    placeholder "empty" with logit 0.0, whatever the scores. *)
Theorem no_room_for_candidates {F : Type} `{score : Score F}
    `{qa_util : QaUtil} (n_best_size max_answer_length : Z)
    (do_lower_case verbose_logging validate_flag : bool)
    (unique_id_to_result : gmap Z (RawResult.t F)) (example : CoQAExample.t)
    (features : list ChunkFeature.t) :
  n_best_size <= 0 ->
  (forall feature, feature ∈ features ->
     is_Some (unique_id_to_result !! ChunkFeature.unique_id feature)) ->
  example_nbest n_best_size max_answer_length do_lower_case verbose_logging
    validate_flag unique_id_to_result example features
  = Ok [NbestPrediction.mk (Some "empty"%string) score_zero].
Proof.
  intros Hn Hres. unfold example_nbest.
  destruct (collect_prelim_predictions_total n_best_size max_answer_length
              unique_id_to_result features Hres) as (preds & -> & _).
  simpl.
  assert (nbest_loop n_best_size do_lower_case verbose_logging validate_flag
            example features (sorted_reverse PrelimPrediction.logit preds) ∅ []
          = Ok []) as ->; [|reflexivity].
  destruct (sorted_reverse PrelimPrediction.logit preds) as [|p rest];
    [done|]. simpl.
  assert ((len (@nil (NbestPrediction.t F)) >=? n_best_size) = true) as ->
    by (rewrite len_nil; lia).
  done.
Qed.

Lemma no_room_for_candidates_witness :
  example_nbest (score := Sample.q_score) (qa_util := Sample.qa_util)
    0 30 true false false (index_results [SampleInput.yes_no_result])
    SampleInput.example [SampleInput.chunk]
  = Ok [NbestPrediction.mk (Some "empty"%string) 0%Q].
Proof.
  apply (no_room_for_candidates (score := Sample.q_score)
           (qa_util := Sample.qa_util)).
  - lia.
  - intros feature [->|[]%elem_of_nil]%elem_of_cons. vm_compute. eauto.
Defined.

Section EmptyDocuments.
Context `{tokenizer : Tokenizer} `{qa_util : QaUtil}.

Lemma examples_loop_empty (max_seq_length doc_stride max_query_length : Z)
    (append_history : bool) (fuel : nat) (examples : list (Z * CoQAExample.t))
    (st : list ChunkFeature.t * Z) :
  (forall i example, (i, example) ∈ examples -> all_doc_tokens_of example = []) ->
  examples_loop max_seq_length doc_stride max_query_length false
    append_history (S fuel) examples st = Some (Ok st).
Proof.
  induction examples as [|[i ex] examples IH]; intros Hempty; [done|].
  cbn [examples_loop].
  assert (example_body max_seq_length doc_stride max_query_length false
            append_history (S fuel) i ex st = Some (Ok st)) as ->.
  { pose proof (Hempty i ex ltac:(by left)) as Hex.
    unfold example_body, all_doc_tokens_of in *.
    destruct (tokenize_doc _) as [[t2o o2t] all]. simpl in Hex. subst all.
    unfold tok_positions.
    rewrite sliding_windows_empty by (by rewrite len_nil).
    by destruct st. }
  apply IH. intros j ex' Hin. apply (Hempty j). by right.
Qed.

End EmptyDocuments.

(** X15: outside training, examples whose documents have no subword token
    give no feature; and without features [make_predictions] in validation
    mode maps every example to the placeholder text "empty". *)
Theorem empty_documents {F : Type} `{tokenizer : Tokenizer} `{score : Score F}
    `{qa_util : QaUtil} `{softmax : Softmax F}
    (examples : list CoQAExample.t) :
  ((forall example, example ∈ examples -> all_doc_tokens_of example = []) ->
   forall (max_seq_length doc_stride max_query_length : Z)
          (append_history : bool) (fuel : nat),
     convert_examples_to_features max_seq_length doc_stride max_query_length
       false append_history (S fuel) examples = Some (Ok [])) /\
  (forall (n_best_size max_answer_length : Z)
          (do_lower_case verbose_logging : bool)
          (all_results : list (RawResult.t F)),
     exists validate_predictions,
       make_predictions n_best_size max_answer_length do_lower_case
         verbose_logging true examples [] all_results
       = Ok (ValidatePredictions validate_predictions) /\
       forall example, example ∈ examples ->
         validate_predictions !! example_key example
         = Some (Some "empty"%string)).
Proof.
  split.
  - intros Hempty max_seq_length doc_stride max_query_length append_history fuel.
    unfold convert_examples_to_features.
    rewrite examples_loop_empty; [done|].
    intros i ex Hin. apply Hempty. by apply enumerate_elem in Hin.
  - intros n_best_size max_answer_length do_lower_case verbose_logging
      all_results.
    unfold make_predictions.
    destruct (for_each_succeeds
                (fun st : gmap (string * Z) (option string)
                          * list Prediction.t * list (NbestJson.t F) =>
                   forall k v, fst (fst st) !! k = Some v ->
                               v = Some "empty"%string)
                (enumerate examples)
                (prediction_body n_best_size max_answer_length do_lower_case
                   verbose_logging true (group_features [])
                   (index_results all_results))
                (∅, [], [])) as ([[m ap] an] & Hrun & Hvalues).
    + intros [[m ap] an] [i ex] _ Hm. eexists. split; [reflexivity|].
      simpl. intros k v.
      destruct (decide (example_key ex = k)) as [<-|Hne].
      * rewrite lookup_insert_eq. by intros [= <-].
      * rewrite lookup_insert_ne by done. apply Hm.
    + simpl. intros k v. by rewrite lookup_empty.
    + rewrite Hrun. simpl. exists m. split; [done|].
      intros ex (i & Hi)%list_elem_of_lookup.
      eapply validate_loop_has_entry with (i := Z.of_nat i) (example := ex)
        in Hrun as [v Hv]; [|done|].
      * simpl in *. rewrite Hv. f_equal. by apply (Hvalues _ _ Hv).
      * apply elem_of_enumerate. split; [lia|]. by rewrite Nat2Z.id.
Qed.

Lemma empty_documents_witness :
  convert_examples_to_features (tokenizer := Sample.char_tokenizer)
    (qa_util := Sample.qa_util) 6 2 64 false false 1
    [CoQAExample.mk ["q"%string] [] ""%string 0 0 0 0 "p3"%string 1]
  = Some (Ok []).
Proof.
  apply (proj1 (empty_documents (F := Q) (tokenizer := Sample.char_tokenizer)
                  (score := Sample.q_score) (qa_util := Sample.qa_util)
                  (softmax := Sample.q_softmax)
                  [CoQAExample.mk ["q"%string] [] ""%string 0 0 0 0
                     "p3"%string 1])).
  intros example [->|[]%elem_of_nil]%elem_of_cons. reflexivity.
Defined.

(** ** Labels *)

Section Labels.
Context `{tokenizer : Tokenizer} `{qa_util : QaUtil}.

Lemma doc_span_feature_labels (max_seq_length example_index : Z)
    (example : CoQAExample.t) (query_tokens : list string)
    (tok_to_orig_index : list Z) (all_doc_tokens : list string)
    (tok_position : option (Z * Z)) (doc_spans : list DocSpan.t)
    (unique_id doc_span_index : Z) (doc_span : DocSpan.t)
    (feature : ChunkFeature.t) :
  doc_span_feature max_seq_length example_index example query_tokens
    tok_to_orig_index all_doc_tokens tok_position doc_spans unique_id
    doc_span_index doc_span = Ok (Some feature) ->
  match tok_position with
  | Some _ =>
      is_Some (ChunkFeature.start_position feature) /\
      is_Some (ChunkFeature.end_position feature) /\
      ChunkFeature.yes_no_flag feature = Some (CoQAExample.yes_no_flag example) /\
      ChunkFeature.yes_no_ans feature = Some (CoQAExample.yes_no_ans example)
  | None =>
      ChunkFeature.start_position feature = None /\
      ChunkFeature.end_position feature = None /\
      ChunkFeature.yes_no_flag feature = None /\
      ChunkFeature.yes_no_ans feature = None
  end.
Proof.
  unfold doc_span_feature. rewrite query_loop_spec.
  intros ([[[tokens om] cm] seg] & _ & H)%bind_Ok.
  destruct (zero_pad _ _ _ _) as [[ids mask] seg'].
  apply bind_Ok in H as (u1 & _ & H).
  apply bind_Ok in H as (u2 & _ & H).
  apply bind_Ok in H as (u3 & _ & H).
  destruct tok_position as [[ts te]|];
    [destruct (_ || _); [discriminate|]|]; injection H as <-; simpl; eauto.
Qed.

Lemma tok_positions_mode (is_training : bool) (example : CoQAExample.t)
    (orig_to_tok_index : list Z) (all_doc_tokens : list string)
    (tok_position : option (Z * Z)) :
  tok_positions is_training example orig_to_tok_index all_doc_tokens
  = Ok tok_position ->
  is_Some tok_position <-> is_training = true.
Proof.
  unfold tok_positions. destruct is_training.
  - intros (ts & _ & (te & _ & [= <-])%bind_Ok)%bind_Ok. split; eauto.
  - intros [= <-]. split; [by intros [? ?]|discriminate].
Qed.

End Labels.

(** X16: the features returned in training mode all carry a start and an end
    position and the yes/no flag and answer of their example; the features
    returned outside training carry none of the four. *)
Theorem labels_follow_mode `{tokenizer : Tokenizer} `{qa_util : QaUtil}
    (max_seq_length doc_stride max_query_length : Z)
    (is_training append_history : bool) (fuel : nat)
    (examples : list CoQAExample.t) (features : list ChunkFeature.t) :
  convert_examples_to_features max_seq_length doc_stride max_query_length
    is_training append_history fuel examples = Some (Ok features) ->
  forall feature, feature ∈ features ->
    exists example,
      examples !! Z.to_nat (ChunkFeature.example_index feature) = Some example /\
      if is_training
      then is_Some (ChunkFeature.start_position feature) /\
           is_Some (ChunkFeature.end_position feature) /\
           ChunkFeature.yes_no_flag feature
           = Some (CoQAExample.yes_no_flag example) /\
           ChunkFeature.yes_no_ans feature
           = Some (CoQAExample.yes_no_ans example)
      else ChunkFeature.start_position feature = None /\
           ChunkFeature.end_position feature = None /\
           ChunkFeature.yes_no_flag feature = None /\
           ChunkFeature.yes_no_ans feature = None.
Proof.
  intros Hrun f Hf.
  apply convert_examples_to_features_from in Hrun as [_ Hfrom].
  apply (proj1 (Forall_forall _ _) Hfrom) in Hf as (i & ex & Hex & Hbuilt).
  pose proof (built_from_layout _ _ _ _ _ _ _ _ _ Hbuilt) as (Hei & _).
  exists ex. rewrite Hei, Nat2Z.id. split; [done|].
  unfold built_from in Hbuilt.
  destruct (tokenize_doc _) as [[t2o o2t] all].
  destruct Hbuilt as (pos & ws & uid & dsi & ds & Hpos & _ & _ & _ & Hfeature).
  apply tok_positions_mode in Hpos.
  apply doc_span_feature_labels in Hfeature.
  destruct is_training, pos as [p|]; try done.
  - exfalso. destruct Hpos as [_ Hpos]. by destruct (Hpos eq_refl).
  - exfalso. destruct Hpos as [Hpos _]. by specialize (Hpos (mk_is_Some _ _ eq_refl)).
Qed.

Lemma labels_follow_mode_witness :
  match convert_examples_to_features (tokenizer := Sample.char_tokenizer)
          (qa_util := Sample.qa_util) 8 2 64 true false 3
          [SampleInput.example]
  with
  | Some (Ok features) =>
      length features = 1%nat /\
      forall feature, feature ∈ features ->
        ChunkFeature.yes_no_flag feature = Some 0
  | _ => False
  end.
Proof.
  destruct (convert_examples_to_features _ _ _ _ _ _ _) as [[features|e]|]
    eqn:Hrun; [|vm_compute in Hrun; discriminate..].
  split.
  - vm_compute in Hrun. by injection Hrun as <-.
  - intros feature Hin.
    destruct (labels_follow_mode (tokenizer := Sample.char_tokenizer)
                (qa_util := Sample.qa_util) 8 2 64 true false 3
                [SampleInput.example] features Hrun feature Hin)
      as (example & Hex & _ & _ & Hflag & _).
    rewrite Hflag. f_equal.
    destruct (Z.to_nat (ChunkFeature.example_index feature)) as [|j];
      [by injection Hex as <-|by destruct j].
Defined.
